(** * Portfolio monitor: alert evaluation, scan orchestration, scheduler
      and configuration handlers of [portfolio_web_app.py].

    Numbers.  Prices, thresholds and indicator values are Python floats in
    the program.  In the first part they are modelled by exact rationals
    [Q]: every operation is the real-number operation the float operation
    approximates, and comparisons are comparisons of rationals ([==], [<=]
    of [QArith]).  The undefined value of pandas ([NaN] / [pd.NA]) is
    [None] in a [series].  What depends on the rounding of binary64
    arithmetic or on [NaN] among the prices (the comparison that decides an
    alert, the rounding of the reported fields, the exception of a frame
    without a high) is stated on the binary64 numbers of [PrimFloat], in
    the module [F64].

    Threads.  The loop threads started by [start_monitoring] are followed
    in a [World] of events in time.

    Text.  Strings are ASCII strings of the Standard Library. *)

From Stdlib Require Import Floats.
From Stdlib Require Import ZArith QArith Qabs Qround Qminmax.
From Stdlib Require Import List String Ascii Bool Arith Lia Lqa.
Import ListNotations.

(* A decimal literal of a binary64 number stands for the nearest one. *)
Set Warnings "-inexact-float".

Local Open Scope string_scope.
Local Open Scope list_scope.
Local Open Scope Q_scope.

(* ------------------------------------------------------------------ *)
(** ** Rounding: [round(x, 2)] *)

(** Nearest integer, ties to the even neighbour. *)
Definition round_half_even (x : Q) : Z :=
  let f := Qfloor x in
  match Qcompare (x - inject_Z f) (1 # 2) with
  | Lt => f
  | Gt => (f + 1)%Z
  | Eq => if Z.even f then f else (f + 1)%Z
  end.

(** [round(x, 2)]: nearest multiple of 1/100. *)
Definition round2 (x : Q) : Q := inject_Z (round_half_even (x * 100)) / 100.

(* ------------------------------------------------------------------ *)
(** ** The pandas operations used by [compute_rsi] *)

(** A float Series with possibly undefined entries. *)
Definition series := list (option Q).

(** [s.iloc[-1]]; [None] stands for the [IndexError] on an empty Series. *)
Fixpoint iloc_last {A : Type} (l : list A) : option A :=
  match l with
  | [] => None
  | [x] => Some x
  | _ :: t => iloc_last t
  end.

Fixpoint diff_from (prev : Q) (l : list Q) : series :=
  match l with
  | [] => []
  | x :: t => Some (x - prev) :: diff_from x t
  end.

(** [close_series.diff()]: the first entry is undefined. *)
Definition diff (l : list Q) : series :=
  match l with
  | [] => []
  | x :: t => None :: diff_from x t
  end.

(** [s.clip(lower=lo)] and [s.clip(upper=hi)]; undefined entries stay. *)
Definition clip_lower (lo : Q) (s : series) : series :=
  map (option_map (fun x => if Qle_bool lo x then x else lo)) s.

Definition clip_upper (hi : Q) (s : series) : series :=
  map (option_map (fun x => if Qle_bool x hi then x else hi)) s.

(** Unary minus on a Series. *)
Definition neg (s : series) : series := map (option_map Qopp) s.

(** The defined entries of a window. *)
Fixpoint observations (w : series) : list Q :=
  match w with
  | [] => []
  | Some x :: t => x :: observations t
  | None :: t => observations t
  end.

Definition Qsum (l : list Q) : Q := fold_right Qplus 0 l.

(** The trailing window of width [w] that ends at position [i]. *)
Definition window_at (w : nat) (s : series) (i : nat) : series :=
  skipn (i + 1 - w) (firstn (i + 1) s).

(** Mean of a window: defined when it holds at least [minp] observations
    and at least one. *)
Definition window_mean (minp : nat) (win : series) : option Q :=
  let obs := observations win in
  let nobs := List.length obs in
  if (minp <=? nobs)%nat && (0 <? nobs)%nat
  then Some (Qsum obs / inject_Z (Z.of_nat nobs))
  else None.

(** [s.rolling(window=w, min_periods=minp).mean()]. *)
Definition rolling_mean (w minp : nat) (s : series) : series :=
  map (fun i => window_mean minp (window_at w s i)) (seq 0 (List.length s)).

(** [s.replace(0, pd.NA)]. *)
Definition replace_zero_NA (s : series) : series :=
  map (fun o => match o with
                | Some x => if Qeq_bool x 0 then None else Some x
                | None => None
                end) s.

(** Element-wise binary operation; an undefined operand gives an undefined
    result. *)
Definition lift2 (f : Q -> Q -> Q) (a b : option Q) : option Q :=
  match a, b with
  | Some x, Some y => Some (f x y)
  | _, _ => None
  end.

Fixpoint zip_with {A B C : Type} (f : A -> B -> C) (l : list A) (m : list B)
  : list C :=
  match l, m with
  | x :: l', y :: m' => f x y :: zip_with f l' m'
  | _, _ => []
  end.

Definition series_div (a b : series) : series := zip_with (lift2 Qdiv) a b.

(* ------------------------------------------------------------------ *)
(** ** [PortfolioMonitor.compute_rsi] *)

Definition gains (close_series : list Q) : series :=
  clip_lower 0 (diff close_series).

Definition losses (close_series : list Q) : series :=
  neg (clip_upper 0 (diff close_series)).

Definition avg_gain (close_series : list Q) (period : nat) : series :=
  rolling_mean period period (gains close_series).

Definition avg_loss (close_series : list Q) (period : nat) : series :=
  rolling_mean period period (losses close_series).

Definition rs (close_series : list Q) (period : nat) : series :=
  series_div (avg_gain close_series period)
             (replace_zero_NA (avg_loss close_series period)).

Definition rsi_series (close_series : list Q) (period : nat) : series :=
  map (option_map (fun r => 100 - 100 / (1 + r))) (rs close_series period).

(** The result is [Some v] for a float and [None] for Python's [None].  An
    exception raised in the body is caught by the [try] and gives [None]
    as well: the [IndexError] of [iloc[-1]] on an empty Series is the last
    branch.  The argument is the close column of a frame at both call
    sites, never Python's [None]; [period] is 14 at both. *)
Definition compute_rsi (close_series : list Q) (period : nat) : option Q :=
  if (List.length close_series <? period + 1)%nat then None
  else
    match iloc_last (rsi_series close_series period) with
    | Some (Some last_rsi) => Some (round2 last_rsi)
    | Some None => None
    | None => None
    end.

(* ------------------------------------------------------------------ *)
(** ** Text operations of the form handlers *)

(** [c.isspace()] on ASCII: TAB, LF, VT, FF, CR, FS, GS, RS, US, space. *)
Definition is_space (c : ascii) : bool :=
  let n := nat_of_ascii c in
  ((9 <=? n) && (n <=? 13) || (28 <=? n) && (n <=? 32))%nat.

Definition is_lower (c : ascii) : bool :=
  let n := nat_of_ascii c in ((97 <=? n) && (n <=? 122))%nat.

Definition upper_char (c : ascii) : ascii :=
  if is_lower c then ascii_of_nat (nat_of_ascii c - 32) else c.

(** [s.upper()]. *)
Fixpoint upper (s : string) : string :=
  match s with
  | EmptyString => EmptyString
  | String c t => String (upper_char c) (upper t)
  end.

Fixpoint lstrip (s : string) : string :=
  match s with
  | EmptyString => EmptyString
  | String c t => if is_space c then lstrip t else s
  end.

Fixpoint rstrip (s : string) : string :=
  match s with
  | EmptyString => EmptyString
  | String c t =>
      match rstrip t with
      | EmptyString => if is_space c then EmptyString else String c EmptyString
      | t' => String c t'
      end
  end.

(** [s.strip()]. *)
Definition strip (s : string) : string := rstrip (lstrip s).

(** [s.replace(a, b)] for one-character [a] and [b]. *)
Fixpoint replace_char (a b : ascii) (s : string) : string :=
  match s with
  | EmptyString => EmptyString
  | String c t => String (if Ascii.eqb c a then b else c) (replace_char a b t)
  end.

(** [s.split(sep)] for a one-character separator: the pieces between the
    separators, empty pieces included; never the empty list. *)
Fixpoint split (sep : ascii) (s : string) : list string :=
  match s with
  | EmptyString => [EmptyString]
  | String c t =>
      if Ascii.eqb c sep then EmptyString :: split sep t
      else match split sep t with
           | piece :: rest => String c piece :: rest
           | [] => [String c EmptyString]
           end
  end.

(** Truth value of a string: non-empty. *)
Definition truthy (s : string) : bool :=
  match s with EmptyString => false | String _ _ => true end.

Definition comma : ascii := ","%char.
Definition newline : ascii := ascii_of_nat 10.

(* ------------------------------------------------------------------ *)
(** ** Data model *)

(** One row of the price history DataFrame: the index label (the trading
    day, as [strftime('%Y-%m-%d')] prints it) and the columns that are
    read. *)
Record Row := mkRow { Date : string; High : Q; Close : Q }.

Definition DataFrame := list Row.

Inductive Status := ALERT | OK.

(** The dict returned by [check_stock_alert]. *)
Record AlertResult := mkAlertResult {
  symbol : string;
  current_price : Q;
  recent_high : Q;
  pct_from_high : Q;
  is_alert : bool;
  date_of_high : string;
  status : Status;
  rsi : option Q
}.

Record ThesisEntry := mkThesisEntry {
  ticker : string;
  thesis : string;
  trigger : string;
  created_at : string
}.

(** [config['email_settings']]; a key that is absent is [None]. *)
Record EmailSettings := mkEmailSettings {
  enabled : option bool;
  smtp_server : option string;
  smtp_port : option Z;
  sender_email : option string;
  sender_password : option string;
  recipient_email : option string
}.

(** The configuration dict; a key that is absent is [None]. *)
Record Config := mkConfig {
  stocks : option (list string);
  alert_threshold : option Q;
  lookback_days : option Z;
  scan_interval_minutes : option Z;
  tradingview_url : option string;
  thesis_entries : option (list ThesisEntry);
  email_settings : option EmailSettings
}.

(** The message handed to the SMTP session: one bullet per alert. *)
Record Message := mkMessage {
  msg_from : string;
  msg_to : string;
  subject_count : nat;
  body_alerts : list AlertResult;
  generated_at : Z
}.

(** What [yf.Ticker(symbol).history(...)] does. *)
Inductive history_outcome :=
| HistoryRaises
| HistoryFrame (data : DataFrame).

(** The collaborators of one scan: the market-data provider (asked for a
    symbol and a number of lookback days that end now), the SMTP
    transport ([true] when every call of the session returns, [false] when
    one of them raises) and the clock. *)
Record Env := mkEnv {
  history : string -> Z -> history_outcome;
  smtp_session : Message -> bool;
  now : Z
}.

(** The [PortfolioMonitor] object, followed by the world it acts on: the
    dumps written to the config file, the threads started, the calls of
    [send_email_alert] and the SMTP sessions opened. *)
Record State := mkState {
  config : Config;
  monitoring : bool;
  monitor_thread : option nat;
  last_scan_results : list AlertResult;
  last_scan_time : option Z;
  config_dumps : list Config;
  threads_started : nat;
  notifier_calls : list (list AlertResult);
  smtp_sessions : list Message
}.

Inductive exn := IndexError.

(** A call returns a value or raises. *)
Inductive outcome (A : Type) :=
| Returned (a : A)
| Raised (e : exn).
Arguments Returned {A} a.
Arguments Raised {A} e.

(* ------------------------------------------------------------------ *)
(** ** State updates *)

Definition set_config (c : Config) (st : State) : State :=
  mkState c (monitoring st) (monitor_thread st) (last_scan_results st)
          (last_scan_time st) (config_dumps st) (threads_started st)
          (notifier_calls st) (smtp_sessions st).

Definition set_stocks (l : list string) (c : Config) : Config :=
  mkConfig (Some l) (alert_threshold c) (lookback_days c)
           (scan_interval_minutes c) (tradingview_url c) (thesis_entries c)
           (email_settings c).

Definition set_alert_threshold (t : Q) (c : Config) : Config :=
  mkConfig (stocks c) (Some t) (lookback_days c)
           (scan_interval_minutes c) (tradingview_url c) (thesis_entries c)
           (email_settings c).

Definition set_thesis_entries (l : list ThesisEntry) (c : Config) : Config :=
  mkConfig (stocks c) (alert_threshold c) (lookback_days c)
           (scan_interval_minutes c) (tradingview_url c) (Some l)
           (email_settings c).

(** [d.get(key, default)]. *)
Definition get {A : Type} (field : option A) (default : A) : A :=
  match field with Some v => v | None => default end.

(* ------------------------------------------------------------------ *)
(** ** [PortfolioMonitor.save_config] (called without argument) *)

Definition save_config (st : State) : State :=
  mkState (config st) (monitoring st) (monitor_thread st)
          (last_scan_results st) (last_scan_time st)
          (config_dumps st ++ [config st]) (threads_started st)
          (notifier_calls st) (smtp_sessions st).

(* ------------------------------------------------------------------ *)
(** ** [PortfolioMonitor.get_stock_data] *)

(** [None] when the provider raises (the exception is caught) and when the
    frame is empty. *)
Definition get_stock_data (cfg : Config) (env : Env) (sym : string)
  : option DataFrame :=
  match history env sym (get (lookback_days cfg) 30%Z) with
  | HistoryRaises => None
  | HistoryFrame [] => None
  | HistoryFrame data => Some data
  end.

(* ------------------------------------------------------------------ *)
(** ** [PortfolioMonitor.check_stock_alert] *)

(** [s.max()]: undefined on an empty Series. *)
Definition series_max (l : list Q) : option Q :=
  match l with
  | [] => None
  | x :: t => Some (fold_left Qmax t x)
  end.

(** [data.loc[data['High'] == h]]: the rows whose high is [h], in order. *)
Definition rows_with_high (h : Q) (data : DataFrame) : DataFrame :=
  filter (fun r => Qeq_bool (High r) h) data.

(** The body has no [try]: [iloc[-1]] and [index[-1]] raise [IndexError]
    on an empty selection.  The maximum of an empty column is undefined and
    selects no row.  The quotient by a high of zero is not a finite float
    in the program; the statements that read [pct_change] assume a high
    that is not zero. *)
Definition check_stock_alert (cfg : Config) (env : Env) (sym : string)
  : outcome (option AlertResult) :=
  match get_stock_data cfg env sym with
  | None => Returned None
  | Some data =>
      match iloc_last (map Close data) with
      | None => Raised IndexError
      | Some current =>
          match series_max (map High data) with
          | None => Raised IndexError
          | Some high =>
              let threshold := Qabs (get (alert_threshold cfg) 0.05) in
              let rsi_value := compute_rsi (map Close data) 14 in
              let pct_change := (current - high) / high in
              let alert := Qle_bool pct_change (- threshold) in
              match iloc_last (rows_with_high high data) with
              | None => Raised IndexError
              | Some row =>
                  Returned (Some {|
                    symbol := sym;
                    current_price := round2 current;
                    recent_high := round2 high;
                    pct_from_high := round2 (pct_change * 100);
                    is_alert := alert;
                    date_of_high := Date row;
                    status := if alert then ALERT else OK;
                    rsi := rsi_value |})
              end
          end
      end
  end.

(* ------------------------------------------------------------------ *)
(** ** [PortfolioMonitor.send_email_alert] *)

Definition has_key {A : Type} (field : option A) : bool :=
  match field with Some _ => true | None => false end.

Definition record_notifier_call (alerts : list AlertResult) (st : State)
  : State :=
  mkState (config st) (monitoring st) (monitor_thread st)
          (last_scan_results st) (last_scan_time st) (config_dumps st)
          (threads_started st) (notifier_calls st ++ [alerts])
          (smtp_sessions st).

Definition record_smtp_session (m : Message) (st : State) : State :=
  mkState (config st) (monitoring st) (monitor_thread st)
          (last_scan_results st) (last_scan_time st) (config_dumps st)
          (threads_started st) (notifier_calls st)
          (smtp_sessions st ++ [m]).

(** The body after the call has been entered.  An exception of the SMTP
    session is caught and gives [False]. *)
Definition send_email_alert_body (env : Env) (alerts : list AlertResult)
  (st : State) : bool * State :=
  match email_settings (config st) with
  | None => (false, st)
  | Some email_config =>
      if negb (get (enabled email_config) false)
         || negb (has_key (sender_email email_config)
                  && has_key (sender_password email_config)
                  && has_key (recipient_email email_config))
      then (false, st)
      else
        let msg := {| msg_from := get (sender_email email_config) "";
                      msg_to := get (recipient_email email_config) "";
                      subject_count := List.length alerts;
                      body_alerts := alerts;
                      generated_at := now env |} in
        (smtp_session env msg, record_smtp_session msg st)
  end.

Definition send_email_alert (env : Env) (alerts : list AlertResult)
  (st : State) : bool * State :=
  send_email_alert_body env alerts (record_notifier_call alerts st).

(* ------------------------------------------------------------------ *)
(** ** [PortfolioMonitor.scan_portfolio] *)

(** The [for] loop over the configured symbols, with the two accumulators. *)
Fixpoint scan_loop (cfg : Config) (env : Env) (symbols : list string)
  (results alerts : list AlertResult)
  : outcome (list AlertResult * list AlertResult) :=
  match symbols with
  | [] => Returned (results, alerts)
  | sym :: rest =>
      match check_stock_alert cfg env sym with
      | Raised e => Raised e
      | Returned None => scan_loop cfg env rest results alerts
      | Returned (Some result) =>
          scan_loop cfg env rest (results ++ [result])
                    (if is_alert result then alerts ++ [result] else alerts)
      end
  end.

Definition publish_scan (results : list AlertResult) (t : Z) (st : State)
  : State :=
  mkState (config st) (monitoring st) (monitor_thread st) results (Some t)
          (config_dumps st) (threads_started st) (notifier_calls st)
          (smtp_sessions st).

Definition nonempty {A : Type} (l : list A) : bool :=
  match l with [] => false | _ :: _ => true end.

Definition email_enabled (cfg : Config) : bool :=
  match email_settings cfg with
  | None => false
  | Some email_config => get (enabled email_config) false
  end.

(** Returns [(alerts, results)] and the state after the call; when the loop
    raises, the state is the one before the call. *)
Definition scan_portfolio (env : Env) (st : State)
  : outcome (list AlertResult * list AlertResult) * State :=
  match scan_loop (config st) env (get (stocks (config st)) []) [] [] with
  | Raised e => (Raised e, st)
  | Returned (results, alerts) =>
      let st1 := publish_scan results (now env) st in
      let st2 := if nonempty alerts && email_enabled (config st)
                 then snd (send_email_alert env alerts st1)
                 else st1 in
      (Returned (alerts, results), st2)
  end.

(* ------------------------------------------------------------------ *)
(** ** [PortfolioMonitor.start_monitoring] and [stop_monitoring] *)

(** The new thread is named by the number of threads started before it. *)
Definition start_monitoring (st : State) : bool * State :=
  if monitoring st then (false, st)
  else
    (true,
     mkState (config st) true (Some (threads_started st))
             (last_scan_results st) (last_scan_time st) (config_dumps st)
             (S (threads_started st)) (notifier_calls st) (smtp_sessions st)).

(** The bounded [join] changes no field; whether the loop thread has
    ended when it returns is not recorded. *)
Definition stop_monitoring (st : State) : bool * State :=
  (true,
   mkState (config st) false (monitor_thread st)
           (last_scan_results st) (last_scan_time st) (config_dumps st)
           (threads_started st) (notifier_calls st) (smtp_sessions st)).

(** The scheduler of the specification: two states, [start] refused while
    running.  It is compared with the two functions above. *)
Inductive Scheduler := Stopped | Running.

Inductive Call := Start | Stop.

Definition scheduler_step (c : Call) (s : Scheduler) : bool * Scheduler :=
  match c, s with
  | Start, Stopped => (true, Running)
  | Start, Running => (false, Running)
  | Stop, _ => (true, Stopped)
  end.

Definition monitor_step (c : Call) (st : State) : bool * State :=
  match c with
  | Start => start_monitoring st
  | Stop => stop_monitoring st
  end.

(** A sequence of calls, with the value each one returns. *)
Fixpoint run {S : Type} (step : Call -> S -> bool * S) (calls : list Call)
  (s : S) : list bool * S :=
  match calls with
  | [] => ([], s)
  | c :: rest =>
      let (r, s1) := step c s in
      let (rs, s2) := run step rest s1 in
      (r :: rs, s2)
  end.

Definition scheduler_of (st : State) : Scheduler :=
  if monitoring st then Running else Stopped.

(* ------------------------------------------------------------------ *)
(** ** The form handlers *)

(** The message flashed by a handler. *)
Inductive Flash :=
| UpdatedPortfolio (count : nat)
| TickerRequired
| ThesisUpdated
| InvalidEntryIndex
| RemovedThesis (tick : string)
| ErrorDeletingThesis.

(** The list comprehension of [update_stocks]. *)
Definition parse_stocks (stocks_text : string) : list string :=
  map (fun s => upper (strip s))
      (filter (fun s => truthy (strip s))
              (split newline (replace_char comma newline stocks_text))).

(** The argument is the form field [stocks], [None] when it is absent. *)
Definition update_stocks (form_stocks : option string) (st : State)
  : Flash * State :=
  let stocks_text := get form_stocks "" in
  let l := parse_stocks stocks_text in
  (UpdatedPortfolio (List.length l),
   save_config (set_config (set_stocks l (config st)) st)).

Record ThesisForm := mkThesisForm {
  form_ticker : option string;
  form_thesis : option string;
  form_trigger : option string
}.

(** [0 <= index < len(entries)]. *)
Definition valid_index {A : Type} (index : Z) (entries : list A) : bool :=
  ((0 <=? index) && (index <? Z.of_nat (List.length entries)))%Z.

(** [l[n] = f(l[n])] for [n] in range. *)
Fixpoint update_at {A : Type} (n : nat) (f : A -> A) (l : list A) : list A :=
  match l, n with
  | [], _ => []
  | x :: t, O => f x :: t
  | x :: t, S n' => x :: update_at n' f t
  end.

(** [l.pop(n)] for [n] in range: the list that is left. *)
Definition pop_at {A : Type} (n : nat) (l : list A) : list A :=
  firstn n l ++ skipn (S n) l.

Definition update_thesis (index : Z) (form : ThesisForm) (st : State)
  : Flash * State :=
  let tick := upper (strip (get (form_ticker form) "")) in
  let thesis_text := strip (get (form_thesis form) "") in
  let trigger_text := strip (get (form_trigger form) "") in
  if negb (truthy tick) then (TickerRequired, st)
  else
    let entries := get (thesis_entries (config st)) [] in
    if valid_index index entries then
      let entries' :=
        update_at (Z.to_nat index)
                  (fun e => mkThesisEntry tick thesis_text trigger_text
                                          (created_at e))
                  entries in
      (ThesisUpdated,
       save_config (set_config (set_thesis_entries entries' (config st)) st))
    else (InvalidEntryIndex, st).

Definition delete_thesis (index : Z) (st : State) : Flash * State :=
  let entries := get (thesis_entries (config st)) [] in
  if valid_index index entries then
    match nth_error entries (Z.to_nat index) with
    | Some removed =>
        (RemovedThesis (ticker removed),
         save_config
           (set_config
              (set_thesis_entries (pop_at (Z.to_nat index) entries)
                                  (config st)) st))
    | None => (ErrorDeletingThesis, st)
    end
  else (InvalidEntryIndex, st).

(* ------------------------------------------------------------------ *)
(** ** Sample inputs *)

(** Fifteen rising closes: 1, 2, ..., 15. *)
Definition ramp15 : list Q :=
  map (fun n => inject_Z (Z.of_nat n)) (seq 1 15).

Definition zigzag15 : list Q :=
  [44; 45; 43; 46; 47; 45; 48; 49; 47; 50; 51; 49; 52; 53; 51].

Definition default_email : EmailSettings :=
  mkEmailSettings (Some false) (Some "smtp.gmail.com") (Some 587%Z)
                  (Some "") (Some "") (Some "").

(** The configuration [load_config] creates when there is no file. *)
Definition default_config : Config :=
  mkConfig (Some []) (Some 0.05) (Some 30%Z) (Some 30%Z) (Some "")
           (Some []) (Some default_email).

Definition initial_state (c : Config) : State :=
  mkState c false None [] None [] 0 [] [].

(** One day: high 100, close 95.001, that is 4.999 % below the high. *)
Definition dip_frame : DataFrame :=
  [mkRow "2024-03-01" 100 95.001].

(** High 100 on the third and on the seventh of ten days, last close 90. *)
Definition tie_frame : DataFrame :=
  [mkRow "2024-03-01" 96 95; mkRow "2024-03-04" 98 97;
   mkRow "2024-03-05" 100 99; mkRow "2024-03-06" 99 98;
   mkRow "2024-03-07" 98 97; mkRow "2024-03-08" 99 98;
   mkRow "2024-03-11" 100 99; mkRow "2024-03-12" 97 95;
   mkRow "2024-03-13" 94 92; mkRow "2024-03-14" 93 90].

(** A provider that knows AAA and DIP, has no rows for BBB and fails on
    every other symbol. *)
Definition sample_history (sym : string) (days : Z) : history_outcome :=
  if String.eqb sym "AAA" then HistoryFrame tie_frame
  else if String.eqb sym "DIP" then HistoryFrame dip_frame
  else if String.eqb sym "BBB" then HistoryFrame []
  else HistoryRaises.

(** The SMTP session of this environment always fails. *)
Definition sample_env : Env := mkEnv sample_history (fun _ => false) 1710432000.

Definition sample_entry : ThesisEntry :=
  mkThesisEntry "AAA" "cheap" "below 90" "2024-03-01 10:00:00".

Definition sample_form : ThesisForm :=
  mkThesisForm (Some " aaa ") (Some "still cheap") (Some "below 85").

(** Email enabled with all three keys, AAA configured. *)
Definition mail_config : Config :=
  mkConfig (Some ["AAA"]) (Some 0.05) (Some 30%Z) (Some 30%Z) (Some "")
           (Some [])
           (Some (mkEmailSettings (Some true) (Some "smtp.gmail.com")
                                  (Some 587%Z) (Some "me@example.org")
                                  (Some "secret") (Some "you@example.org"))).

(** A monitor whose configuration holds one thesis entry. *)
Definition sample_state : State :=
  initial_state (set_thesis_entries [sample_entry] default_config).

(** The entry of AAA in a scan of [sample_env]. *)
Definition tie_result : AlertResult :=
  mkAlertResult "AAA" (round2 90) (round2 100)
                (round2 ((90 - 100) / 100 * 100)) true "2024-03-11" ALERT
                None.

(* ------------------------------------------------------------------ *)
(** ** Vocabulary of the statements *)

(** The provider gave a non-empty frame for the symbol. *)
Definition fetched (cfg : Config) (env : Env) (sym : string) : bool :=
  has_key (get_stock_data cfg env sym).

(** The entry a symbol contributes to a scan: none or one. *)
Definition evaluated (cfg : Config) (env : Env) (sym : string)
  : list AlertResult :=
  match check_stock_alert cfg env sym with
  | Returned (Some r) => [r]
  | _ => []
  end.

(** The symbols stored in the configuration. *)
Definition stored_stocks (st : State) : list string :=
  get (stocks (config st)) [].

(** The thesis entries stored in the configuration. *)
Definition stored_theses (st : State) : list ThesisEntry :=
  get (thesis_entries (config st)) [].

(** A close series that never falls from one point to the next. *)
Fixpoint nondecreasing_from (prev : Q) (l : list Q) : Prop :=
  match l with
  | [] => True
  | x :: t => prev <= x /\ nondecreasing_from x t
  end.

Definition nondecreasing (l : list Q) : Prop :=
  match l with
  | [] => True
  | x :: t => nondecreasing_from x t
  end.

(** An entry that is undefined or zero. *)
Definition zero_or_undefined (o : option Q) : Prop :=
  forall x, o = Some x -> x == 0.

(** An entry that is undefined or not negative. *)
Definition nonneg_or_undefined (o : option Q) : Prop :=
  forall x, o = Some x -> 0 <= x.

(** The last [period] entries of [close_series.diff()]: the window of the
    last rolling mean. *)
Definition last_diffs (close_series : list Q) (period : nat) : series :=
  skipn (List.length close_series - period) (diff close_series).


Definition has_rise (close_series : list Q) (period : nat) : Prop :=
  exists d, In (Some d) (last_diffs close_series period) /\ 0 < d.


(** Fifteen falling closes: 15, 14, ..., 1. *)
Definition slide15 : list Q :=
  map (fun n => inject_Z (Z.of_nat (16 - n))) (seq 1 15).

(* ------------------------------------------------------------------ *)
(** ** [api_status] *)

(** The JSON object of [/api/status]; the time is the one [isoformat]
    prints. *)
Record StatusReport := mkStatusReport {
  status_monitoring : bool;
  status_last_scan_time : option Z;
  stock_count : nat;
  alert_count : nat
}.

Definition api_status (st : State) : StatusReport :=
  {| status_monitoring := monitoring st;
     status_last_scan_time := last_scan_time st;
     stock_count := List.length (get (stocks (config st)) []);
     alert_count := List.length (filter is_alert (last_scan_results st)) |}.

(** The sample environment with an SMTP session that succeeds. *)
Definition delivering_env : Env :=
  mkEnv sample_history (fun _ => true) 1710432000.

(* ------------------------------------------------------------------ *)
(** ** [add_thesis] and [thesis_page] *)

(** The message flashed by [add_thesis]. *)
Inductive AddThesisFlash := TickerIsRequired | ThesisSaved.

(** [stamp] is the clock reading as [strftime('%Y-%m-%d %H:%M:%S')] prints
    it. *)
Definition add_thesis (stamp : string) (form : ThesisForm) (st : State)
  : AddThesisFlash * State :=
  let tick := upper (strip (get (form_ticker form) "")) in
  let thesis_text := strip (get (form_thesis form) "") in
  let trigger_text := strip (get (form_trigger form) "") in
  if negb (truthy tick) then (TickerIsRequired, st)
  else
    let entry := mkThesisEntry tick thesis_text trigger_text stamp in
    let entries := get (thesis_entries (config st)) [] in
    (ThesisSaved,
     save_config
       (set_config (set_thesis_entries (entries ++ [entry]) (config st)) st)).

(** What [int(text)] makes of a query parameter. *)
Inductive int_text := NotAnInt | IntOf (z : Z).

(** The entries to list and the entry to edit, if any.  The argument is
    the query parameter [edit], [None] when it is absent; the [ValueError]
    of [int] is caught and selects nothing. *)
Definition thesis_page (edit_param : option int_text) (st : State)
  : list ThesisEntry * option (Z * ThesisEntry) :=
  let entries := get (thesis_entries (config st)) [] in
  (entries,
   match edit_param with
   | None => None
   | Some NotAnInt => None
   | Some (IntOf idx) =>
       if valid_index idx entries then
         match nth_error entries (Z.to_nat idx) with
         | Some entry => Some (idx, entry)
         | None => None
         end
       else None
   end).

(** The edit form as the page fills it from an entry. *)
Definition prefilled_form (e : ThesisEntry) : ThesisForm :=
  mkThesisForm (Some (ticker e)) (Some (thesis e)) (Some (trigger e)).

(** An entry as the handlers store it: ticker upper-case, trimmed and not
    empty, texts trimmed. *)
Definition normalized_entry (e : ThesisEntry) : Prop :=
  upper (ticker e) = ticker e /\ strip (ticker e) = ticker e /\
  ticker e <> "" /\
  strip (thesis e) = thesis e /\ strip (trigger e) = trigger e.

(* ------------------------------------------------------------------ *)
(** ** The stock list on the configuration page *)

(** [config.stocks|join('\n')]: the text the page puts in the form. *)
Fixpoint join_lines (l : list string) : string :=
  match l with
  | [] => ""
  | [s] => s
  | s :: t => s ++ String newline (join_lines t)
  end.

(** The character does not occur in the string. *)
Fixpoint free_of (c : ascii) (s : string) : bool :=
  match s with
  | EmptyString => true
  | String x t => negb (Ascii.eqb x c) && free_of c t
  end.

(* ------------------------------------------------------------------ *)
(** ** [update_settings] *)

(** What lines 242 to 244 make of the threshold field.  [DecimalOf q]:
    the text is a finite decimal of value [q].  [NotADecimal]: [Decimal]
    raises on the text, or the text is an infinity or a signalling NaN, on
    which the division or [quantize] raises.  The text [NaN], which the
    program carries through to a float [nan], has no counterpart here. *)
Inductive decimal_text := NotADecimal | DecimalOf (q : Q).

(** [d.quantize(Decimal('0.0001'))]: four decimals, ties to even. *)
Definition quantize4 (x : Q) : Q :=
  inject_Z (round_half_even (x * 10000)) / 10000.

(** [quantize] raises [InvalidOperation] when the coefficient of its result
    has more digits than the precision of the context, which is 28. *)
Definition quantize_raises (x : Q) : bool :=
  (10 ^ 28 <=? Z.abs (round_half_even (x * 10000)))%Z.

(** The percentages on which the arithmetic of the handler is the exact
    one: a decimal of at most 28 digits, which the division by 100 does
    not round, and of absolute value at most 10^9, for which the quantized
    fraction has at most 15 digits, so that [quantize] does not raise and
    [float] gives the binary64 number that is written and read back as
    that decimal. *)
Definition plain_percent (p : Q) : Prop :=
  (exists c e : Z,
     (Z.abs c < 10 ^ 28)%Z /\ p == inject_Z c * Qpower 10 e) /\
  Qabs p <= 1000000000.

Record SettingsForm := mkSettingsForm {
  field_alert_threshold : option decimal_text;
  field_lookback_days : option int_text;
  field_scan_interval_minutes : option int_text;
  field_tradingview_url : option string;
  field_email_enabled : option string;
  field_sender_email : option string;
  field_sender_password : option string;
  field_recipient_email : option string;
  field_smtp_server : option string;
  field_smtp_port : option int_text
}.

Inductive SettingsFlash := SettingsUpdated | SettingsError.

Definition set_lookback_days (d : Z) (c : Config) : Config :=
  mkConfig (stocks c) (alert_threshold c) (Some d)
           (scan_interval_minutes c) (tradingview_url c) (thesis_entries c)
           (email_settings c).

Definition set_scan_interval_minutes (m : Z) (c : Config) : Config :=
  mkConfig (stocks c) (alert_threshold c) (lookback_days c)
           (Some m) (tradingview_url c) (thesis_entries c)
           (email_settings c).

Definition set_tradingview_url (u : string) (c : Config) : Config :=
  mkConfig (stocks c) (alert_threshold c) (lookback_days c)
           (scan_interval_minutes c) (Some u) (thesis_entries c)
           (email_settings c).

Definition set_email_settings (e : EmailSettings) (c : Config) : Config :=
  mkConfig (stocks c) (alert_threshold c) (lookback_days c)
           (scan_interval_minutes c) (tradingview_url c) (thesis_entries c)
           (Some e).

(** The empty dict [{}]. *)
Definition empty_email : EmailSettings :=
  mkEmailSettings None None None None None None.

(** The five assignments to [email_settings] that come before the port. *)
Definition fill_email (form : SettingsForm) (e : EmailSettings)
  : EmailSettings :=
  mkEmailSettings
    (Some (match field_email_enabled form with
           | Some text => String.eqb text "on"
           | None => false
           end))
    (Some (get (field_smtp_server form) "smtp.gmail.com"))
    (smtp_port e)
    (Some (get (field_sender_email form) ""))
    (Some (get (field_sender_password form) ""))
    (Some (get (field_recipient_email form) "")).

Definition set_smtp_port (p : Z) (e : EmailSettings) : EmailSettings :=
  mkEmailSettings (enabled e) (smtp_server e) (Some p) (sender_email e)
                  (sender_password e) (recipient_email e).

(** The assignments are made one after the other inside the [try]; a
    conversion that raises ends the handler with the assignments made so
    far and without [save_config].  The threshold is assigned after its
    conversion and its [quantize]: when one of them raises, nothing has
    been assigned.  The dict of the email settings is the
    one of the configuration when the key is there, so its keys change in
    place; it is a new dict when the key is absent. *)
Definition update_settings (form : SettingsForm) (st : State)
  : SettingsFlash * State :=
  match get (field_alert_threshold form) (DecimalOf 5) with
  | NotADecimal => (SettingsError, st)
  | DecimalOf alert_percent =>
    if quantize_raises (alert_percent / 100) then (SettingsError, st) else
    let c1 :=
      set_alert_threshold (quantize4 (alert_percent / 100)) (config st) in
    match get (field_lookback_days form) (IntOf 30) with
    | NotAnInt => (SettingsError, set_config c1 st)
    | IntOf days =>
      let c2 := set_lookback_days days c1 in
      match get (field_scan_interval_minutes form) (IntOf 30) with
      | NotAnInt => (SettingsError, set_config c2 st)
      | IntOf minutes =>
        let c3 := set_scan_interval_minutes minutes c2 in
        let c4 :=
          set_tradingview_url (strip (get (field_tradingview_url form) ""))
                              c3 in
        let filled := fill_email form (get (email_settings c4) empty_email) in
        match get (field_smtp_port form) (IntOf 587) with
        | NotAnInt =>
            (SettingsError,
             set_config
               (match email_settings c4 with
                | Some _ => set_email_settings filled c4
                | None => c4
                end) st)
        | IntOf port =>
            (SettingsUpdated,
             save_config
               (set_config
                  (set_email_settings (set_smtp_port port filled) c4) st))
        end
      end
    end
  end.

(** Every numeric field of the form converts. *)
Definition well_formed (form : SettingsForm) : Prop :=
  field_alert_threshold form <> Some NotADecimal /\
  field_lookback_days form <> Some NotAnInt /\
  field_scan_interval_minutes form <> Some NotAnInt /\
  field_smtp_port form <> Some NotAnInt.

(** The percentage the form asks for; 5 when the field is absent. *)
Definition asked_percent (form : SettingsForm) : Q :=
  match field_alert_threshold form with
  | Some (DecimalOf p) => p
  | _ => 5
  end.

Definition sample_settings : SettingsForm :=
  mkSettingsForm (Some (DecimalOf 5.049)) (Some (IntOf 60)) (Some (IntOf 15))
                 None (Some "on") (Some "me@example.org") (Some "secret")
                 (Some "you@example.org") None (Some (IntOf 465)).

(* ------------------------------------------------------------------ *)
(** ** [api_stock_prices] *)

(** The two histories the endpoint asks for: one day of minute data and
    thirty days of daily data. *)
Record PriceFeeds := mkPriceFeeds {
  intraday_history : string -> history_outcome;
  daily_history : string -> history_outcome
}.

(** The value stored for a symbol: one of the two error objects, or the
    price, the change in percent and the RSI. *)
Inductive PriceEntry :=
| NoDataAvailable
| ErrorFetchingPrice
| Quote (price : Q) (change : Q) (rsi_val : option Q).

(** [s.iloc[-2]]. *)
Fixpoint iloc_second_last {A : Type} (l : list A) : option A :=
  match l with
  | [] => None
  | [_] => None
  | [x; _] => Some x
  | _ :: t => iloc_second_last t
  end.

(** The change against the previous daily close, in percent; 0 when there
    are fewer than two daily rows or the previous close is 0.  [None]
    stands for the [IndexError] of [iloc[-2]]. *)
Definition change_pct (current : Q) (daily : DataFrame) : option Q :=
  if (2 <=? List.length daily)%nat then
    match iloc_second_last (map Close daily) with
    | Some prev_close =>
        Some (if Qeq_bool prev_close 0 then 0
              else round2 ((current / prev_close - 1) * 100))
    | None => None
    end
  else Some 0.

(** The body of the loop for one symbol; every exception is caught and
    gives the error object. *)
Definition price_entry (feeds : PriceFeeds) (sym : string) : PriceEntry :=
  match intraday_history feeds sym with
  | HistoryRaises => ErrorFetchingPrice
  | HistoryFrame intraday =>
    match daily_history feeds sym with
    | HistoryRaises => ErrorFetchingPrice
    | HistoryFrame daily =>
      if negb (nonempty intraday) && negb (nonempty daily)
      then NoDataAvailable
      else
        match (if nonempty intraday
               then iloc_last (map Close intraday)
               else iloc_last (map Close daily)) with
        | None => ErrorFetchingPrice
        | Some current =>
            match change_pct current daily with
            | None => ErrorFetchingPrice
            | Some change =>
                Quote (round2 current) change
                      (if nonempty daily
                       then compute_rsi (map Close daily) 14
                       else None)
            end
        end
    end
  end.

(** [d[key] = value] on a dict kept in insertion order. *)
Fixpoint dict_set {V : Type} (key : string) (value : V)
  (d : list (string * V)) : list (string * V) :=
  match d with
  | [] => [(key, value)]
  | (k, v) :: rest =>
      if String.eqb k key then (k, value) :: rest
      else (k, v) :: dict_set key value rest
  end.

(** [d.get(key)]. *)
Fixpoint dict_get {V : Type} (key : string) (d : list (string * V))
  : option V :=
  match d with
  | [] => None
  | (k, v) :: rest => if String.eqb k key then Some v else dict_get key rest
  end.

Inductive PricesResponse :=
| NoStocksConfigured
| Prices (prices : list (string * PriceEntry)).

Definition api_stock_prices (feeds : PriceFeeds) (st : State)
  : PricesResponse :=
  match get (stocks (config st)) [] with
  | [] => NoStocksConfigured
  | symbols =>
      Prices (fold_left (fun prices sym =>
                           dict_set sym (price_entry feeds sym) prices)
                        symbols [])
  end.

(** Feeds in which AAA has daily rows only, BBB has nothing and every
    other symbol fails. *)
Definition sample_feeds : PriceFeeds :=
  mkPriceFeeds
    (fun sym => if String.eqb sym "AAA" || String.eqb sym "BBB"
                then HistoryFrame [] else HistoryRaises)
    (fun sym => if String.eqb sym "AAA" then HistoryFrame tie_frame
                else if String.eqb sym "BBB" then HistoryFrame []
                else HistoryRaises).

(* ------------------------------------------------------------------ *)
(** The form with another text in the threshold field. *)
Definition with_percent (p : Q) (form : SettingsForm) : SettingsForm :=
  mkSettingsForm (Some (DecimalOf p)) (field_lookback_days form)
                 (field_scan_interval_minutes form)
                 (field_tradingview_url form) (field_email_enabled form)
                 (field_sender_email form) (field_sender_password form)
                 (field_recipient_email form) (field_smtp_server form)
                 (field_smtp_port form).

(* ------------------------------------------------------------------ *)
(** ** The alert evaluator and the scan on binary64 prices *)

(** pandas hands the prices to [check_stock_alert] as [numpy.float64]
    values, [NaN] included, and the comparison that decides an alert is a
    comparison of such values.  This module states the evaluator and the
    scan of the program on the binary64 numbers of [PrimFloat], whose
    operations are those of IEEE 754 with rounding to nearest, ties to
    even.  A decimal literal below denotes the nearest binary64 number, as
    it does in Python. *)
Module F64.

Local Open Scope float_scope.

(** One row of the price history: the index label and the columns that are
    read.  A price that the provider does not know is [NaN]. *)
Record Row := mkRow { Date : string; High : float; Close : float }.

Definition DataFrame := list Row.

(** The dict returned by [check_stock_alert]. *)
Record AlertResult := mkAlertResult {
  symbol : string;
  current_price : float;
  recent_high : float;
  pct_from_high : float;
  is_alert : bool;
  date_of_high : string;
  status : Status;
  rsi : option float
}.

(** The keys of the configuration that a scan reads.  A threshold that the
    JSON file gives as an integer is converted by the comparison; it is
    the float of that integer here. *)
Record Config := mkConfig {
  stocks : option (list string);
  alert_threshold : option float;
  lookback_days : option Z;
  email_settings : option EmailSettings
}.

Inductive history_outcome :=
| HistoryRaises
| HistoryFrame (data : DataFrame).

(** The collaborators of one scan: the market-data provider, the rolling
    computation of pandas inside [compute_rsi] (lines 57 to 65, with the
    [except] that turns an exception into [None]), and the clock. *)
Record Env := mkEnv {
  history : string -> Z -> history_outcome;
  rolling_rsi : list float -> nat -> option float;
  now : Z
}.

(** The fields of the monitor that a scan reads and writes, and the calls
    of [send_email_alert] it makes. *)
Record State := mkState {
  config : Config;
  last_scan_results : list AlertResult;
  last_scan_time : option Z;
  notifier_calls : list (list AlertResult)
}.

Definition two52 : float := 4503599627370496.

(** C's [rint] in the default rounding mode: the nearest integer, ties to
    even, with the sign of the argument.  Below 2^52 in absolute value the
    sum with 2^52 has its last bit at the units, so the addition performs
    the rounding; from 2^52 on every binary64 number is an integer.  An
    infinity and [NaN] are returned as they are. *)
Definition rint (x : float) : float :=
  let a := abs x in
  if a <? two52 then
    let r := (a + two52) - two52 in
    if x <? 0 then - r else if x =? 0 then x else r
  else x.

(** [round(x, 2)] for a [numpy.float64]: numpy multiplies by [10 ** 2],
    rounds to an integer and divides. *)
Definition np_round2 (x : float) : float := rint (x * 100) / 100.

(** [s.max()] of pandas: the greatest of the values that are not [NaN],
    and [NaN] when there is none.  Among values that compare equal (the
    two zeros) the first one is kept. *)
Definition skipna_max (acc x : float) : float :=
  if is_nan x then acc
  else if is_nan acc then x
  else if acc <? x then x else acc.

Definition series_max (l : list float) : float := fold_left skipna_max l nan.

(** [data.loc[data['High'] == h]]: the rows whose high equals [h] as a
    float, in order.  No row equals [NaN]. *)
Definition rows_with_high (h : float) (data : DataFrame) : DataFrame :=
  filter (fun r => High r =? h) data.

Definition get_stock_data (cfg : Config) (env : Env) (sym : string)
  : option DataFrame :=
  match history env sym (get (lookback_days cfg) 30%Z) with
  | HistoryRaises => None
  | HistoryFrame [] => None
  | HistoryFrame data => Some data
  end.

(** The guard of [compute_rsi], then the rolling computation. *)
Definition compute_rsi (env : Env) (close_series : list float) (period : nat)
  : option float :=
  if (List.length close_series <? period + 1)%nat then None
  else rolling_rsi env close_series period.

(** The body has no [try]: [index[-1]] raises [IndexError] when no row is
    selected, which is the case when the maximum is [NaN].  The division
    by a high of zero raises nothing on [numpy.float64]: it gives an
    infinity or [NaN]. *)
Definition check_stock_alert (cfg : Config) (env : Env) (sym : string)
  : outcome (option AlertResult) :=
  match get_stock_data cfg env sym with
  | None => Returned None
  | Some data =>
      match iloc_last (map Close data) with
      | None => Raised IndexError
      | Some current =>
          let high := series_max (map High data) in
          let threshold := abs (get (alert_threshold cfg) 0.05) in
          let rsi_value := compute_rsi env (map Close data) 14 in
          let pct_change := (current - high) / high in
          let alert := pct_change <=? - threshold in
          match iloc_last (rows_with_high high data) with
          | None => Raised IndexError
          | Some row =>
              Returned (Some {|
                symbol := sym;
                current_price := np_round2 current;
                recent_high := np_round2 high;
                pct_from_high := np_round2 (pct_change * 100);
                is_alert := alert;
                date_of_high := Date row;
                status := if alert then ALERT else OK;
                rsi := rsi_value |})
          end
      end
  end.

(** The [for] loop of [scan_portfolio] with its two accumulators; the call
    of [check_stock_alert] is not guarded. *)
Fixpoint scan_loop (cfg : Config) (env : Env) (symbols : list string)
  (results alerts : list AlertResult)
  : outcome (list AlertResult * list AlertResult) :=
  match symbols with
  | [] => Returned (results, alerts)
  | sym :: rest =>
      match check_stock_alert cfg env sym with
      | Raised e => Raised e
      | Returned None => scan_loop cfg env rest results alerts
      | Returned (Some result) =>
          scan_loop cfg env rest (results ++ [result])
                    (if is_alert result then alerts ++ [result] else alerts)
      end
  end.

Definition publish_scan (results : list AlertResult) (t : Z) (st : State)
  : State :=
  mkState (config st) results (Some t) (notifier_calls st).

Definition email_enabled (cfg : Config) : bool :=
  match email_settings cfg with
  | None => false
  | Some email_config => get (enabled email_config) false
  end.

(** [send_email_alert] catches what its SMTP session raises and the scan
    drops its result: the call is recorded. *)
Definition send_email_alert (alerts : list AlertResult) (st : State)
  : State :=
  mkState (config st) (last_scan_results st) (last_scan_time st)
          (notifier_calls st ++ [alerts]).

(** Returns [(alerts, results)] and the state after the call; when the loop
    raises, nothing has been assigned and the state is the one before the
    call. *)
Definition scan_portfolio (env : Env) (st : State)
  : outcome (list AlertResult * list AlertResult) * State :=
  match scan_loop (config st) env (get (stocks (config st)) []) [] [] with
  | Raised e => (Raised e, st)
  | Returned (results, alerts) =>
      let st1 := publish_scan results (now env) st in
      let st2 := if nonempty alerts && email_enabled (config st)
                 then send_email_alert alerts st1
                 else st1 in
      (Returned (alerts, results), st2)
  end.

(** [round(x, 2)] for a Python float, which is what the price endpoint
    rounds ([float(...)] at lines 417 and 419, [round] at line 438): the
    decimal with two places that is nearest to the exact value of [x],
    ties to even, and then the binary64 number nearest to that decimal.
    The second step is the division of the IEEE specification applied to
    the integer of the decimal and to 100.  Zeros, infinities and [NaN]
    are returned as they are. *)
Definition py_round2 (x : float) : float :=
  match Prim2SF x with
  | S754_finite s m e =>
      let hundredths :=
        round_half_even (inject_Z (Zpos m) * Qpower 2 e * 100)%Q in
      match hundredths with
      | Zpos k =>
          SF2Prim (SFdiv prec emax (S754_finite s k 0)
                         (S754_finite false 100 0))
      | _ => if s then (- 0) else 0
      end
  | _ => x
  end.

(** *** Sample inputs *)

Definition default_config : Config :=
  mkConfig (Some []) (Some 0.05) (Some 30%Z) (Some default_email).

(** One day, 0.001 above the level of five percent below its high. *)
Definition dip_frame : DataFrame := [mkRow "2024-03-01" 100 95.001].

(** One day at a decimal drop of exactly five percent. *)
Definition edge_frame : DataFrame := [mkRow "2024-03-01" 12 11.4].

(** One day whose high the provider does not know. *)
Definition blank_frame : DataFrame := [mkRow "2024-03-01" nan 101.5].

(** A high of zero under a negative close. *)
Definition zero_frame : DataFrame := [mkRow "2024-03-01" 0 (-3)].

(** A close whose third decimal is a five. *)
Definition half_cent_frame : DataFrame := [mkRow "2024-03-01" 16.2 16.055].

Definition sample_history (sym : string) (days : Z) : history_outcome :=
  if String.eqb sym "AAA" then HistoryFrame dip_frame
  else if String.eqb sym "BBB" then HistoryFrame blank_frame
  else if String.eqb sym "CCC" then HistoryFrame edge_frame
  else if String.eqb sym "DDD" then HistoryFrame zero_frame
  else if String.eqb sym "EEE" then HistoryFrame []
  else if String.eqb sym "FFF" then HistoryFrame half_cent_frame
  else HistoryRaises.

Definition sample_env : Env :=
  mkEnv sample_history (fun _ _ => None) 1710432000.

Definition watching (symbols : list string) : State :=
  mkState (mkConfig (Some symbols) (Some 0.05) (Some 30%Z)
                    (Some default_email))
          [] None [].

(** *** Vocabulary of the statements *)

(** Every high of the frame is [NaN]. *)
Definition no_high (data : DataFrame) : bool :=
  forallb (fun r => is_nan (High r)) data.

(** The symbol has a frame on which [check_stock_alert] cannot name the
    day of the high. *)
Definition unpriced (cfg : Config) (env : Env) (sym : string) : bool :=
  match get_stock_data cfg env sym with
  | Some data => no_high data
  | None => false
  end.

(** The entries a symbol contributes to the results. *)
Definition evaluated (cfg : Config) (env : Env) (sym : string)
  : list AlertResult :=
  match check_stock_alert cfg env sym with
  | Returned (Some r) => [r]
  | _ => []
  end.

End F64.

(* ------------------------------------------------------------------ *)
(** ** The loop threads: [_monitor_loop] under [start_monitoring] and
       [stop_monitoring] *)

(** A thread that runs [_monitor_loop] and has not returned from it: its
    number, and the time in seconds at which its sleep ends, which is when
    it tests [self.monitoring] next.  A thread that has just been started
    tests at once. *)
Record LoopThread := mkLoopThread { thread_id : nat; wakes_at : Z }.

(** The monitor, the clock, the loop threads that are alive and the scans
    the loops have made (thread and time).  What a scan does to the
    snapshot is left out here: it changes neither the flag nor the
    thread. *)
Record World := mkWorld {
  monitor : State;
  clock : Z;
  live_loops : list LoopThread;
  loop_scans : list (nat * Z)
}.

(** The sleep that ends one pass of the loop.  An exception in the [try]
    is followed by [time.sleep(60)]: that of a scan that raises, and that
    of [time.sleep(interval)] itself, which refuses a negative length and a
    length above the longest sleep of the platform. *)
Definition loop_pause (sleep_max : Z) (scan_raises : bool) (cfg : Config)
  : Z :=
  if scan_raises then 60%Z
  else
    let interval := (get (scan_interval_minutes cfg) 30 * 60)%Z in
    if (interval <? 0)%Z || (sleep_max <? interval)%Z then 60%Z
    else interval.

Definition find_loop (tid : nat) (loops : list LoopThread)
  : option LoopThread :=
  find (fun t => Nat.eqb (thread_id t) tid) loops.

Definition remove_loop (tid : nat) (loops : list LoopThread)
  : list LoopThread :=
  filter (fun t => negb (Nat.eqb (thread_id t) tid)) loops.

(** [start_monitoring] by a request thread; when it starts a thread, the
    thread is alive from now on. *)
Definition call_start (w : World) : bool * World :=
  let (started, st) := start_monitoring (monitor w) in
  (started,
   mkWorld st (clock w)
           (if started
            then live_loops w
                 ++ [mkLoopThread (threads_started (monitor w)) (clock w)]
            else live_loops w)
           (loop_scans w)).

(** [stop_monitoring] by a request thread: the flag is cleared, then
    [join(timeout=1)] waits for the thread in [monitor_thread].  A thread
    that has returned is joined at once.  A thread whose sleep ends within
    the second wakes, reads the cleared flag and returns, and the join
    ends then.  Otherwise the join gives up after one second and the
    thread is still alive, asleep. *)
Definition call_stop (w : World) : bool * World :=
  let (stopped, st) := stop_monitoring (monitor w) in
  match monitor_thread st with
  | None => (stopped, mkWorld st (clock w) (live_loops w) (loop_scans w))
  | Some tid =>
      match find_loop tid (live_loops w) with
      | None => (stopped, mkWorld st (clock w) (live_loops w) (loop_scans w))
      | Some t =>
          if (wakes_at t <=? clock w + 1)%Z
          then (stopped,
                mkWorld st (Z.max (clock w) (wakes_at t))
                        (remove_loop tid (live_loops w)) (loop_scans w))
          else (stopped,
                mkWorld st (clock w + 1) (live_loops w) (loop_scans w))
      end
  end.

(** One turn of [while self.monitoring:] by a loop thread whose sleep is
    over.  With the flag cleared the thread returns.  With the flag set it
    scans and sleeps again.  [None]: the thread is not alive, or still
    asleep. *)
Definition loop_turn (sleep_max : Z) (tid : nat) (scan_raises : bool)
  (w : World) : option World :=
  match find_loop tid (live_loops w) with
  | None => None
  | Some t =>
      if (wakes_at t <=? clock w)%Z then
        if monitoring (monitor w) then
          Some (mkWorld (monitor w) (clock w)
                  (map (fun u =>
                          if Nat.eqb (thread_id u) tid
                          then mkLoopThread tid
                                 (clock w + loop_pause sleep_max scan_raises
                                              (config (monitor w)))
                          else u)
                       (live_loops w))
                  (loop_scans w ++ [(tid, clock w)]))
        else
          Some (mkWorld (monitor w) (clock w)
                        (remove_loop tid (live_loops w)) (loop_scans w))
      else None
  end.

(** What happens, in the order in which it happens: the two calls, the
    turns of the loop threads (with whether the scan of the turn raises)
    and the passing of time. *)
Inductive Event :=
| CallStart
| CallStop
| LoopTurn (tid : nat) (scan_raises : bool)
| Elapse (seconds : Z).

(** The values returned by the calls, and the world after the events;
    [None] when an event cannot happen where it stands. *)
Fixpoint happen (sleep_max : Z) (events : list Event) (w : World)
  : option (list bool * World) :=
  match events with
  | [] => Some ([], w)
  | CallStart :: rest =>
      let (r, w1) := call_start w in
      option_map (fun p => (r :: fst p, snd p)) (happen sleep_max rest w1)
  | CallStop :: rest =>
      let (r, w1) := call_stop w in
      option_map (fun p => (r :: fst p, snd p)) (happen sleep_max rest w1)
  | LoopTurn tid scan_raises :: rest =>
      match loop_turn sleep_max tid scan_raises w with
      | Some w1 => happen sleep_max rest w1
      | None => None
      end
  | Elapse seconds :: rest =>
      if (0 <=? seconds)%Z
      then happen sleep_max rest
             (mkWorld (monitor w) (clock w + seconds) (live_loops w)
                      (loop_scans w))
      else None
  end.

(** A process that has just loaded the default configuration. *)
Definition fresh_world : World :=
  mkWorld (initial_state default_config) 0 [] [].

(** The longest sleep of a platform whose clock counts nanoseconds in 64
    bits. *)
Definition sleep_max_64 : Z := 9223372036.

(** The loop threads that are alive. *)
Definition active_loops (w : World) : list nat :=
  map thread_id (live_loops w).

(** The calls start, stop, start, the first two ten seconds apart, with
    the interval of the default configuration (30 minutes). *)
Definition stop_within_the_sleep : list Event :=
  [CallStart; LoopTurn 0 false; Elapse 10; CallStop].

Definition restart_within_the_sleep : list Event :=
  stop_within_the_sleep
  ++ [CallStart; LoopTurn 1 false; Elapse 1800;
      LoopTurn 0 false; LoopTurn 1 false].

(* ================================================================== *)
(** * Properties *)

(** ** Lists and Series *)

Lemma iloc_last_app {A : Type} (l : list A) (x : A) :
  iloc_last (l ++ [x]) = Some x.
Proof.
  induction l as [|a l IH]; simpl; [reflexivity|].
  destruct (l ++ [x]) eqn:E; [destruct l; discriminate|exact IH].
Qed.

Lemma iloc_last_cons {A : Type} (a b : A) (l : list A) :
  iloc_last (a :: b :: l) = iloc_last (b :: l).
Proof. reflexivity. Qed.

Lemma iloc_last_nonempty {A : Type} (l : list A) :
  l <> [] -> exists x, iloc_last l = Some x.
Proof.
  induction l as [|a l IH]; intros H; [congruence|].
  destruct l as [|b l]; [exists a; reflexivity|].
  rewrite iloc_last_cons. apply IH. discriminate.
Qed.

Lemma iloc_last_In {A : Type} (l : list A) (x : A) :
  iloc_last l = Some x -> In x l.
Proof.
  induction l as [|a l IH]; intros H; [discriminate|].
  destruct l as [|b l].
  - injection H as ->. left; reflexivity.
  - right. apply IH. exact H.
Qed.

Lemma iloc_last_map {A B : Type} (f : A -> B) (l : list A) :
  iloc_last (map f l) = option_map f (iloc_last l).
Proof.
  induction l as [|a l IH]; [reflexivity|].
  destruct l as [|b l]; [reflexivity|].
  cbn [map]. rewrite !iloc_last_cons. exact IH.
Qed.

Lemma iloc_last_zip_with {A B C : Type} (f : A -> B -> C) :
  forall (l : list A) (m : list B),
    List.length l = List.length m ->
    iloc_last (zip_with f l m) =
    match iloc_last l, iloc_last m with
    | Some x, Some y => Some (f x y)
    | _, _ => None
    end.
Proof.
  induction l as [|a l IH]; intros [|b m] Hlen; try discriminate.
  - reflexivity.
  - destruct l as [|a' l], m as [|b' m]; try discriminate.
    + reflexivity.
    + cbn [zip_with]. rewrite !iloc_last_cons.
      apply (IH (b' :: m)). simpl in *. lia.
Qed.

Lemma diff_from_length (l : list Q) (p : Q) :
  List.length (diff_from p l) = List.length l.
Proof. revert p; induction l; intros; simpl; auto. Qed.

Lemma diff_length (l : list Q) : List.length (diff l) = List.length l.
Proof. destruct l; simpl; [reflexivity|]. now rewrite diff_from_length. Qed.

Lemma rolling_mean_length (w minp : nat) (s : series) :
  List.length (rolling_mean w minp s) = List.length s.
Proof. unfold rolling_mean. now rewrite length_map, length_seq. Qed.

Lemma avg_gain_length (l : list Q) (p : nat) :
  List.length (avg_gain l p) = List.length l.
Proof.
  unfold avg_gain, gains, clip_lower.
  now rewrite rolling_mean_length, length_map, diff_length.
Qed.

Lemma avg_loss_length (l : list Q) (p : nat) :
  List.length (avg_loss l p) = List.length l.
Proof.
  unfold avg_loss, losses, neg, clip_upper.
  now rewrite rolling_mean_length, !length_map, diff_length.
Qed.

(** The last relative strength is undefined as soon as the last average
    loss is zero. *)
Lemma rs_last_undefined (closes : list Q) (period : nat) (z : Q) :
  iloc_last (avg_loss closes period) = Some (Some z) ->
  z == 0 ->
  iloc_last (rs closes period) = Some None \/
  iloc_last (rs closes period) = None.
Proof.
  intros Hlast Hz. unfold rs, series_div.
  rewrite iloc_last_zip_with.
  - unfold replace_zero_NA. rewrite iloc_last_map, Hlast. simpl.
    apply Qeq_bool_iff in Hz. rewrite Hz.
    destruct (iloc_last (avg_gain closes period)) as [[g|]|]; auto.
  - unfold replace_zero_NA.
    now rewrite length_map, avg_gain_length, avg_loss_length.
Qed.

(** ** The alert evaluator *)

Lemma fold_left_Qmax_In (t : list Q) (x : Q) :
  In (fold_left Qmax t x) (x :: t).
Proof.
  revert x; induction t as [|y t IH]; intros x; simpl; [auto|].
  destruct (IH (Qmax x y)) as [H|H]; [|right; right; exact H].
  rewrite <- H. unfold Qmax, GenericMinMax.gmax.
  destruct (x ?= y); [left|right; left|left]; reflexivity.
Qed.

Lemma Qmax_ub_l (x y : Q) : x <= Qmax x y.
Proof. apply Q.le_max_l. Qed.

Lemma Qmax_ub_r (x y : Q) : y <= Qmax x y.
Proof. apply Q.le_max_r. Qed.

Lemma fold_left_Qmax_ge_init (t : list Q) (x : Q) : x <= fold_left Qmax t x.
Proof.
  revert x; induction t as [|y t IH]; intros x; simpl; [apply Qle_refl|].
  eapply Qle_trans; [apply Qmax_ub_l|apply IH].
Qed.

Lemma fold_left_Qmax_ub (t : list Q) (x y : Q) :
  In y (x :: t) -> y <= fold_left Qmax t x.
Proof.
  revert x; induction t as [|z t IH]; intros x [H|H]; simpl.
  - subst. apply Qle_refl.
  - destruct H.
  - subst. eapply Qle_trans; [apply Qmax_ub_l|apply fold_left_Qmax_ge_init].
  - destruct H as [H|H].
    + subst. eapply Qle_trans; [apply Qmax_ub_r|apply fold_left_Qmax_ge_init].
    + apply IH. right. exact H.
Qed.

Lemma series_max_In (l : list Q) (h : Q) : series_max l = Some h -> In h l.
Proof.
  destruct l as [|x t]; simpl; [discriminate|].
  intros H; injection H as <-. apply fold_left_Qmax_In.
Qed.

Lemma series_max_ub (l : list Q) (h y : Q) :
  series_max l = Some h -> In y l -> y <= h.
Proof.
  destruct l as [|x t]; simpl; [discriminate|].
  intros H; injection H as <-. apply fold_left_Qmax_ub.
Qed.

Lemma get_stock_data_nonempty cfg env sym data :
  get_stock_data cfg env sym = Some data -> data <> [].
Proof.
  unfold get_stock_data.
  destruct (history env sym _) as [|[|r d]]; try discriminate.
  intros H; injection H as <-. discriminate.
Qed.

(** When [get_stock_data] returns a frame, the three places of
    [check_stock_alert] that could raise do not, and the dict is built from
    the last close, the maximum high and the last row that attains it. *)
Lemma check_stock_alert_returns cfg env sym data :
  get_stock_data cfg env sym = Some data ->
  exists current high row,
    iloc_last (map Close data) = Some current /\
    series_max (map High data) = Some high /\
    iloc_last (rows_with_high high data) = Some row /\
    check_stock_alert cfg env sym =
    Returned (Some
      (let pct_change := (current - high) / high in
       let alert :=
         Qle_bool pct_change (- Qabs (get (alert_threshold cfg) 0.05)) in
       mkAlertResult sym (round2 current) (round2 high)
                     (round2 (pct_change * 100)) alert (Date row)
                     (if alert then ALERT else OK)
                     (compute_rsi (map Close data) 14))).
Proof.
  intros Hdata. pose proof (get_stock_data_nonempty _ _ _ _ Hdata) as Hne.
  destruct (iloc_last_nonempty (map Close data)) as [current Hc].
  { destruct data; [congruence|discriminate]. }
  destruct (series_max (map High data)) as [high|] eqn:Hh.
  2:{ destruct data; [congruence|discriminate]. }
  destruct (iloc_last_nonempty (rows_with_high high data)) as [row Hr].
  { pose proof (series_max_In _ _ Hh) as Hin.
    apply in_map_iff in Hin. destruct Hin as [r [Hr Hin]].
    intros Hempty.
    assert (Hf : In r (rows_with_high high data)).
    { apply filter_In. split; [exact Hin|].
      rewrite Hr. apply Qeq_bool_iff. reflexivity. }
    rewrite Hempty in Hf. destruct Hf. }
  exists current, high, row. repeat split; try assumption.
  unfold check_stock_alert. rewrite Hdata, Hc, Hh, Hr. reflexivity.
Qed.

(** Names the last close, the maximum high, the selected row and the dict
    of a fetched frame. *)
Ltac evaluate_frame Hdata current high row Hc Hh Hr Heq :=
  destruct (check_stock_alert_returns _ _ _ _ Hdata)
    as [current [high [row [Hc [Hh [Hr Heq]]]]]].

(** The last row kept by a filter: every later row is rejected. *)
Lemma iloc_last_filter {A : Type} (p : A -> bool) (l : list A) (x : A) :
  iloc_last (filter p l) = Some x ->
  exists i, nth_error l i = Some x /\ p x = true /\
            forall j y, (i < j)%nat -> nth_error l j = Some y -> p y = false.
Proof.
  induction l as [|a l IH]; simpl; [discriminate|].
  destruct (p a) eqn:Ha.
  - destruct (filter p l) as [|b m] eqn:Hf.
    + intros H; injection H as <-. exists 0%nat. repeat split; auto.
      intros [|j] y Hj Hy; [lia|]. simpl in Hy.
      destruct (p y) eqn:Hpy; [|reflexivity].
      assert (Hin : In y (filter p l)).
      { apply filter_In. split; [eapply nth_error_In; eauto|exact Hpy]. }
      rewrite Hf in Hin. destruct Hin.
    + rewrite iloc_last_cons. intros H.
      destruct (IH H) as [i [Hi [Hp Hlater]]].
      exists (S i). repeat split; auto.
      intros [|j] y Hj Hy; [lia|]. simpl in Hy.
      apply (Hlater j); [lia|exact Hy].
  - intros H. destruct (IH H) as [i [Hi [Hp Hlater]]].
    exists (S i). repeat split; auto.
    intros [|j] y Hj Hy; [lia|]. simpl in Hy.
    apply (Hlater j); [lia|exact Hy].
Qed.

(** ** The RSI

    A series with a fall in its window has an RSI. *)
Example compute_rsi_zigzag :
  exists v, compute_rsi zigzag15 14 = Some v /\ v == 62.96.
Proof. eexists. split; [vm_compute; reflexivity|reflexivity]. Qed.



(** C2, as the code has it.  For a close series of at least
    [period + 1] points whose last trailing-window average loss is exactly
    zero, [compute_rsi] raises nothing and returns [None]: the zero is
    replaced by the undefined value before the division, so the relative
    strength and the RSI are undefined. *)
Theorem compute_rsi_zero_avg_loss_absent (closes : list Q) (period : nat)
  (z : Q)
  (Hlen : (period + 1 <= List.length closes)%nat)
  (Hlast : iloc_last (avg_loss closes period) = Some (Some z))
  (Hzero : z == 0) :
  compute_rsi closes period = None.
Proof.
  unfold compute_rsi.
  destruct (List.length closes <? period + 1)%nat; [reflexivity|].
  unfold rsi_series. rewrite iloc_last_map.
  destruct (rs_last_undefined closes period z Hlast Hzero) as [H|H];
    rewrite H; reflexivity.
Qed.

Lemma compute_rsi_zero_avg_loss_absent_witness :
  (14 + 1 <= List.length ramp15)%nat /\
  iloc_last (avg_loss ramp15 14) = Some (Some (0 # 14)) /\
  0 # 14 == 0 /\
  compute_rsi ramp15 14 = None.
Proof.
  assert (Hlen : (14 + 1 <= List.length ramp15)%nat) by (vm_compute; lia).
  assert (Hlast : iloc_last (avg_loss ramp15 14) = Some (Some (0 # 14)))
    by (vm_compute; reflexivity).
  assert (Hzero : 0 # 14 == 0) by reflexivity.
  split; [exact Hlen|]. split; [exact Hlast|]. split; [exact Hzero|].
  exact (compute_rsi_zero_avg_loss_absent ramp15 14 (0 # 14) Hlen Hlast Hzero).
Defined.

(** *** Series that never fall *)

Lemma losses_from_nondecreasing (l : list Q) :
  forall prev,
    nondecreasing_from prev l ->
    Forall zero_or_undefined (neg (clip_upper 0 (diff_from prev l))).
Proof.
  induction l as [|x t IH]; intros prev H; simpl; [constructor|].
  destruct H as [Hle Ht]. constructor; [|apply IH, Ht].
  intros y Hy. injection Hy as <-.
  destruct (Qle_bool (x - prev) 0) eqn:Hb.
  - apply Qle_bool_iff in Hb.
    assert (H0 : 0 <= x - prev).
    { apply (Qplus_le_compat _ _ (- prev) (- prev)) in Hle; [|apply Qle_refl].
      assert (E : prev + - prev == 0) by ring. rewrite E in Hle. exact Hle. }
    assert (E : x - prev == 0) by (apply Qle_antisym; assumption).
    rewrite E. reflexivity.
  - reflexivity.
Qed.

Lemma losses_nondecreasing (l : list Q) :
  nondecreasing l -> Forall zero_or_undefined (losses l).
Proof.
  destruct l as [|x t]; intros H; [constructor|].
  unfold losses. simpl. constructor; [intros y Hy; discriminate|].
  now apply losses_from_nondecreasing.
Qed.

Lemma Forall_firstn {A : Type} (P : A -> Prop) (n : nat) (l : list A) :
  Forall P l -> Forall P (firstn n l).
Proof.
  revert l; induction n as [|n IH]; intros [|x l] H; simpl;
    try constructor; inversion H; subst; auto.
Qed.

Lemma Forall_skipn {A : Type} (P : A -> Prop) (n : nat) (l : list A) :
  Forall P l -> Forall P (skipn n l).
Proof.
  revert l; induction n as [|n IH]; intros [|x l] H; simpl; auto.
  inversion H; subst; auto.
Qed.

Lemma Qsum_observations_zero (win : series) :
  Forall zero_or_undefined win -> Qsum (observations win) == 0.
Proof.
  induction 1 as [|o win Ho _ IH]; simpl; [reflexivity|].
  destruct o as [x|]; [|exact IH]. simpl.
  rewrite IH, (Ho x eq_refl). reflexivity.
Qed.

Lemma window_mean_zero (minp : nat) (win : series) :
  Forall zero_or_undefined win -> zero_or_undefined (window_mean minp win).
Proof.
  intros H q. unfold window_mean.
  destruct ((minp <=? _)%nat && _); [|discriminate].
  intros Hq; injection Hq as <-.
  rewrite (Qsum_observations_zero _ H). reflexivity.
Qed.

Lemma rolling_mean_zero (w minp : nat) (s : series) :
  Forall zero_or_undefined s ->
  Forall zero_or_undefined (rolling_mean w minp s).
Proof.
  intros H. unfold rolling_mean. apply Forall_forall. intros o Ho.
  apply in_map_iff in Ho. destruct Ho as [i [<- _]].
  apply window_mean_zero. unfold window_at.
  now apply Forall_skipn, Forall_firstn.
Qed.

Lemma replace_zero_NA_undefined (s : series) :
  Forall zero_or_undefined s ->
  Forall (fun o => o = None) (replace_zero_NA s).
Proof.
  induction 1 as [|o s Ho _ IH]; simpl; constructor; [|exact IH].
  destruct o as [x|]; [|reflexivity].
  pose proof (Ho x eq_refl) as Hx. apply Qeq_bool_iff in Hx. now rewrite Hx.
Qed.

Lemma series_div_undefined (a b : series) :
  Forall (fun o => o = None) b ->
  Forall (fun o => o = None) (series_div a b).
Proof.
  intros H. revert a. induction H as [|o b Ho _ IH]; intros [|x a]; simpl;
    try constructor.
  - subst. destruct x; reflexivity.
  - apply IH.
Qed.

Lemma iloc_last_undefined (s : series) :
  Forall (fun o => o = None) s ->
  iloc_last s = None \/ iloc_last s = Some None.
Proof.
  intros H. destruct (iloc_last s) as [o|] eqn:E; [|auto].
  right. apply iloc_last_In in E.
  rewrite Forall_forall in H. now rewrite (H o E).
Qed.

(** On a close series that never falls, whatever its length and the
    period, [compute_rsi] returns [None]. *)
Lemma compute_rsi_nondecreasing_absent (closes : list Q) (period : nat) :
  nondecreasing closes -> compute_rsi closes period = None.
Proof.
  intros H. unfold compute_rsi.
  destruct (List.length closes <? period + 1)%nat; [reflexivity|].
  assert (Hrs : Forall (fun o => o = None) (rs closes period)).
  { unfold rs. apply series_div_undefined, replace_zero_NA_undefined.
    unfold avg_loss. now apply rolling_mean_zero, losses_nondecreasing. }
  unfold rsi_series. rewrite iloc_last_map.
  destruct (iloc_last_undefined _ Hrs) as [E|E]; rewrite E; reflexivity.
Qed.

(** C2, as the specification has it, fails: on the fifteen rising closes
    1, 2, ..., 15 the average loss over the last 14 differences is zero and
    [compute_rsi] returns [None], not 100. *)
Lemma compute_rsi_rising_series_not_100 :
  (14 + 1 <= List.length ramp15)%nat /\
  (exists z, iloc_last (avg_loss ramp15 14) = Some (Some z) /\ z == 0) /\
  compute_rsi ramp15 14 = None /\
  ~ (exists v, compute_rsi ramp15 14 = Some v /\ v == 100).
Proof.
  split; [vm_compute; lia|].
  split; [exists (0 # 14); split; [vm_compute; reflexivity|reflexivity]|].
  assert (H : compute_rsi ramp15 14 = None) by (vm_compute; reflexivity).
  split; [exact H|].
  intros [v [Hv _]]. rewrite H in Hv. discriminate.
Qed.

(** C4.  The reported [date_of_high] is the date of a row that carries the
    maximum high and after which every row has a strictly lower high: among
    several rows that attain the maximum it is the last one. *)
Theorem date_of_high_is_last_maximum cfg env sym data r
  (Hdata : get_stock_data cfg env sym = Some data)
  (Hres : check_stock_alert cfg env sym = Returned (Some r)) :
  exists i row,
    nth_error data i = Some row /\
    date_of_high r = Date row /\
    (forall j row', nth_error data j = Some row' -> High row' <= High row) /\
    (forall j row', (i < j)%nat -> nth_error data j = Some row' ->
                    High row' < High row).
Proof.
  evaluate_frame Hdata current high row Hc Hh Hr Heq.
  rewrite Heq in Hres. injection Hres as <-. cbn.
  destruct (iloc_last_filter _ _ _ Hr) as [i [Hi [Hp Hlater]]].
  apply Qeq_bool_iff in Hp.
  assert (Hub : forall j row', nth_error data j = Some row' ->
                               High row' <= High row).
  { intros j row' Hj. rewrite Hp.
    apply (series_max_ub _ _ _ Hh). apply in_map. eapply nth_error_In; eauto. }
  exists i, row. repeat split; auto.
  intros j row' Hij Hj.
  pose proof (Hlater j row' Hij Hj) as Hneq. cbv beta in Hneq.
  destruct (proj1 (Qle_lteq _ _) (Hub j row' Hj)) as [Hlt|Heq']; [exact Hlt|].
  exfalso. rewrite <- Hp in Hneq.
  apply Qeq_bool_iff in Heq'. congruence.
Qed.

Lemma date_of_high_is_last_maximum_witness :
  get_stock_data default_config sample_env "AAA" = Some tie_frame /\
  check_stock_alert default_config sample_env "AAA" =
    Returned (Some tie_result) /\
  exists i row,
    nth_error tie_frame i = Some row /\
    date_of_high tie_result = Date row /\
    (forall j row', nth_error tie_frame j = Some row' ->
                    High row' <= High row) /\
    (forall j row', (i < j)%nat -> nth_error tie_frame j = Some row' ->
                    High row' < High row).
Proof.
  split; [reflexivity|]. split; [reflexivity|].
  exact (date_of_high_is_last_maximum default_config sample_env "AAA"
           tie_frame tie_result eq_refl eq_refl).
Defined.

(** The maximum of the high column, characterised by its two properties. *)
(** ** Binary64 prices *)

(** *** The order of binary64 numbers *)

Ltac sf_cases :=
  repeat match goal with
  | H : context [Z.compare ?x ?y] |- _ =>
      destruct (Z.compare_spec x y); cbn in H
  | |- context [Z.compare ?x ?y] =>
      destruct (Z.compare_spec x y); cbn
  | H : context [Pos.compare_cont Eq ?x ?y] |- _ =>
      change (Pos.compare_cont Eq x y) with (Pos.compare x y) in H;
      destruct (Pos.compare_spec x y); cbn in H
  | |- context [Pos.compare_cont Eq ?x ?y] =>
      change (Pos.compare_cont Eq x y) with (Pos.compare x y);
      destruct (Pos.compare_spec x y); cbn
  end.

Ltac sf_order :=
  unfold SFleb, SFltb, SFeqb, SFcompare;
  repeat match goal with
  | x : spec_float |- _ => destruct x as [[|]|[|]| |[|] ? ?]
  end;
  cbn; intros; try discriminate; try reflexivity; try congruence;
  sf_cases; subst; try discriminate; try reflexivity; try congruence; try lia.

Lemma SFleb_trans (a b c : spec_float) :
  SFleb a b = true -> SFleb b c = true -> SFleb a c = true.
Proof. sf_order. Qed.

Lemma SFltb_false_leb (a b : spec_float) :
  SFeqb a a = true -> SFeqb b b = true ->
  SFltb a b = false -> SFleb b a = true.
Proof. sf_order. Qed.

Lemma SFeqb_leb (a b : spec_float) : SFeqb a b = true -> SFleb a b = true.
Proof. sf_order. Qed.

Lemma SFltb_leb (a b : spec_float) : SFltb a b = true -> SFleb a b = true.
Proof. sf_order. Qed.

Lemma SFleb_defined (a b : spec_float) :
  SFleb a b = true -> SFeqb a a = true /\ SFeqb b b = true.
Proof. sf_order; split; sf_order. Qed.

Lemma SFeqb_undefined (a b : spec_float) :
  SFeqb b b = false -> SFeqb a b = false.
Proof. sf_order. Qed.

Section Binary64Order.

Local Open Scope float_scope.

Lemma not_nan_eqb (x : float) : is_nan x = false <-> (x =? x) = true.
Proof. unfold is_nan. destruct (x =? x); cbn; split; congruence. Qed.

Lemma leb_trans (x y z : float) :
  (x <=? y) = true -> (y <=? z) = true -> (x <=? z) = true.
Proof. rewrite !FloatAxioms.leb_spec. apply SFleb_trans. Qed.

Lemma ltb_false_leb (x y : float) :
  is_nan x = false -> is_nan y = false ->
  (x <? y) = false -> (y <=? x) = true.
Proof.
  intros Hx Hy. apply not_nan_eqb in Hx, Hy. revert Hx Hy.
  rewrite !FloatAxioms.eqb_spec, FloatAxioms.ltb_spec, FloatAxioms.leb_spec. apply SFltb_false_leb.
Qed.

Lemma eqb_leb (x y : float) : (x =? y) = true -> (x <=? y) = true.
Proof. rewrite FloatAxioms.eqb_spec, FloatAxioms.leb_spec. apply SFeqb_leb. Qed.

Lemma ltb_leb (x y : float) : (x <? y) = true -> (x <=? y) = true.
Proof. rewrite FloatAxioms.ltb_spec, FloatAxioms.leb_spec. apply SFltb_leb. Qed.

Lemma leb_not_nan (x y : float) :
  (x <=? y) = true -> is_nan x = false /\ is_nan y = false.
Proof.
  intros H. rewrite FloatAxioms.leb_spec in H. apply SFleb_defined in H as [Hx Hy].
  rewrite <- FloatAxioms.eqb_spec in Hx, Hy. split; now apply not_nan_eqb.
Qed.

Lemma eqb_nan_r (x h : float) : is_nan h = true -> (x =? h) = false.
Proof.
  unfold is_nan. intros H. apply negb_true_iff in H. revert H.
  rewrite !FloatAxioms.eqb_spec. apply SFeqb_undefined.
Qed.

End Binary64Order.

(** *** The maximum of a column *)

Section Binary64Max.

Local Open Scope float_scope.

Lemma fold_skipna_max_all_nan (l : list float) (acc : float) :
  forallb is_nan l = true -> fold_left F64.skipna_max l acc = acc.
Proof.
  revert acc. induction l as [|x l IH]; intros acc H; [reflexivity|].
  cbn in H. apply andb_true_iff in H as [Hx Hl].
  cbn [fold_left]. unfold F64.skipna_max at 2. rewrite Hx. now apply IH.
Qed.

Lemma fold_skipna_max_spec (l : list float) :
  forall acc,
    let m := fold_left F64.skipna_max l acc in
    (is_nan m = true -> is_nan acc = true /\ forallb is_nan l = true) /\
    (is_nan m = false ->
     (m = acc \/ In m l) /\
     (is_nan acc = false -> (acc <=? m) = true) /\
     (forall x, In x l -> is_nan x = false -> (x <=? m) = true)).
Proof.
  induction l as [|x l IH]; intros acc; cbn zeta.
  - cbn. split; [intros H; now split|]. intros H. split; [now left|].
    split; [|intros x []].
    intros _. apply eqb_leb. now apply not_nan_eqb.
  - cbn [fold_left]. specialize (IH (F64.skipna_max acc x)). cbn zeta in IH.
    destruct IH as [IH1 IH2].
    set (m := fold_left F64.skipna_max l (F64.skipna_max acc x)) in *.
    unfold F64.skipna_max in IH1, IH2.
    destruct (is_nan x) eqn:Hx.
    + split.
      * intros Hm. destruct (IH1 Hm) as [Ha Hl]. split; [exact Ha|].
        cbn. now rewrite Hx, Hl.
      * intros Hm. destruct (IH2 Hm) as [Hin [Hacc Hub]].
        split; [destruct Hin; [now left|right; now right]|].
        split; [exact Hacc|].
        intros y [<-|Hy] Hy'; [congruence|now apply Hub].
    + destruct (is_nan acc) eqn:Ha.
      * split.
        { intros Hm. destruct (IH1 Hm) as [Hx' _]. congruence. }
        intros Hm. destruct (IH2 Hm) as [Hin [Hacc Hub]].
        split; [right; destruct Hin as [->|Hin]; [now left|now right]|].
        split; [discriminate|].
        intros y [<-|Hy] Hy'; [now apply Hacc|now apply Hub].
      * destruct (acc <? x) eqn:Hlt.
        { split.
          { intros Hm. destruct (IH1 Hm) as [Hx' _]. congruence. }
          intros Hm. destruct (IH2 Hm) as [Hin [Hacc Hub]].
          split; [right; destruct Hin as [->|Hin]; [now left|now right]|].
          split.
          - intros _. apply (leb_trans _ x); [now apply ltb_leb|now apply Hacc].
          - intros y [<-|Hy] Hy'; [now apply Hacc|now apply Hub]. }
        { split.
          { intros Hm. destruct (IH1 Hm) as [Ha' _]. congruence. }
          intros Hm. destruct (IH2 Hm) as [Hin [Hacc Hub]].
          split; [destruct Hin as [->|Hin]; [now left|right; now right]|].
          split; [intros _; now apply Hacc|].
          intros y [<-|Hy] Hy'; [|now apply Hub].
          apply (leb_trans _ acc); [now apply ltb_false_leb|now apply Hacc]. }
Qed.

Lemma series_max_nan_iff (l : list float) :
  is_nan (F64.series_max l) = forallb is_nan l.
Proof.
  unfold F64.series_max.
  destruct (forallb is_nan l) eqn:Hl.
  - now rewrite fold_skipna_max_all_nan.
  - destruct (is_nan (fold_left F64.skipna_max l nan)) eqn:Hm; [|reflexivity].
    destruct (proj1 (fold_skipna_max_spec l nan) Hm) as [_ H]. congruence.
Qed.

Lemma series_max_spec (l : list float) :
  forallb is_nan l = false ->
  In (F64.series_max l) l /\
  is_nan (F64.series_max l) = false /\
  forall x, In x l -> is_nan x = false -> (x <=? F64.series_max l) = true.
Proof.
  intros Hl.
  assert (Hm : is_nan (F64.series_max l) = false)
    by now rewrite series_max_nan_iff.
  destruct (proj2 (fold_skipna_max_spec l nan) Hm) as [Hin [_ Hub]].
  fold (F64.series_max l) in Hin, Hub.
  split; [|split; [exact Hm|exact Hub]].
  destruct Hin as [E|Hin]; [|exact Hin].
  rewrite E in Hm. discriminate.
Qed.

Lemma no_high_map (data : F64.DataFrame) :
  forallb is_nan (map F64.High data) = F64.no_high data.
Proof.
  unfold F64.no_high. induction data as [|r d IH]; [reflexivity|].
  cbn. now rewrite IH.
Qed.

End Binary64Max.

(** *** The evaluator *)

Section Binary64Evaluator.

Local Open Scope float_scope.

Variable cfg : F64.Config.
Variable env : F64.Env.

Lemma binary64_frame_nonempty sym data :
  F64.get_stock_data cfg env sym = Some data -> data <> [].
Proof.
  unfold F64.get_stock_data.
  destruct (F64.history env sym _) as [|[|r d]]; try discriminate.
  intros H. injection H as <-. discriminate.
Qed.

Lemma rows_with_nan_high (h : float) (data : F64.DataFrame) :
  is_nan h = true -> F64.rows_with_high h data = [].
Proof.
  intros Hh. unfold F64.rows_with_high.
  induction data as [|r d IH]; [reflexivity|].
  cbn. now rewrite (eqb_nan_r _ _ Hh).
Qed.

(** A frame whose highs are all [NaN] selects no row for the day of the
    high. *)
Lemma check_stock_alert_unpriced sym data :
  F64.get_stock_data cfg env sym = Some data ->
  F64.no_high data = true ->
  F64.check_stock_alert cfg env sym = Raised IndexError.
Proof.
  intros Hdata Hno. unfold F64.check_stock_alert. rewrite Hdata.
  destruct (iloc_last (map F64.Close data)); [|reflexivity].
  cbv zeta. rewrite rows_with_nan_high; [reflexivity|].
  now rewrite series_max_nan_iff, no_high_map.
Qed.

(** On every other fetched frame the evaluator returns its dict. *)
Lemma check_stock_alert_priced sym data :
  F64.get_stock_data cfg env sym = Some data ->
  F64.no_high data = false ->
  let high := F64.series_max (map F64.High data) in
  let threshold := abs (get (F64.alert_threshold cfg) 0.05) in
  exists last_row date_row,
    iloc_last data = Some last_row /\
    iloc_last (F64.rows_with_high high data) = Some date_row /\
    let pct_change := (F64.Close last_row - high) / high in
    F64.check_stock_alert cfg env sym =
    Returned (Some {|
      F64.symbol := sym;
      F64.current_price := F64.np_round2 (F64.Close last_row);
      F64.recent_high := F64.np_round2 high;
      F64.pct_from_high := F64.np_round2 (pct_change * 100);
      F64.is_alert := pct_change <=? - threshold;
      F64.date_of_high := F64.Date date_row;
      F64.status := if pct_change <=? - threshold then ALERT else OK;
      F64.rsi := F64.compute_rsi env (map F64.Close data) 14 |}).
Proof.
  intros Hdata Hno. cbv zeta.
  destruct (iloc_last_nonempty data (binary64_frame_nonempty _ _ Hdata))
    as [last_row Hlast].
  rewrite <- no_high_map in Hno.
  destruct (series_max_spec _ Hno) as [Hin [Hnan _]].
  apply in_map_iff in Hin. destruct Hin as [row0 [Hrow0 Hin0]].
  assert (Hsel : F64.rows_with_high (F64.series_max (map F64.High data)) data
                 <> []).
  { intros E.
    assert (Hf : In row0 (F64.rows_with_high
                            (F64.series_max (map F64.High data)) data)).
    { apply filter_In. split; [exact Hin0|].
      rewrite Hrow0. now apply not_nan_eqb. }
    rewrite E in Hf. exact Hf. }
  destruct (iloc_last_nonempty _ Hsel) as [date_row Hdate].
  exists last_row, date_row. split; [exact Hlast|]. split; [exact Hdate|].
  unfold F64.check_stock_alert.
  rewrite Hdata, iloc_last_map, Hlast. cbn [option_map]. cbv zeta.
  now rewrite Hdate.
Qed.

Lemma evaluated_unfetched sym :
  F64.get_stock_data cfg env sym = None ->
  F64.check_stock_alert cfg env sym = Returned None.
Proof. intros H. unfold F64.check_stock_alert. now rewrite H. Qed.

(** The loop stops with the exception at the first symbol whose frame has
    no high, and otherwise collects the entries in the order of the
    symbols. *)
Lemma binary64_scan_loop_outcome (symbols : list string) :
  forall results alerts,
    (existsb (F64.unpriced cfg env) symbols = true ->
     F64.scan_loop cfg env symbols results alerts = Raised IndexError) /\
    (existsb (F64.unpriced cfg env) symbols = false ->
     F64.scan_loop cfg env symbols results alerts =
     Returned
       (results ++ flat_map (F64.evaluated cfg env) symbols,
        alerts ++ filter F64.is_alert
                         (flat_map (F64.evaluated cfg env) symbols))).
Proof.
  induction symbols as [|sym rest IH]; intros results alerts.
  - cbn. split; [discriminate|]. intros _. now rewrite !app_nil_r.
  - cbn [existsb F64.scan_loop flat_map].
    unfold F64.unpriced at 1 3. unfold F64.evaluated at 1 3.
    destruct (F64.get_stock_data cfg env sym) as [data|] eqn:Hdata.
    + destruct (F64.no_high data) eqn:Hno.
      * rewrite (check_stock_alert_unpriced _ _ Hdata Hno). cbn.
        split; [reflexivity|discriminate].
      * destruct (check_stock_alert_priced _ _ Hdata Hno)
          as [last_row [date_row [_ [_ Hret]]]].
        cbv zeta in Hret. rewrite Hret.
        match goal with
        | |- context [F64.scan_loop _ _ _ (_ ++ [?r]) _] => set (entry := r)
        end.
        cbn [orb app].
        destruct (IH (results ++ [entry])
                     (if F64.is_alert entry then alerts ++ [entry]
                      else alerts)) as [IH1 IH2].
        split; [exact IH1|].
        intros Hrest. rewrite (IH2 Hrest). f_equal. f_equal.
        { now rewrite <- app_assoc. }
        cbn [filter].
        destruct (F64.is_alert entry); [now rewrite <- app_assoc|reflexivity].
    + rewrite (evaluated_unfetched _ Hdata). cbn [orb app].
      apply IH.
Qed.

End Binary64Evaluator.

(** C1, as the code has it.  On every fetched frame with a high that is a
    number the evaluator returns.  Its [recent_high] is the high of a row
    that no other high exceeds, and [is_alert] is the binary64 comparison
    of the unrounded quotient [(current_price - recent_high) / recent_high],
    computed in binary64 arithmetic, with [- abs(threshold)]: a quotient
    that equals the bound is an alert, a quotient that is [NaN] is not.
    The reported [pct_from_high] is that quotient times 100, rounded to
    two decimals, and [status] follows [is_alert]. *)
Theorem is_alert_iff_binary64_drop (cfg : F64.Config) (env : F64.Env)
  (sym : string) (data : F64.DataFrame)
  (Hdata : F64.get_stock_data cfg env sym = Some data)
  (Hhigh : F64.no_high data = false) :
  exists r last_row high_row,
    F64.check_stock_alert cfg env sym = Returned (Some r) /\
    iloc_last data = Some last_row /\
    In high_row data /\
    is_nan (F64.High high_row) = false /\
    (forall row, In row data -> is_nan (F64.High row) = false ->
                 (F64.High row <=? F64.High high_row)%float = true) /\
    let high := F64.High high_row in
    let pct_change := ((F64.Close last_row - high) / high)%float in
    let threshold := abs (get (F64.alert_threshold cfg) 0.05%float) in
    (F64.is_alert r = true <-> (pct_change <=? - threshold)%float = true) /\
    ((pct_change =? - threshold)%float = true -> F64.is_alert r = true) /\
    (is_nan pct_change = true -> F64.is_alert r = false) /\
    F64.pct_from_high r = F64.np_round2 (pct_change * 100)%float /\
    (F64.status r = ALERT <-> F64.is_alert r = true).
Proof.
  destruct (check_stock_alert_priced _ _ _ _ Hdata Hhigh)
    as [last_row [date_row [Hlast [_ Hret]]]].
  cbv zeta in Hret.
  assert (Hno := Hhigh). rewrite <- no_high_map in Hno.
  destruct (series_max_spec _ Hno) as [Hin [Hnan Hub]].
  apply in_map_iff in Hin. destruct Hin as [high_row [Hrow Hin]].
  rewrite <- Hrow in *.
  eexists. exists last_row, high_row. split; [exact Hret|].
  split; [exact Hlast|]. split; [exact Hin|]. split; [exact Hnan|]. split.
  { intros row Hr. apply Hub. apply in_map_iff. now exists row. }
  cbv zeta. cbn [F64.is_alert F64.pct_from_high F64.status].
  split; [reflexivity|]. split; [apply eqb_leb|]. split.
  { intros Hp.
    destruct (_ <=? _)%float eqn:Hle; [|reflexivity].
    apply leb_not_nan in Hle. destruct Hle as [Hle _]. congruence. }
  split; [reflexivity|].
  destruct (_ <=? _)%float; split; congruence.
Qed.

Lemma is_alert_iff_binary64_drop_witness :
  F64.get_stock_data F64.default_config F64.sample_env "CCC"
    = Some F64.edge_frame /\
  F64.no_high F64.edge_frame = false /\
  exists r last_row high_row,
    F64.check_stock_alert F64.default_config F64.sample_env "CCC"
      = Returned (Some r) /\
    iloc_last F64.edge_frame = Some last_row /\
    In high_row F64.edge_frame /\
    F64.pct_from_high r =
    F64.np_round2
      ((F64.Close last_row - F64.High high_row) / F64.High high_row * 100)
      %float.
Proof.
  split; [reflexivity|]. split; [reflexivity|].
  destruct (is_alert_iff_binary64_drop F64.default_config F64.sample_env
              "CCC" F64.edge_frame eq_refl eq_refl)
    as [r [last_row [high_row [H0 [H1 [H2 [_ [_ [_ [_ [_ [H3 _]]]]]]]]]]]].
  exists r, last_row, high_row.
  split; [exact H0|]. split; [exact H1|]. split; [exact H2|exact H3].
Defined.

(** C1, as the specification has it, fails.  One day with high 100 and
    close 95.001 at the threshold 0.05: the reported percentage is -5.0,
    so the reported percentage over 100 is at the bound, and there is no
    alert. *)
Lemma rounded_report_does_not_decide_alert :
  exists r,
    F64.check_stock_alert F64.default_config F64.sample_env "AAA"
      = Returned (Some r) /\
    F64.pct_from_high r = (-5)%float /\
    ~ (F64.is_alert r = true <->
       (F64.pct_from_high r / 100
        <=? - abs (get (F64.alert_threshold F64.default_config) 0.05))%float
       = true).
Proof.
  eexists. split; [reflexivity|]. split; [reflexivity|].
  intros [_ H]. specialize (H eq_refl). discriminate.
Qed.

(** A decimal drop of exactly five percent (high 12, close 11.4) is above
    the bound once the difference and the quotient are rounded to
    binary64: there is no alert at the threshold 0.05. *)
Example decimal_drop_at_the_threshold_is_no_alert :
  exists r,
    F64.check_stock_alert F64.default_config F64.sample_env "CCC"
      = Returned (Some r) /\
    F64.is_alert r = false /\
    F64.pct_from_high r = (-5)%float.
Proof. eexists. split; [reflexivity|]. now vm_compute. Qed.

(** A high of zero raises nothing: the quotient is an infinity. *)
Example zero_high_is_evaluated :
  exists r,
    F64.check_stock_alert F64.default_config F64.sample_env "DDD"
      = Returned (Some r) /\
    F64.is_alert r = true /\
    F64.pct_from_high r = neg_infinity.
Proof. eexists. split; [reflexivity|]. now vm_compute. Qed.

Section Binary64Results.

Local Open Scope float_scope.

Lemma abs_abs (t : float) : abs (abs t) = abs t.
Proof.
  apply Prim2SF_inj. rewrite !abs_spec. now destruct (Prim2SF t).
Qed.

(** The sign of the threshold is ignored on binary64 numbers as well. *)
Lemma binary64_threshold_sign (symbols : option (list string)) (t : float)
  (days : option Z) (email : option EmailSettings) (env : F64.Env)
  (sym : string) :
  F64.check_stock_alert (F64.mkConfig symbols (Some t) days email) env sym =
  F64.check_stock_alert (F64.mkConfig symbols (Some (abs t)) days email)
                        env sym.
Proof.
  unfold F64.check_stock_alert, F64.get_stock_data.
  cbn [F64.lookback_days F64.alert_threshold get]. now rewrite abs_abs.
Qed.

(** On binary64 prices too the day of the high is the day of the last row
    whose high equals the maximum. *)
Lemma binary64_date_of_high (cfg : F64.Config) (env : F64.Env) (sym : string)
  (data : F64.DataFrame) (r : F64.AlertResult) :
  F64.get_stock_data cfg env sym = Some data ->
  F64.check_stock_alert cfg env sym = Returned (Some r) ->
  exists i row,
    nth_error data i = Some row /\
    F64.date_of_high r = F64.Date row /\
    (F64.High row =? F64.series_max (map F64.High data)) = true /\
    forall j later, (i < j)%nat -> nth_error data j = Some later ->
      (F64.High later =? F64.series_max (map F64.High data)) = false.
Proof.
  intros Hdata Hres.
  destruct (F64.no_high data) eqn:Hno.
  { rewrite (check_stock_alert_unpriced _ _ _ _ Hdata Hno) in Hres.
    discriminate. }
  destruct (check_stock_alert_priced _ _ _ _ Hdata Hno)
    as [last_row [date_row [_ [Hdate Hret]]]].
  cbv zeta in Hret. rewrite Hret in Hres. injection Hres as <-.
  destruct (iloc_last_filter _ _ _ Hdate) as [i [Hi [Hp Hlater]]].
  exists i, date_row. repeat split; auto.
Qed.

(** The symbols of the results are the configured symbols for which data
    was fetched, in the configured order, when no frame is without a
    high. *)
Lemma binary64_symbols_of_evaluated (cfg : F64.Config) (env : F64.Env)
  (symbols : list string) :
  existsb (F64.unpriced cfg env) symbols = false ->
  map F64.symbol (flat_map (F64.evaluated cfg env) symbols) =
  filter (fun sym => has_key (F64.get_stock_data cfg env sym)) symbols.
Proof.
  induction symbols as [|sym rest IH]; [reflexivity|].
  cbn [existsb flat_map filter]. intros H.
  apply orb_false_iff in H as [Hsym Hrest].
  rewrite map_app, (IH Hrest).
  unfold F64.unpriced in Hsym. unfold F64.evaluated at 1.
  destruct (F64.get_stock_data cfg env sym) as [data|] eqn:Hdata.
  - destruct (check_stock_alert_priced _ _ _ _ Hdata Hsym)
      as [last_row [date_row [_ [_ Hret]]]].
    cbv zeta in Hret. rewrite Hret. reflexivity.
  - now rewrite (evaluated_unfetched _ _ _ Hdata).
Qed.

End Binary64Results.

Lemma Qabs_Qabs (t : Q) : Qabs (Qabs t) = Qabs t.
Proof. destruct t as [n d]. simpl. now rewrite Z.abs_idemp. Qed.

(** C9.  The evaluation with a configured threshold [t] is the evaluation
    with threshold [|t|]: same outcome, same [AlertResult]. *)
Theorem threshold_sign_is_ignored cfg env sym (t : Q) :
  check_stock_alert (set_alert_threshold t cfg) env sym =
  check_stock_alert (set_alert_threshold (Qabs t) cfg) env sym.
Proof.
  unfold check_stock_alert, get_stock_data. cbn.
  now rewrite Qabs_Qabs.
Qed.

(** ** The scan *)

Section ScanLoop.

Variable cfg : Config.
Variable env : Env.

Lemma check_stock_alert_not_fetched sym :
  get_stock_data cfg env sym = None ->
  check_stock_alert cfg env sym = Returned None.
Proof. intros H. unfold check_stock_alert. now rewrite H. Qed.

Lemma evaluated_fetched sym :
  fetched cfg env sym = true ->
  exists r, check_stock_alert cfg env sym = Returned (Some r) /\
            evaluated cfg env sym = [r] /\ symbol r = sym.
Proof.
  unfold fetched. destruct (get_stock_data cfg env sym) as [data|] eqn:Hd;
    [intros _|discriminate].
  destruct (check_stock_alert_returns _ _ _ _ Hd)
    as [current [high [row [_ [_ [_ Heq]]]]]].
  eexists. split; [exact Heq|]. unfold evaluated. rewrite Heq.
  split; reflexivity.
Qed.

Lemma evaluated_not_fetched sym :
  fetched cfg env sym = false -> evaluated cfg env sym = [].
Proof.
  unfold fetched. destruct (get_stock_data cfg env sym) eqn:Hd;
    [discriminate|intros _].
  unfold evaluated. now rewrite check_stock_alert_not_fetched.
Qed.

(** The loop never raises; it appends the entries of the fetched symbols to
    [results] and those with [is_alert] to [alerts]. *)
Lemma scan_loop_returns symbols :
  forall results alerts,
    scan_loop cfg env symbols results alerts =
    Returned (results ++ flat_map (evaluated cfg env) symbols,
              alerts ++ filter is_alert (flat_map (evaluated cfg env) symbols)).
Proof.
  induction symbols as [|sym rest IH]; intros results alerts; simpl.
  - now rewrite !app_nil_r.
  - destruct (fetched cfg env sym) eqn:Hf.
    + destruct (evaluated_fetched _ Hf) as [r [Hc [He _]]].
      rewrite Hc, He, IH. simpl.
      destruct (is_alert r); now rewrite <- !app_assoc.
    + rewrite (evaluated_not_fetched _ Hf). simpl.
      unfold fetched in Hf.
      destruct (get_stock_data cfg env sym) eqn:Hd; [discriminate|].
      rewrite (check_stock_alert_not_fetched _ Hd). apply IH.
Qed.

Lemma symbols_of_evaluated symbols :
  map symbol (flat_map (evaluated cfg env) symbols) =
  filter (fetched cfg env) symbols.
Proof.
  induction symbols as [|sym rest IH]; simpl; [reflexivity|].
  destruct (fetched cfg env sym) eqn:Hf.
  - destruct (evaluated_fetched _ Hf) as [r [_ [He Hs]]].
    rewrite He. simpl. now rewrite Hs, IH.
  - now rewrite (evaluated_not_fetched _ Hf).
Qed.

End ScanLoop.

Lemma scan_portfolio_returns env st :
  exists st',
    scan_portfolio env st =
    (Returned
       (filter is_alert
               (flat_map (evaluated (config st) env) (stored_stocks st)),
        flat_map (evaluated (config st) env) (stored_stocks st)), st').
Proof.
  unfold scan_portfolio, stored_stocks.
  rewrite scan_loop_returns. simpl. eexists. reflexivity.
Qed.

(** On frames of rational prices a scan returns.  Its results are the
    entries of the configured symbols, in the configured order, without the
    symbols for which no data was fetched; the alerts are the results with
    [is_alert], in the same order; a symbol without data is in neither
    list; and a scan of AAA, BBB where only AAA has data gives exactly the
    entry of AAA. *)
Theorem scan_portfolio_fail_soft env st :
  exists alerts results st',
    scan_portfolio env st = (Returned (alerts, results), st') /\
    results = flat_map (evaluated (config st) env) (stored_stocks st) /\
    map symbol results = filter (fetched (config st) env) (stored_stocks st) /\
    alerts = filter is_alert results /\
    (forall sym, fetched (config st) env sym = false ->
                 ~ In sym (map symbol results) /\
                 ~ In sym (map symbol alerts)) /\
    (stored_stocks st = ["AAA"; "BBB"] ->
     fetched (config st) env "AAA" = true ->
     fetched (config st) env "BBB" = false ->
     exists r, check_stock_alert (config st) env "AAA" = Returned (Some r) /\
               symbol r = "AAA" /\ results = [r]).
Proof.
  destruct (scan_portfolio_returns env st) as [st' Hscan].
  do 3 eexists. split; [exact Hscan|].
  split; [reflexivity|]. split; [apply symbols_of_evaluated|].
  split; [reflexivity|]. split.
  - intros sym Hf.
    assert (Hres : ~ In sym (map symbol
               (flat_map (evaluated (config st) env) (stored_stocks st)))).
    { rewrite symbols_of_evaluated. intros Hin.
      apply filter_In in Hin. destruct Hin as [_ Hin]. congruence. }
    split; [exact Hres|].
    intros Hin. apply Hres.
    apply in_map_iff in Hin. destruct Hin as [r [Hr Hin]].
    apply filter_In in Hin. apply in_map_iff. exists r. tauto.
  - intros Hst HA HB. rewrite Hst. simpl.
    destruct (evaluated_fetched _ _ _ HA) as [r [Hc [He Hs]]].
    rewrite He, (evaluated_not_fetched _ _ _ HB).
    exists r. auto.
Qed.

(** The scenario on the sample provider: BBB has no rows, ZZZ makes the
    provider raise. *)
Example scan_skips_symbols_without_data :
  fst (scan_portfolio sample_env
         (initial_state (set_stocks ["AAA"; "BBB"; "ZZZ"] default_config)))
  = Returned ([tie_result], [tie_result]).
Proof. reflexivity. Qed.

(** C3, at the input on which the code leaves it.  BBB has one row with a
    close and with [NaN] for its high: its frame is fetched and it is not
    empty, [check_stock_alert] raises [IndexError] for it, and the scan of
    AAA, BBB ends with that exception: nothing is returned and the
    snapshot is not assigned. *)
Theorem scan_portfolio_raises_on_unpriced_symbol :
  F64.get_stock_data (F64.config (F64.watching ["AAA"; "BBB"]))
                     F64.sample_env "BBB" = Some F64.blank_frame /\
  F64.check_stock_alert (F64.config (F64.watching ["AAA"; "BBB"]))
                        F64.sample_env "BBB" = Raised IndexError /\
  F64.scan_portfolio F64.sample_env (F64.watching ["AAA"; "BBB"])
  = (Raised IndexError, F64.watching ["AAA"; "BBB"]).
Proof. repeat split. Qed.


(** Email enabled, one alert, and an SMTP session that fails: the scan
    returns, the snapshot is published and the notifier was called once
    with the alert. *)
Example scan_survives_smtp_failure :
  let st := initial_state mail_config in
  smtp_session sample_env
    (mkMessage "me@example.org" "you@example.org" 1 [tie_result]
               (now sample_env)) = false /\
  fst (scan_portfolio sample_env st) = Returned ([tie_result], [tie_result]) /\
  last_scan_results (snd (scan_portfolio sample_env st)) = [tie_result] /\
  last_scan_time (snd (scan_portfolio sample_env st)) = Some (now sample_env) /\
  notifier_calls (snd (scan_portfolio sample_env st)) = [[tie_result]] /\
  List.length (smtp_sessions (snd (scan_portfolio sample_env st))) = 1%nat.
Proof. repeat split. Qed.

(** ** The scheduler *)

Lemma monitor_step_simulates (c : Call) (st : State) :
  fst (monitor_step c st) = fst (scheduler_step c (scheduler_of st)) /\
  scheduler_of (snd (monitor_step c st)) =
  snd (scheduler_step c (scheduler_of st)).
Proof.
  destruct c; cbn; unfold start_monitoring, scheduler_of;
    destruct (monitoring st) eqn:Hm; cbn; try rewrite Hm; auto.
Qed.

Lemma run_simulates (calls : list Call) :
  forall st,
    fst (run monitor_step calls st) =
    fst (run scheduler_step calls (scheduler_of st)) /\
    scheduler_of (snd (run monitor_step calls st)) =
    snd (run scheduler_step calls (scheduler_of st)).
Proof.
  induction calls as [|c rest IH]; intros st; cbn [run]; [auto|].
  destruct (monitor_step_simulates c st) as [Hr Hs].
  destruct (monitor_step c st) as [r st1].
  destruct (scheduler_step c (scheduler_of st)) as [r' s1].
  cbn in Hr, Hs. subst r' s1.
  destruct (IH st1) as [Hrs Hss].
  destruct (run monitor_step rest st1) as [rs0 st2].
  destruct (run scheduler_step rest (scheduler_of st1)) as [rs' s2].
  cbn in *. subst. auto.
Qed.

(** X30.  The [monitoring] flag and the values returned.
    [start_monitoring] on a monitor whose flag is cleared returns [True]
    and sets the flag, with one more thread started; on a monitor whose
    flag is set it returns [False] and changes nothing (no thread is
    started); [stop_monitoring] returns [True] and clears the flag, and a
    start after it returns [True].  On every sequence of calls the values
    returned and the flag are those of the two-state scheduler.  Whether
    the loop threads have ended is not part of this statement. *)
Theorem scheduler_two_state_machine (st : State) :
  (monitoring st = false ->
   fst (start_monitoring st) = true /\
   monitoring (snd (start_monitoring st)) = true /\
   threads_started (snd (start_monitoring st)) = S (threads_started st)) /\
  (monitoring st = true -> start_monitoring st = (false, st)) /\
  fst (stop_monitoring st) = true /\
  monitoring (snd (stop_monitoring st)) = false /\
  fst (start_monitoring (snd (stop_monitoring st))) = true /\
  monitoring (snd (start_monitoring (snd (stop_monitoring st)))) = true /\
  forall calls,
    fst (run monitor_step calls st) =
    fst (run scheduler_step calls (scheduler_of st)) /\
    scheduler_of (snd (run monitor_step calls st)) =
    snd (run scheduler_step calls (scheduler_of st)).
Proof.
  repeat split.
  - unfold start_monitoring. now rewrite H.
  - unfold start_monitoring. now rewrite H.
  - unfold start_monitoring. now rewrite H.
  - intros H. unfold start_monitoring. now rewrite H.
  - apply run_simulates.
  - apply run_simulates.
Qed.

(** The sequence of the specification: start, start, stop, start. *)
Example start_start_stop_start :
  fst (run monitor_step [Start; Start; Stop; Start]
           (initial_state default_config))
  = [true; false; true; true].
Proof. reflexivity. Qed.

(** *** The loop threads *)

(** C6, at the calls on which the code leaves it.  The first loop thread
    has scanned and sleeps for 1800 seconds when [stop_monitoring] is
    called: the call returns [True] and clears the flag, and its join has
    given up after one second with the thread alive.  The next
    [start_monitoring] returns [True] and starts a second thread.  When
    the first thread wakes it reads the flag that the second start has
    set, and goes on: two loops are active and each of them scans. *)
Theorem restart_within_the_sleep_runs_two_loops :
  (exists w,
     happen sleep_max_64 stop_within_the_sleep fresh_world
       = Some ([true; true], w) /\
     monitoring (monitor w) = false /\
     clock w = 11%Z /\
     live_loops w = [mkLoopThread 0 1800]) /\
  (exists w,
     happen sleep_max_64 restart_within_the_sleep fresh_world
       = Some ([true; true; true], w) /\
     monitoring (monitor w) = true /\
     threads_started (monitor w) = 2%nat /\
     active_loops w = [0; 1]%nat /\
     loop_scans w
     = [(0%nat, 0%Z); (1%nat, 11%Z); (0%nat, 1811%Z); (1%nat, 1811%Z)]).
Proof.
  split; eexists; (split; [vm_compute; reflexivity|]); vm_compute;
    repeat split.
Qed.

(** A stop that comes in the last second of the sleep joins the thread,
    and the start after it runs one loop. *)
Example restart_after_the_join :
  exists w,
    happen sleep_max_64
      [CallStart; LoopTurn 0 false; Elapse 1799; CallStop; CallStart;
       LoopTurn 1 false] fresh_world
      = Some ([true; true; true], w) /\
    active_loops w = [1%nat].
Proof. eexists. split; [vm_compute; reflexivity|]. reflexivity. Qed.

(** ** The configuration handlers *)

Lemma upper_char_idem (c : ascii) : upper_char (upper_char c) = upper_char c.
Proof. destruct c as [[] [] [] [] [] [] [] []]; reflexivity. Qed.

Lemma is_space_upper_char (c : ascii) : is_space (upper_char c) = is_space c.
Proof. destruct c as [[] [] [] [] [] [] [] []]; reflexivity. Qed.

Lemma upper_idem (s : string) : upper (upper s) = upper s.
Proof.
  induction s as [|c t IH]; simpl; [reflexivity|].
  now rewrite upper_char_idem, IH.
Qed.

Lemma lstrip_upper (s : string) : lstrip (upper s) = upper (lstrip s).
Proof.
  induction s as [|c t IH]; simpl; [reflexivity|].
  rewrite is_space_upper_char. destruct (is_space c); [exact IH|reflexivity].
Qed.

Lemma rstrip_upper (s : string) : rstrip (upper s) = upper (rstrip s).
Proof.
  induction s as [|c t IH]; simpl; [reflexivity|].
  rewrite IH, is_space_upper_char.
  destruct (rstrip t); simpl; [destruct (is_space c)|]; reflexivity.
Qed.

Lemma strip_upper (s : string) : strip (upper s) = upper (strip s).
Proof. unfold strip. now rewrite lstrip_upper, rstrip_upper. Qed.

Lemma lstrip_idem (s : string) : lstrip (lstrip s) = lstrip s.
Proof.
  induction s as [|c t IH]; simpl; [reflexivity|].
  destruct (is_space c) eqn:Hc; [exact IH|]. simpl. now rewrite Hc.
Qed.

Lemma rstrip_idem (s : string) : rstrip (rstrip s) = rstrip s.
Proof.
  induction s as [|c t IH]; simpl; [reflexivity|].
  destruct (rstrip t) as [|c' t'] eqn:Ht.
  - destruct (is_space c) eqn:Hc; simpl; [reflexivity|now rewrite Hc].
  - cbn [rstrip] in *. now rewrite IH.
Qed.

Lemma lstrip_rstrip (s : string) : lstrip (rstrip s) = rstrip (lstrip s).
Proof.
  induction s as [|c t IH]; [reflexivity|].
  cbn [lstrip rstrip].
  destruct (is_space c) eqn:Hc.
  - rewrite <- IH. destruct (rstrip t) as [|c' t']; [reflexivity|].
    cbn [lstrip]. now rewrite Hc.
  - cbn [rstrip].
    destruct (rstrip t) as [|c' t']; cbn [lstrip]; now rewrite Hc.
Qed.

Lemma strip_idem (s : string) : strip (strip s) = strip s.
Proof.
  unfold strip.
  now rewrite (lstrip_rstrip (lstrip s)), lstrip_idem, rstrip_idem.
Qed.

Create Rewrite HintDb normalise.
#[local] Hint Rewrite upper_idem strip_upper strip_idem : normalise.

Lemma upper_nonempty (s : string) : truthy s = true -> upper s <> "".
Proof. destruct s; simpl; [discriminate|intros _; discriminate]. Qed.

(** Every symbol produced by the comprehension is a non-empty, trimmed,
    upper-case string. *)
Lemma parse_stocks_normalized (stocks_text : string) :
  Forall (fun sym => upper sym = sym /\ strip sym = sym /\ sym <> "")
         (parse_stocks stocks_text).
Proof.
  unfold parse_stocks. apply Forall_forall. intros sym Hin.
  apply in_map_iff in Hin. destruct Hin as [piece [<- Hin]].
  apply filter_In in Hin. destruct Hin as [_ Htruthy].
  repeat split; [autorewrite with normalise; reflexivity ..|].
  now apply upper_nonempty.
Qed.

(** C8, as the code has it.  After [update_stocks] the stored symbols are
    the entries of the submitted text in their order, each one trimmed,
    upper-cased and non-empty; the new configuration is the one written to
    the file.  Repeated entries are kept. *)
Theorem update_stocks_normalizes (form_stocks : option string) (st : State) :
  stored_stocks (snd (update_stocks form_stocks st)) =
    parse_stocks (get form_stocks "") /\
  Forall (fun sym => upper sym = sym /\ strip sym = sym /\ sym <> "")
         (stored_stocks (snd (update_stocks form_stocks st))) /\
  config_dumps (snd (update_stocks form_stocks st)) =
    config_dumps st ++ [config (snd (update_stocks form_stocks st))].
Proof.
  split; [reflexivity|]. split; [|reflexivity].
  apply parse_stocks_normalized.
Qed.

(** C8, as the specification has it, fails: a symbol entered twice is
    stored twice. *)
Lemma update_stocks_keeps_duplicates :
  stored_stocks
    (snd (update_stocks (Some "aapl, AAPL") (initial_state default_config)))
  = ["AAPL"; "AAPL"] /\
  ~ NoDup (stored_stocks
             (snd (update_stocks (Some "aapl, AAPL")
                                 (initial_state default_config)))).
Proof.
  split; [reflexivity|].
  intros H. change (NoDup ["AAPL"; "AAPL"]) in H.
  inversion H as [|x l Hnotin _]. apply Hnotin. left. reflexivity.
Qed.

Lemma valid_index_false {A : Type} (index : Z) (entries : list A) :
  (index < 0 \/ Z.of_nat (List.length entries) <= index)%Z ->
  valid_index index entries = false.
Proof.
  intros H. unfold valid_index.
  destruct (0 <=? index)%Z eqn:H0; [|reflexivity].
  apply Z.leb_le in H0. simpl. apply Z.ltb_ge. lia.
Qed.

(** C10.  For an index outside [0, len(thesis_entries)), [update_thesis]
    and [delete_thesis] leave the whole state as it was: the thesis
    entries and the rest of the configuration are unchanged and nothing is
    written to the config file ([save_config] is not called). *)
Theorem invalid_thesis_index_changes_nothing (index : Z) (form : ThesisForm)
  (st : State)
  (Hout : (index < 0 \/ Z.of_nat (List.length (stored_theses st)) <= index)%Z) :
  snd (update_thesis index form st) = st /\
  snd (delete_thesis index st) = st /\
  fst (delete_thesis index st) = InvalidEntryIndex /\
  stored_theses (snd (update_thesis index form st)) = stored_theses st /\
  stored_theses (snd (delete_thesis index st)) = stored_theses st /\
  config_dumps (snd (update_thesis index form st)) = config_dumps st /\
  config_dumps (snd (delete_thesis index st)) = config_dumps st.
Proof.
  pose proof (valid_index_false _ _ Hout) as Hv. unfold stored_theses in Hv.
  assert (Hu : snd (update_thesis index form st) = st).
  { unfold update_thesis.
    destruct (negb (truthy (upper (strip (get (form_ticker form) "")))));
      [reflexivity|].
    now rewrite Hv. }
  assert (Hd : delete_thesis index st = (InvalidEntryIndex, st)).
  { unfold delete_thesis. now rewrite Hv. }
  rewrite Hu, Hd. cbn. repeat split; reflexivity.
Qed.

Lemma invalid_thesis_index_changes_nothing_witness :
  (1 < 0 \/ Z.of_nat (List.length (stored_theses sample_state)) <= 1)%Z /\
  snd (update_thesis 1 sample_form sample_state) = sample_state /\
  snd (delete_thesis 1 sample_state) = sample_state.
Proof.
  assert (Hout : (1 < 0 \/
                  Z.of_nat (List.length (stored_theses sample_state)) <= 1)%Z)
    by (right; cbn; lia).
  split; [exact Hout|].
  destruct (invalid_thesis_index_changes_nothing 1 sample_form sample_state
              Hout) as [Hu [Hd _]].
  split; assumption.
Defined.

(* ================================================================== *)
(** * Further properties *)

(** ** Rounding *)

Lemma round_half_even_cases (y : Q) :
  round_half_even y = Qfloor y \/
  (round_half_even y = (Qfloor y + 1)%Z /\
   1 # 2 <= y - inject_Z (Qfloor y)).
Proof.
  unfold round_half_even.
  destruct (Qcompare (y - inject_Z (Qfloor y)) (1 # 2)) eqn:E.
  - apply Qeq_alt in E. destruct (Z.even (Qfloor y)); [left; reflexivity|].
    right. split; [reflexivity|]. rewrite E. apply Qle_refl.
  - left; reflexivity.
  - right. split; [reflexivity|]. apply Qlt_le_weak, Qgt_alt, E.
Qed.

(** Rounding to an integer does not cross an integer. *)
Lemma round_half_even_ge (n : Z) (y : Q) :
  inject_Z n <= y -> (n <= round_half_even y)%Z.
Proof.
  intros H. apply Qfloor_resp_le in H. rewrite Qfloor_Z in H.
  destruct (round_half_even_cases y) as [E|[E _]]; rewrite E; lia.
Qed.

Lemma round_half_even_le (n : Z) (y : Q) :
  y <= inject_Z n -> (round_half_even y <= n)%Z.
Proof.
  intros H. pose proof (Qfloor_resp_le _ _ H) as Hf. rewrite Qfloor_Z in Hf.
  destruct (round_half_even_cases y) as [E|[E Hhalf]]; rewrite E; [lia|].
  destruct (Z.eq_dec (Qfloor y) n) as [En|Hn]; [|lia].
  exfalso. rewrite En in Hhalf.
  assert (Hc : y - inject_Z n <= 0) by lra.
  assert (Hlt : 0 < 1 # 2) by reflexivity. lra.
Qed.

Lemma round2_ge (n : Z) (x : Q) :
  inject_Z n / 100 <= x -> inject_Z n / 100 <= round2 x.
Proof.
  intros H. unfold round2.
  assert (Hn : inject_Z n <= x * 100).
  { apply (Qmult_le_compat_r _ _ 100) in H; [|discriminate].
    assert (E : inject_Z n / 100 * 100 == inject_Z n) by (field; discriminate).
    rewrite E in H. exact H. }
  apply round_half_even_ge in Hn.
  apply Qmult_le_compat_r; [|discriminate].
  rewrite <- Zle_Qle. exact Hn.
Qed.

Lemma round2_le (n : Z) (x : Q) :
  x <= inject_Z n / 100 -> round2 x <= inject_Z n / 100.
Proof.
  intros H. unfold round2.
  assert (Hn : x * 100 <= inject_Z n).
  { apply (Qmult_le_compat_r _ _ 100) in H; [|discriminate].
    assert (E : inject_Z n / 100 * 100 == inject_Z n) by (field; discriminate).
    rewrite E in H. exact H. }
  apply round_half_even_le in Hn.
  apply Qmult_le_compat_r; [|discriminate].
  rewrite <- Zle_Qle. exact Hn.
Qed.

Lemma round2_nonneg (x : Q) : 0 <= x -> 0 <= round2 x.
Proof.
  intros H. pose proof (round2_ge 0 x) as G.
  assert (E : inject_Z 0 / 100 == 0) by reflexivity.
  rewrite E in G. auto.
Qed.

Lemma round2_nonpos (x : Q) : x <= 0 -> round2 x <= 0.
Proof.
  intros H. pose proof (round2_le 0 x) as G.
  assert (E : inject_Z 0 / 100 == 0) by reflexivity.
  rewrite E in G. auto.
Qed.

Lemma round2_le_100 (x : Q) : x <= 100 -> round2 x <= 100.
Proof.
  intros H. pose proof (round2_le 10000 x) as G.
  assert (E : inject_Z 10000 / 100 == 100) by reflexivity.
  rewrite E in G. auto.
Qed.

(** ** The RSI as a function of its last window *)

Lemma iloc_last_rolling_mean (w minp : nat) (s : series) :
  s <> [] ->
  iloc_last (rolling_mean w minp s) =
  Some (window_mean minp (skipn (List.length s - w) s)).
Proof.
  intros Hne. unfold rolling_mean.
  destruct (List.length s) as [|k] eqn:Hlen.
  { destruct s; [congruence|discriminate]. }
  rewrite seq_S, map_app. cbn [map]. rewrite iloc_last_app.
  unfold window_at. cbn [Nat.add].
  replace (k + 1)%nat with (List.length s) by lia.
  rewrite firstn_all. now rewrite Hlen.
Qed.

Lemma clip_lower_skipn (lo : Q) (n : nat) (s : series) :
  skipn n (clip_lower lo s) = clip_lower lo (skipn n s).
Proof. unfold clip_lower. apply skipn_map. Qed.

Lemma clip_upper_skipn (hi : Q) (n : nat) (s : series) :
  skipn n (clip_upper hi s) = clip_upper hi (skipn n s).
Proof. unfold clip_upper. apply skipn_map. Qed.

Lemma neg_skipn (n : nat) (s : series) : skipn n (neg s) = neg (skipn n s).
Proof. unfold neg. apply skipn_map. Qed.

(** The last average gain and the last average loss are the means of the
    gains and of the losses of the last [period] differences. *)
Lemma avg_gain_last (closes : list Q) (period : nat) :
  closes <> [] ->
  iloc_last (avg_gain closes period) =
  Some (window_mean period (clip_lower 0 (last_diffs closes period))).
Proof.
  intros Hne. unfold avg_gain, gains, last_diffs.
  rewrite iloc_last_rolling_mean.
  - unfold clip_lower at 1. rewrite length_map, diff_length.
    now rewrite clip_lower_skipn.
  - destruct closes; [congruence|discriminate].
Qed.

Lemma avg_loss_last (closes : list Q) (period : nat) :
  closes <> [] ->
  iloc_last (avg_loss closes period) =
  Some (window_mean period (neg (clip_upper 0 (last_diffs closes period)))).
Proof.
  intros Hne. unfold avg_loss, losses, last_diffs.
  rewrite iloc_last_rolling_mean.
  - unfold neg at 1, clip_upper at 1. rewrite !length_map, diff_length.
    now rewrite neg_skipn, clip_upper_skipn.
  - destruct closes; [congruence|discriminate].
Qed.

(** The value of [compute_rsi] on a series that passes the length guard. *)
Lemma compute_rsi_window (closes : list Q) (period : nat) :
  (period + 1 <= List.length closes)%nat ->
  compute_rsi closes period =
  match window_mean period (clip_lower 0 (last_diffs closes period)),
        window_mean period (neg (clip_upper 0 (last_diffs closes period)))
  with
  | Some g, Some l =>
      if Qeq_bool l 0 then None
      else Some (round2 (100 - 100 / (1 + g / l)))
  | _, _ => None
  end.
Proof.
  intros Hlen.
  assert (Hne : closes <> []) by (destruct closes; simpl in *; [lia|discriminate]).
  unfold compute_rsi.
  destruct (List.length closes <? period + 1)%nat eqn:Hg.
  { apply Nat.ltb_lt in Hg. lia. }
  unfold rsi_series, rs, series_div.
  rewrite iloc_last_map, iloc_last_zip_with.
  2:{ unfold replace_zero_NA.
      now rewrite length_map, avg_gain_length, avg_loss_length. }
  unfold replace_zero_NA. rewrite iloc_last_map.
  rewrite (avg_gain_last _ _ Hne), (avg_loss_last _ _ Hne). cbn.
  destruct (window_mean period (clip_lower 0 _)) as [g|];
    destruct (window_mean period (neg _)) as [l|]; cbn; try reflexivity.
  destruct (Qeq_bool l 0); reflexivity.
Qed.

Lemma clip_lower_nonneg (s : series) :
  Forall nonneg_or_undefined (clip_lower 0 s).
Proof.
  apply Forall_forall. intros o Ho. unfold clip_lower in Ho.
  apply in_map_iff in Ho. destruct Ho as [[x|] [<- _]]; intros y Hy;
    [|discriminate].
  injection Hy as <-. destruct (Qle_bool 0 x) eqn:E.
  - now apply Qle_bool_iff.
  - apply Qle_refl.
Qed.

Lemma neg_clip_upper_nonneg (s : series) :
  Forall nonneg_or_undefined (neg (clip_upper 0 s)).
Proof.
  apply Forall_forall. intros o Ho. unfold neg, clip_upper in Ho.
  rewrite map_map in Ho.
  apply in_map_iff in Ho. destruct Ho as [[x|] [<- _]]; intros y Hy;
    [|discriminate].
  injection Hy as <-. destruct (Qle_bool x 0) eqn:E.
  - apply Qle_bool_iff in E. lra.
  - discriminate.
Qed.

Lemma Qsum_observations_nonneg (win : series) :
  Forall nonneg_or_undefined win -> 0 <= Qsum (observations win).
Proof.
  induction 1 as [|o win Ho _ IH]; simpl; [apply Qle_refl|].
  destruct o as [x|]; [|exact IH]. simpl.
  pose proof (Ho x eq_refl). lra.
Qed.

Lemma Qdiv_nat_nonneg (a : Q) (n : nat) :
  (0 < n)%nat -> 0 <= a -> 0 <= a / inject_Z (Z.of_nat n).
Proof.
  intros Hn Ha. apply Qle_shift_div_l.
  - change 0 with (inject_Z 0). rewrite <- Zlt_Qlt. lia.
  - lra.
Qed.

Lemma window_mean_nonneg (minp : nat) (win : series) :
  Forall nonneg_or_undefined win -> nonneg_or_undefined (window_mean minp win).
Proof.
  intros H q. unfold window_mean.
  destruct ((minp <=? _)%nat && _) eqn:E; [|discriminate].
  intros Hq; injection Hq as <-.
  apply andb_prop in E. destruct E as [_ E]. apply Nat.ltb_lt in E.
  apply Qdiv_nat_nonneg; [exact E|now apply Qsum_observations_nonneg].
Qed.

(** The value behind a defined RSI, before rounding. *)
Lemma rsi_formula_range (g l : Q) :
  0 <= g -> 0 < l ->
  0 <= 100 - 100 / (1 + g / l) /\ 100 - 100 / (1 + g / l) <= 100.
Proof.
  intros Hg Hl.
  assert (Hr : 0 <= g / l) by (apply Qle_shift_div_l; lra).
  assert (Hpos : 0 < 1 + g / l) by lra.
  assert (H1 : 100 / (1 + g / l) <= 100).
  { apply Qle_shift_div_r; [exact Hpos|]. lra. }
  assert (H2 : 0 <= 100 / (1 + g / l)).
  { apply Qle_shift_div_l; [exact Hpos|]. lra. }
  split; lra.
Qed.

Lemma Qeq_bool_false_neq (x y : Q) : Qeq_bool x y = false -> ~ x == y.
Proof. intros H E. apply Qeq_bool_iff in E. congruence. Qed.

(** X1.  The RSI, when there is one, lies between 0 and 100. *)
Theorem compute_rsi_range (closes : list Q) (period : nat) (v : Q)
  (Hv : compute_rsi closes period = Some v) :
  0 <= v /\ v <= 100.
Proof.
  destruct (Nat.lt_ge_cases (List.length closes) (period + 1)) as [Hs|Hlen].
  { unfold compute_rsi in Hv. apply Nat.ltb_lt in Hs. rewrite Hs in Hv.
    discriminate. }
  rewrite (compute_rsi_window _ _ Hlen) in Hv.
  destruct (window_mean period (clip_lower 0 _)) as [g|] eqn:Eg;
    [|discriminate].
  destruct (window_mean period (neg _)) as [l|] eqn:El; [|discriminate].
  destruct (Qeq_bool l 0) eqn:Ez; [discriminate|].
  injection Hv as <-.
  pose proof (window_mean_nonneg _ _ (clip_lower_nonneg _) g Eg) as Hg.
  pose proof (window_mean_nonneg _ _ (neg_clip_upper_nonneg _) l El) as Hl.
  apply Qeq_bool_false_neq in Ez.
  assert (Hlpos : 0 < l).
  { destruct (proj1 (Qle_lteq _ _) Hl) as [H|H]; [exact H|].
    exfalso. apply Ez. symmetry. exact H. }
  destruct (rsi_formula_range g l Hg Hlpos) as [H0 H100].
  split; [now apply round2_nonneg|now apply round2_le_100].
Qed.

Lemma compute_rsi_range_witness :
  compute_rsi zigzag15 14 = Some (round2 (1700 # 27)) /\
  0 <= round2 (1700 # 27) /\ round2 (1700 # 27) <= 100.
Proof.
  assert (Hv : compute_rsi zigzag15 14 = Some (round2 (1700 # 27))).
  { vm_compute. reflexivity. }
  split; [exact Hv|].
  exact (compute_rsi_range zigzag15 14 (round2 (1700 # 27)) Hv).
Defined.

(** *** When the RSI is defined *)












(** Either one of the differences is a rise, or every gain is zero. *)
Lemma rise_or_no_gain (w : series) :
  (exists d, In (Some d) w /\ 0 < d) \/
  Forall zero_or_undefined (clip_lower 0 w).
Proof.
  induction w as [|o w [[d [Hin Hd]]|IH]].
  - right. constructor.
  - left. exists d. split; [right; exact Hin|exact Hd].
  - destruct o as [x|].
    + destruct (Qlt_le_dec 0 x) as [Hx|Hx].
      * left. exists x. split; [left; reflexivity|exact Hx].
      * right. simpl. constructor; [|exact IH].
        intros y Hy. injection Hy as <-.
        destruct (Qle_bool 0 x) eqn:E; [|reflexivity].
        apply Qle_bool_iff in E. apply Qle_antisym; lra.
    + right. simpl. constructor; [|exact IH]. intros y Hy; discriminate.
Qed.


Lemma no_rise_no_gain (w : series) :
  ~ (exists d, In (Some d) w /\ 0 < d) ->
  Forall zero_or_undefined (clip_lower 0 w).
Proof. intros H. destruct (rise_or_no_gain w); tauto. Qed.

(** X3.  Without a rise in the window the RSI, when there is one, is 0. *)
Theorem compute_rsi_zero_without_rise (closes : list Q) (period : nat) (v : Q)
  (Hv : compute_rsi closes period = Some v)
  (Hno : ~ has_rise closes period) :
  v == 0.
Proof.
  destruct (Nat.lt_ge_cases (List.length closes) (period + 1)) as [Hs|Hlen].
  { unfold compute_rsi in Hv. apply Nat.ltb_lt in Hs. rewrite Hs in Hv.
    discriminate. }
  rewrite (compute_rsi_window _ _ Hlen) in Hv.
  destruct (window_mean period (clip_lower 0 _)) as [g|] eqn:Eg;
    [|discriminate].
  destruct (window_mean period (neg _)) as [l|] eqn:El; [|discriminate].
  destruct (Qeq_bool l 0) eqn:Ez; [discriminate|].
  injection Hv as <-.
  apply Qeq_bool_false_neq in Ez.
  pose proof (window_mean_zero _ _ (no_rise_no_gain _ Hno) g Eg) as Hg.
  assert (E : 100 - 100 / (1 + g / l) == 0).
  { rewrite Hg. field. exact Ez. }
  apply Qle_antisym.
  - apply round2_nonpos. rewrite E. apply Qle_refl.
  - apply round2_nonneg. rewrite E. apply Qle_refl.
Qed.

Lemma no_positive_entry (w : series) :
  forallb (fun o => match o with
                    | Some d => Qle_bool d 0
                    | None => true
                    end) w = true ->
  ~ (exists d, In (Some d) w /\ 0 < d).
Proof.
  intros H [d [Hin Hd]]. rewrite forallb_forall in H.
  pose proof (H _ Hin) as Hle. cbn in Hle. apply Qle_bool_iff in Hle. lra.
Qed.

Lemma compute_rsi_zero_without_rise_witness :
  compute_rsi slide15 14 = Some (round2 0) /\
  ~ has_rise slide15 14 /\
  round2 0 == 0.
Proof.
  assert (Hv : compute_rsi slide15 14 = Some (round2 0))
    by (vm_compute; reflexivity).
  assert (Hno : ~ has_rise slide15 14).
  { apply no_positive_entry. vm_compute. reflexivity. }
  split; [exact Hv|]. split; [exact Hno|].
  exact (compute_rsi_zero_without_rise slide15 14 (round2 0) Hv Hno).
Defined.

(** *** Only the last [period + 1] closes count *)

Lemma skipn_diff_from (k : nat) :
  forall (l : list Q) (prev a : Q) (rest : list Q),
    skipn k (prev :: l) = a :: rest ->
    skipn k (diff_from prev l) = diff_from a rest.
Proof.
  induction k as [|k IH]; intros l prev a rest H.
  - cbn in H. injection H as -> ->. reflexivity.
  - destruct l as [|y l']; [destruct k; discriminate|].
    cbn [skipn diff_from] in *. now apply IH.
Qed.

Lemma last_diffs_suffix (closes : list Q) (period : nat) :
  (period + 1 <= List.length closes)%nat ->
  last_diffs (skipn (List.length closes - (period + 1)) closes) period =
  last_diffs closes period.
Proof.
  intros Hlen. set (k := (List.length closes - (period + 1))%nat).
  destruct (skipn k closes) as [|a rest] eqn:Hsuf.
  { apply skipn_all_iff in Hsuf. lia. }
  assert (Hsl : List.length (a :: rest) = (period + 1)%nat).
  { rewrite <- Hsuf, length_skipn. lia. }
  unfold last_diffs at 1. rewrite Hsl.
  replace (period + 1 - period)%nat with 1%nat by lia.
  cbn [diff skipn].
  unfold last_diffs. destruct closes as [|x t]; [discriminate|].
  replace (List.length (x :: t) - period)%nat with (S k) by lia.
  cbn [diff skipn]. symmetry. now apply skipn_diff_from.
Qed.

(** X4.  [compute_rsi] reads the last [period + 1] closes only: the closes
    before them can be dropped. *)
Theorem compute_rsi_last_points (closes : list Q) (period : nat) :
  compute_rsi (skipn (List.length closes - (period + 1)) closes) period =
  compute_rsi closes period.
Proof.
  destruct (Nat.lt_ge_cases (List.length closes) (period + 1)) as [Hs|Hlen].
  { replace (List.length closes - (period + 1))%nat with 0%nat by lia.
    reflexivity. }
  rewrite (compute_rsi_window closes period Hlen).
  rewrite compute_rsi_window by (rewrite length_skipn; lia).
  now rewrite (last_diffs_suffix _ _ Hlen).
Qed.

(** ** More on the alert evaluator *)

Lemma round_half_even_mono (x y : Q) :
  x <= y -> (round_half_even x <= round_half_even y)%Z.
Proof.
  intros Hxy. pose proof (Qfloor_resp_le _ _ Hxy) as Hf.
  destruct (Z.eq_dec (Qfloor x) (Qfloor y)) as [E|Hne].
  - unfold round_half_even. rewrite <- E.
    destruct (Qcompare (x - inject_Z (Qfloor x)) (1 # 2)) eqn:Cx;
      destruct (Qcompare (y - inject_Z (Qfloor x)) (1 # 2)) eqn:Cy;
      destruct (Z.even (Qfloor x)); try lia; exfalso;
      first [apply Qeq_alt in Cx | apply Qlt_alt in Cx | apply Qgt_alt in Cx];
      first [apply Qeq_alt in Cy | apply Qlt_alt in Cy | apply Qgt_alt in Cy];
      lra.
  - destruct (round_half_even_cases x) as [Ex|[Ex _]];
      destruct (round_half_even_cases y) as [Ey|[Ey _]];
      rewrite Ex, Ey; lia.
Qed.

Lemma round2_mono (x y : Q) : x <= y -> round2 x <= round2 y.
Proof.
  intros H. unfold round2.
  apply Qmult_le_compat_r; [|discriminate].
  rewrite <- Zle_Qle. apply round_half_even_mono.
  apply Qmult_le_compat_r; [exact H|discriminate].
Qed.

(** X5.  For a frame with positive highs whose last close is not above the
    high of its day, the reported price is not above the reported high and
    the reported percentage is not positive; it is at least -100 when the
    close is not negative. *)
Theorem reported_drop_is_not_positive cfg env sym data r last_row
  (Hdata : get_stock_data cfg env sym = Some data)
  (Hres : check_stock_alert cfg env sym = Returned (Some r))
  (Hlast : iloc_last data = Some last_row)
  (Hpos : forall row, In row data -> 0 < High row)
  (Hday : Close last_row <= High last_row) :
  current_price r <= recent_high r /\
  pct_from_high r <= 0 /\
  (0 <= Close last_row -> - (100) <= pct_from_high r).
Proof.
  evaluate_frame Hdata current high row Hc Hh Hr Heq.
  rewrite Heq in Hres. injection Hres as <-. cbn.
  rewrite iloc_last_map, Hlast in Hc. injection Hc as <-.
  assert (Hle : Close last_row <= high).
  { eapply Qle_trans; [exact Hday|].
    apply (series_max_ub _ _ _ Hh), in_map, iloc_last_In, Hlast. }
  assert (Hhigh : 0 < high).
  { pose proof (series_max_In _ _ Hh) as Hin.
    apply in_map_iff in Hin. destruct Hin as [r' [<- Hin]]. auto. }
  assert (Hpct : (Close last_row - high) / high <= 0).
  { apply Qle_shift_div_r; [exact Hhigh|]. lra. }
  split; [now apply round2_mono|]. split.
  - apply round2_nonpos. lra.
  - intros Hc0.
    assert (Hlow : - (1) <= (Close last_row - high) / high).
    { apply Qle_shift_div_l; [exact Hhigh|]. lra. }
    pose proof (round2_ge (-10000) ((Close last_row - high) / high * 100)) as G.
    assert (E : inject_Z (-10000) / 100 == - (100)) by reflexivity.
    rewrite E in G. apply G. lra.
Qed.

Lemma reported_drop_is_not_positive_witness :
  get_stock_data default_config sample_env "AAA" = Some tie_frame /\
  check_stock_alert default_config sample_env "AAA" =
    Returned (Some tie_result) /\
  iloc_last tie_frame = Some (mkRow "2024-03-14" 93 90) /\
  (forall row, In row tie_frame -> 0 < High row) /\
  90 <= 93 /\
  current_price tie_result <= recent_high tie_result /\
  pct_from_high tie_result <= 0.
Proof.
  assert (Hpos : forall row, In row tie_frame -> 0 < High row).
  { intros row Hin. simpl in Hin.
    repeat (destruct Hin as [<-|Hin]; [reflexivity|]). destruct Hin. }
  assert (Hday : 90 <= 93) by discriminate.
  split; [reflexivity|]. split; [reflexivity|]. split; [reflexivity|].
  split; [exact Hpos|]. split; [exact Hday|].
  destruct (reported_drop_is_not_positive default_config sample_env "AAA"
              tie_frame tie_result (mkRow "2024-03-14" 93 90)
              eq_refl eq_refl eq_refl Hpos Hday) as [H1 [H2 _]].
  split; assumption.
Defined.

(** X6.  An alert at a threshold is an alert at every threshold of smaller
    absolute value. *)
Theorem alert_is_monotone_in_threshold cfg env sym (t1 t2 : Q) r1 r2
  (Hle : Qabs t1 <= Qabs t2)
  (H1 : check_stock_alert (set_alert_threshold t1 cfg) env sym
        = Returned (Some r1))
  (H2 : check_stock_alert (set_alert_threshold t2 cfg) env sym
        = Returned (Some r2))
  (Halert : is_alert r2 = true) :
  is_alert r1 = true /\
  pct_from_high r1 = pct_from_high r2 /\
  date_of_high r1 = date_of_high r2 /\
  rsi r1 = rsi r2.
Proof.
  unfold check_stock_alert, get_stock_data in H1, H2. cbn in H1, H2.
  destruct (history env sym _) as [|[|r0 d]]; try discriminate.
  destruct (iloc_last (map Close (r0 :: d))) as [current|]; [|discriminate].
  destruct (series_max (map High (r0 :: d))) as [high|]; [|discriminate].
  destruct (iloc_last (rows_with_high high (r0 :: d))) as [row|];
    [|discriminate].
  injection H1 as <-. injection H2 as <-. cbn in *.
  repeat split; try reflexivity.
  apply Qle_bool_iff. apply Qle_bool_iff in Halert. lra.
Qed.

Lemma alert_is_monotone_in_threshold_witness :
  Qabs 0.03 <= Qabs (- 0.05) /\
  check_stock_alert (set_alert_threshold 0.03 default_config) sample_env "AAA"
    = Returned (Some tie_result) /\
  check_stock_alert (set_alert_threshold (- 0.05) default_config) sample_env
                    "AAA"
    = Returned (Some tie_result) /\
  is_alert tie_result = true.
Proof.
  assert (Hle : Qabs 0.03 <= Qabs (- 0.05)) by discriminate.
  split; [exact Hle|]. split; [reflexivity|]. split; [reflexivity|].
  exact (proj1 (alert_is_monotone_in_threshold default_config sample_env "AAA"
                  0.03 (- 0.05) tie_result tie_result Hle
                  eq_refl eq_refl eq_refl)).
Defined.

(** ** More on the scan *)

Lemma send_email_alert_frame env alerts st :
  let st' := snd (send_email_alert env alerts st) in
  config st' = config st /\
  monitoring st' = monitoring st /\
  monitor_thread st' = monitor_thread st /\
  last_scan_results st' = last_scan_results st /\
  last_scan_time st' = last_scan_time st /\
  config_dumps st' = config_dumps st /\
  threads_started st' = threads_started st.
Proof.
  unfold send_email_alert, send_email_alert_body. cbn.
  destruct (email_settings (config st)) as [ec|]; cbn; [|repeat split].
  destruct (negb (get (enabled ec) false) || _); cbn; repeat split.
Qed.

Lemma scan_portfolio_state env st :
  let results := flat_map (evaluated (config st) env) (stored_stocks st) in
  let st' := snd (scan_portfolio env st) in
  fst (scan_portfolio env st) = Returned (filter is_alert results, results) /\
  config st' = config st /\
  monitoring st' = monitoring st /\
  monitor_thread st' = monitor_thread st /\
  last_scan_results st' = results /\
  last_scan_time st' = Some (now env) /\
  config_dumps st' = config_dumps st /\
  threads_started st' = threads_started st.
Proof.
  unfold scan_portfolio, stored_stocks. rewrite scan_loop_returns. cbn [app].
  set (results := flat_map _ _). cbn zeta.
  destruct (nonempty (filter is_alert results) && email_enabled (config st)).
  - pose proof (send_email_alert_frame env (filter is_alert results)
                  (publish_scan results (now env) st)) as H.
    cbn zeta in H. cbn [fst snd].
    destruct H as [H1 [H2 [H3 [H4 [H5 [H6 H7]]]]]].
    rewrite H1, H2, H3, H4, H5, H6, H7. cbn. repeat split.
  - cbn. repeat split.
Qed.

(** X7.  A scan reads the configuration and the scheduler but never changes
    them: the configuration, the running flag, the thread and the config
    file are as before. *)
Theorem scan_changes_only_the_snapshot env st :
  config (snd (scan_portfolio env st)) = config st /\
  monitoring (snd (scan_portfolio env st)) = monitoring st /\
  monitor_thread (snd (scan_portfolio env st)) = monitor_thread st /\
  threads_started (snd (scan_portfolio env st)) = threads_started st /\
  config_dumps (snd (scan_portfolio env st)) = config_dumps st.
Proof.
  pose proof (scan_portfolio_state env st) as H. cbn zeta in H.
  destruct H as [_ [H1 [H2 [H3 [_ [_ [H6 H7]]]]]]]. repeat split; assumption.
Qed.

(** X8.  A second scan with the same market data returns the same alerts and
    results as the first and publishes the same snapshot. *)
Theorem scan_twice_same_results env st :
  fst (scan_portfolio env (snd (scan_portfolio env st))) =
    fst (scan_portfolio env st) /\
  last_scan_results (snd (scan_portfolio env (snd (scan_portfolio env st)))) =
    last_scan_results (snd (scan_portfolio env st)).
Proof.
  pose proof (scan_portfolio_state env st) as H. cbn zeta in H.
  destruct H as [H0 [H1 [_ [_ [H4 _]]]]].
  pose proof (scan_portfolio_state env (snd (scan_portfolio env st))) as G.
  cbn zeta in G. destruct G as [G0 [_ [_ [_ [G4 _]]]]].
  unfold stored_stocks in *. rewrite H1 in G0, G4.
  rewrite G0, H0, G4, H4. split; reflexivity.
Qed.

Lemma evaluated_at_most_one cfg env sym :
  (List.length (evaluated cfg env sym) <= 1)%nat.
Proof.
  unfold evaluated.
  destruct (check_stock_alert cfg env sym) as [[r|]|]; simpl; lia.
Qed.

Lemma flat_map_evaluated_length cfg env symbols :
  (List.length (flat_map (evaluated cfg env) symbols)
   <= List.length symbols)%nat.
Proof.
  induction symbols as [|sym rest IH]; simpl; [lia|].
  rewrite length_app. pose proof (evaluated_at_most_one cfg env sym). lia.
Qed.

Lemma filter_length_le {A : Type} (p : A -> bool) (l : list A) :
  (List.length (filter p l) <= List.length l)%nat.
Proof.
  induction l as [|x l IH]; simpl; [lia|]. destruct (p x); simpl; lia.
Qed.

(** X9.  Right after a scan [/api/status] reports the time of that scan, the
    number of alerts the scan returned and the number of configured
    symbols; the alerts are never more than the results, nor the results
    more than the symbols. *)
Theorem api_status_after_scan env st alerts results
  (Hscan : fst (scan_portfolio env st) = Returned (alerts, results)) :
  let report := api_status (snd (scan_portfolio env st)) in
  status_last_scan_time report = Some (now env) /\
  alert_count report = List.length alerts /\
  stock_count report = List.length (stored_stocks st) /\
  (List.length alerts <= List.length results)%nat /\
  (List.length results <= List.length (stored_stocks st))%nat /\
  (alert_count report <= stock_count report)%nat.
Proof.
  pose proof (scan_portfolio_state env st) as H. cbn zeta in H.
  destruct H as [H0 [H1 [_ [_ [H4 [H5 _]]]]]].
  rewrite H0 in Hscan. injection Hscan as <- <-.
  cbn zeta. unfold api_status. cbn. rewrite H1, H4, H5.
  fold (stored_stocks st).
  pose proof (flat_map_evaluated_length (config st) env (stored_stocks st)).
  pose proof (filter_length_le is_alert
                (flat_map (evaluated (config st) env) (stored_stocks st))).
  repeat split; try reflexivity; lia.
Qed.

Lemma api_status_after_scan_witness :
  fst (scan_portfolio sample_env (initial_state mail_config)) =
    Returned ([tie_result], [tie_result]) /\
  alert_count (api_status (snd (scan_portfolio sample_env
                                  (initial_state mail_config)))) = 1%nat.
Proof.
  split; [reflexivity|].
  exact (proj1 (proj2 (api_status_after_scan sample_env
                         (initial_state mail_config)
                         [tie_result] [tie_result] eq_refl))).
Defined.

Lemma scan_notifier_calls env st :
  notifier_calls (snd (scan_portfolio env st)) =
  notifier_calls st ++
  (let alerts := filter is_alert
                   (flat_map (evaluated (config st) env) (stored_stocks st)) in
   if nonempty alerts && email_enabled (config st) then [alerts] else []).
Proof.
  unfold scan_portfolio, stored_stocks. rewrite scan_loop_returns. cbn [app].
  set (results := flat_map _ _). cbn zeta.
  destruct (nonempty (filter is_alert results) && email_enabled (config st)).
  - unfold send_email_alert, send_email_alert_body. cbn.
    destruct (email_settings (config st)) as [ec|]; cbn; [|reflexivity].
    destruct (negb (get (enabled ec) false) || _); reflexivity.
  - cbn. now rewrite app_nil_r.
Qed.

(** X10.  Alerts are not remembered from one scan to the next: while the alerts
    last and email is enabled, every scan calls the notifier again with
    them. *)
Theorem every_scan_notifies_again env st alerts results
  (Hscan : fst (scan_portfolio env st) = Returned (alerts, results))
  (Halerts : alerts <> [])
  (Henabled : email_enabled (config st) = true) :
  notifier_calls (snd (scan_portfolio env (snd (scan_portfolio env st)))) =
  notifier_calls st ++ [alerts; alerts].
Proof.
  pose proof (scan_portfolio_state env st) as H. cbn zeta in H.
  destruct H as [H0 [H1 _]].
  rewrite H0 in Hscan. injection Hscan as Ha _.
  rewrite (scan_notifier_calls env (snd (scan_portfolio env st))).
  rewrite (scan_notifier_calls env st).
  unfold stored_stocks in *. rewrite H1. cbn zeta. rewrite Ha, Henabled.
  destruct alerts as [|a l]; [congruence|]. cbn.
  now rewrite <- app_assoc.
Qed.

Lemma every_scan_notifies_again_witness :
  fst (scan_portfolio sample_env (initial_state mail_config)) =
    Returned ([tie_result], [tie_result]) /\
  [tie_result] <> [] /\
  email_enabled (config (initial_state mail_config)) = true /\
  notifier_calls
    (snd (scan_portfolio sample_env
            (snd (scan_portfolio sample_env (initial_state mail_config))))) =
  [[tie_result]; [tie_result]].
Proof.
  assert (Hne : [tie_result] <> []) by discriminate.
  split; [reflexivity|]. split; [exact Hne|]. split; [reflexivity|].
  exact (every_scan_notifies_again sample_env (initial_state mail_config)
           [tie_result] [tie_result] eq_refl Hne eq_refl).
Defined.

(** ** The notifier *)

(** X11.  [send_email_alert] returns [True] exactly when email is enabled, the
    sender, password and recipient keys are present and the SMTP session
    for the one message that lists all the alerts succeeds; with email
    disabled or a key missing no session is opened. *)
Theorem send_email_alert_true_iff_sent env alerts st :
  (fst (send_email_alert env alerts st) = true <->
   exists ec sender recipient,
     email_settings (config st) = Some ec /\
     enabled ec = Some true /\
     sender_email ec = Some sender /\
     recipient_email ec = Some recipient /\
     sender_password ec <> None /\
     smtp_session env
       (mkMessage sender recipient (List.length alerts) alerts (now env))
     = true /\
     smtp_sessions (snd (send_email_alert env alerts st)) =
     smtp_sessions st ++
     [mkMessage sender recipient (List.length alerts) alerts (now env)]) /\
  ((forall ec, email_settings (config st) = Some ec ->
               enabled ec = Some true /\ sender_email ec <> None /\
               sender_password ec <> None /\ recipient_email ec <> None ->
               False) ->
   fst (send_email_alert env alerts st) = false /\
   smtp_sessions (snd (send_email_alert env alerts st)) = smtp_sessions st).
Proof.
  unfold send_email_alert, send_email_alert_body. cbn.
  destruct (email_settings (config st)) as [ec|] eqn:Hec.
  2:{ split.
      - split; [discriminate|]. intros [ec [s [r [H _]]]]. discriminate.
      - intros _. split; reflexivity. }
  destruct ec as [en server port sender pwd recipient]. cbn.
  destruct en as [[|]|], sender as [sender|], pwd as [pwd|],
           recipient as [recipient|]; cbn;
    try (split;
         [ split; [discriminate|];
           intros [ec' [s' [r' [H [He [Hs [Hr [Hp _]]]]]]]];
           injection H as <-; cbn in *; congruence
         | intros _; split; reflexivity ]).
  split.
  - split.
    + intros Hok. eexists _, sender, recipient.
      repeat split; try reflexivity; [discriminate|exact Hok].
    + intros [ec' [s' [r' [H [He [Hs [Hr [Hp [Hok _]]]]]]]]].
      injection H as <-. cbn in *.
      injection Hs as <-. injection Hr as <-. exact Hok.
  - intros Hno. exfalso. apply (Hno _ eq_refl). cbn.
    repeat split; discriminate.
Qed.

(** ** The thesis entries *)

Lemma update_at_length {A : Type} (n : nat) (f : A -> A) (l : list A) :
  List.length (update_at n f l) = List.length l.
Proof.
  revert n; induction l as [|x l IH]; intros [|n]; simpl; auto.
Qed.

Lemma nth_error_update_at_eq {A : Type} (n : nat) (f : A -> A) (l : list A) :
  nth_error (update_at n f l) n = option_map f (nth_error l n).
Proof.
  revert n; induction l as [|x l IH]; intros [|n]; simpl; auto.
Qed.

Lemma nth_error_update_at_neq {A : Type} (n m : nat) (f : A -> A)
  (l : list A) :
  n <> m -> nth_error (update_at n f l) m = nth_error l m.
Proof.
  revert n m; induction l as [|x l IH]; intros [|n] [|m] H; simpl; auto.
  congruence.
Qed.

Lemma update_at_fixed {A : Type} (n : nat) (f : A -> A) (l : list A) (x : A) :
  nth_error l n = Some x -> f x = x -> update_at n f l = l.
Proof.
  revert n; induction l as [|y l IH]; intros [|n] H Hf; simpl in *;
    try discriminate.
  - injection H as ->. now rewrite Hf.
  - f_equal. now apply IH.
Qed.

Lemma Forall_update_at {A : Type} (P : A -> Prop) (n : nat) (f : A -> A)
  (l : list A) :
  Forall P l -> (forall x, P (f x)) -> Forall P (update_at n f l).
Proof.
  intros H Hf. revert n. induction H as [|x l Hx Hl IH]; intros [|n]; simpl;
    try constructor; auto.
Qed.

Lemma pop_at_length {A : Type} (n : nat) (l : list A) :
  (n < List.length l)%nat ->
  List.length (pop_at n l) = (List.length l - 1)%nat.
Proof.
  intros H. unfold pop_at.
  rewrite length_app, length_firstn, length_skipn. lia.
Qed.

Lemma nth_error_pop_at_before {A : Type} (n j : nat) (l : list A) :
  (j < n)%nat -> (n < List.length l)%nat ->
  nth_error (pop_at n l) j = nth_error l j.
Proof.
  intros Hj Hn. unfold pop_at.
  rewrite nth_error_app1 by (rewrite length_firstn; lia).
  rewrite nth_error_firstn.
  destruct (j <? n)%nat eqn:E; [reflexivity|]. apply Nat.ltb_ge in E. lia.
Qed.

Lemma nth_error_pop_at_after {A : Type} (n j : nat) (l : list A) :
  (n <= j)%nat -> (n < List.length l)%nat ->
  nth_error (pop_at n l) j = nth_error l (S j).
Proof.
  intros Hj Hn. unfold pop_at.
  rewrite nth_error_app2 by (rewrite length_firstn; lia).
  rewrite length_firstn, nth_error_skipn. f_equal. lia.
Qed.

Lemma pop_at_app_last {A : Type} (l : list A) (x : A) :
  pop_at (List.length l) (l ++ [x]) = l.
Proof.
  unfold pop_at.
  rewrite firstn_app, firstn_all, Nat.sub_diag. cbn [firstn].
  rewrite skipn_all2 by (rewrite length_app; simpl; lia).
  now rewrite !app_nil_r.
Qed.

Lemma valid_index_true {A : Type} (index : Z) (entries : list A) :
  valid_index index entries = true <->
  (0 <= index < Z.of_nat (List.length entries))%Z.
Proof.
  unfold valid_index. rewrite andb_true_iff, Z.leb_le, Z.ltb_lt. tauto.
Qed.

Lemma valid_index_nth {A : Type} (index : Z) (entries : list A) :
  valid_index index entries = true ->
  exists e, nth_error entries (Z.to_nat index) = Some e.
Proof.
  intros H. apply valid_index_true in H.
  destruct (nth_error entries (Z.to_nat index)) as [e|] eqn:E; [eauto|].
  apply nth_error_None in E. lia.
Qed.

Lemma normalized_ticker (raw : string) :
  truthy (upper (strip raw)) = true ->
  upper (upper (strip raw)) = upper (strip raw) /\
  strip (upper (strip raw)) = upper (strip raw) /\
  upper (strip raw) <> "".
Proof.
  intros H. repeat split; [autorewrite with normalise; reflexivity ..|].
  intros E. rewrite E in H. discriminate.
Qed.

(** X12.  A blank ticker (empty after trimming, or absent) is refused by
    [add_thesis] and by [update_thesis] at every index: the state is
    unchanged and nothing is written. *)
Theorem blank_ticker_is_refused (stamp : string) (index : Z)
  (form : ThesisForm) (st : State)
  (Hblank : strip (get (form_ticker form) "") = "") :
  add_thesis stamp form st = (TickerIsRequired, st) /\
  update_thesis index form st = (TickerRequired, st).
Proof.
  unfold add_thesis, update_thesis. rewrite Hblank. split; reflexivity.
Qed.

Lemma blank_ticker_is_refused_witness :
  strip (get (form_ticker (mkThesisForm (Some "   ") (Some "x") None)) "") = ""
  /\
  update_thesis 0 (mkThesisForm (Some "   ") (Some "x") None) sample_state
  = (TickerRequired, sample_state).
Proof.
  assert (Hblank :
    strip (get (form_ticker (mkThesisForm (Some "   ") (Some "x") None)) "")
    = "") by reflexivity.
  split; [exact Hblank|].
  exact (proj2 (blank_ticker_is_refused "2024-03-01 10:00:00" 0
                  (mkThesisForm (Some "   ") (Some "x") None) sample_state
                  Hblank)).
Defined.

Lemma add_thesis_saved (stamp : string) (form : ThesisForm) (st : State) :
  strip (get (form_ticker form) "") <> "" ->
  add_thesis stamp form st =
  (ThesisSaved,
   save_config
     (set_config
        (set_thesis_entries
           (stored_theses st ++
            [mkThesisEntry (upper (strip (get (form_ticker form) "")))
                           (strip (get (form_thesis form) ""))
                           (strip (get (form_trigger form) "")) stamp])
           (config st)) st)).
Proof.
  intros Hticker. unfold add_thesis.
  destruct (truthy (upper (strip (get (form_ticker form) "")))) eqn:E;
    [reflexivity|].
  exfalso. destruct (strip (get (form_ticker form) "")); [congruence|].
  discriminate.
Qed.

(** X13.  With a ticker that is not blank, [add_thesis] appends one entry after
    the stored ones: its ticker is the trimmed, upper-cased text, its
    texts are trimmed, its time is the clock's; the new configuration is
    written to the file. *)
Theorem add_thesis_appends (stamp : string) (form : ThesisForm) (st : State)
  (Hticker : strip (get (form_ticker form) "") <> "") :
  let st' := snd (add_thesis stamp form st) in
  fst (add_thesis stamp form st) = ThesisSaved /\
  stored_theses st' =
    stored_theses st ++
    [mkThesisEntry (upper (strip (get (form_ticker form) "")))
                   (strip (get (form_thesis form) ""))
                   (strip (get (form_trigger form) "")) stamp] /\
  config_dumps st' = config_dumps st ++ [config st'] /\
  stored_stocks st' = stored_stocks st.
Proof.
  unfold add_thesis.
  destruct (truthy (upper (strip (get (form_ticker form) "")))) eqn:E.
  - cbn. repeat split.
  - exfalso. destruct (strip (get (form_ticker form) "")); [congruence|].
    discriminate.
Qed.

Lemma add_thesis_appends_witness :
  strip (get (form_ticker sample_form) "") <> "" /\
  stored_theses (snd (add_thesis "2024-03-02 09:00:00" sample_form
                                 sample_state)) =
  [sample_entry;
   mkThesisEntry "AAA" "still cheap" "below 85" "2024-03-02 09:00:00"].
Proof.
  assert (Hticker : strip (get (form_ticker sample_form) "") <> "")
    by discriminate.
  split; [exact Hticker|].
  exact (proj1 (proj2 (add_thesis_appends "2024-03-02 09:00:00" sample_form
                         sample_state Hticker))).
Defined.

(** X14.  Adding an entry and deleting the last position gives back the stored
    entries, and the flash names the ticker that was added. *)
Theorem add_then_delete_last (stamp : string) (form : ThesisForm) (st : State)
  (Hticker : strip (get (form_ticker form) "") <> "") :
  let st1 := snd (add_thesis stamp form st) in
  let last_index := Z.of_nat (List.length (stored_theses st)) in
  stored_theses (snd (delete_thesis last_index st1)) = stored_theses st /\
  fst (delete_thesis last_index st1) =
    RemovedThesis (upper (strip (get (form_ticker form) ""))).
Proof.
  cbn zeta.
  assert (Hst : stored_theses (snd (add_thesis stamp form st)) =
                stored_theses st ++
                [mkThesisEntry (upper (strip (get (form_ticker form) "")))
                               (strip (get (form_thesis form) ""))
                               (strip (get (form_trigger form) "")) stamp])
    by (now rewrite (add_thesis_saved stamp form st Hticker)).
  unfold stored_theses in *.
  set (st1 := snd (add_thesis stamp form st)) in *.
  set (entries := get (thesis_entries (config st)) []) in *.
  unfold delete_thesis. rewrite Hst.
  assert (Hv : valid_index (Z.of_nat (List.length entries))
                 (entries ++ [mkThesisEntry
                    (upper (strip (get (form_ticker form) "")))
                    (strip (get (form_thesis form) ""))
                    (strip (get (form_trigger form) "")) stamp]) = true).
  { apply valid_index_true. rewrite length_app. simpl. lia. }
  rewrite Hv, Nat2Z.id.
  rewrite nth_error_app2, Nat.sub_diag by lia. cbn.
  rewrite pop_at_app_last. split; reflexivity.
Qed.

Lemma add_then_delete_last_witness :
  strip (get (form_ticker sample_form) "") <> "" /\
  stored_theses
    (snd (delete_thesis 1 (snd (add_thesis "2024-03-02 09:00:00" sample_form
                                           sample_state)))) =
  stored_theses sample_state.
Proof.
  assert (Hticker : strip (get (form_ticker sample_form) "") <> "")
    by discriminate.
  split; [exact Hticker|].
  exact (proj1 (add_then_delete_last "2024-03-02 09:00:00" sample_form
                  sample_state Hticker)).
Defined.

(** X15.  At an index in range and with a ticker that is not blank,
    [update_thesis] rewrites the ticker and the two texts of that entry
    and keeps its creation time; the number of entries and every other
    entry stay as they were, and the configuration is written once. *)
Theorem update_thesis_rewrites_one_entry (index : Z) (form : ThesisForm)
  (st : State)
  (Hin : (0 <= index < Z.of_nat (List.length (stored_theses st)))%Z)
  (Hticker : strip (get (form_ticker form) "") <> "") :
  let st' := snd (update_thesis index form st) in
  fst (update_thesis index form st) = ThesisUpdated /\
  List.length (stored_theses st') = List.length (stored_theses st) /\
  (exists old,
     nth_error (stored_theses st) (Z.to_nat index) = Some old /\
     nth_error (stored_theses st') (Z.to_nat index) =
       Some (mkThesisEntry (upper (strip (get (form_ticker form) "")))
                           (strip (get (form_thesis form) ""))
                           (strip (get (form_trigger form) ""))
                           (created_at old))) /\
  (forall j, j <> Z.to_nat index ->
             nth_error (stored_theses st') j = nth_error (stored_theses st) j)
  /\
  config_dumps st' = config_dumps st ++ [config st'].
Proof.
  cbn zeta. unfold update_thesis, stored_theses in *.
  destruct (truthy (upper (strip (get (form_ticker form) "")))) eqn:E.
  2:{ exfalso. destruct (strip (get (form_ticker form) "")); [congruence|].
      discriminate. }
  cbn [negb].
  pose proof (proj2 (valid_index_true _ _) Hin) as Hv. rewrite Hv. cbn.
  destruct (valid_index_nth _ _ Hv) as [old Hold].
  split; [reflexivity|]. split; [apply update_at_length|]. split.
  - exists old. split; [exact Hold|].
    now rewrite nth_error_update_at_eq, Hold.
  - split; [|reflexivity].
    intros j Hj. apply nth_error_update_at_neq. congruence.
Qed.

Lemma update_thesis_rewrites_one_entry_witness :
  (0 <= 0 < Z.of_nat (List.length (stored_theses sample_state)))%Z /\
  strip (get (form_ticker sample_form) "") <> "" /\
  stored_theses (snd (update_thesis 0 sample_form sample_state)) =
  [mkThesisEntry "AAA" "still cheap" "below 85" "2024-03-01 10:00:00"].
Proof.
  assert (Hin : (0 <= 0 < Z.of_nat (List.length (stored_theses sample_state)))%Z)
    by (cbn; lia).
  assert (Hticker : strip (get (form_ticker sample_form) "") <> "")
    by discriminate.
  split; [exact Hin|]. split; [exact Hticker|].
  destruct (update_thesis_rewrites_one_entry 0 sample_form sample_state
              Hin Hticker) as [_ [Hlen [[old [Hold Hnew]] _]]].
  cbn in Hold. injection Hold as <-.
  destruct (stored_theses (snd (update_thesis 0 sample_form sample_state)))
    as [|e [|e' l]]; cbn in Hlen, Hnew; try discriminate.
  injection Hnew as ->. reflexivity.
Defined.

(** X16.  At an index in range [delete_thesis] removes exactly that entry: the
    entries before it keep their positions, the entries after it move up
    by one, the flash names the ticker removed and the configuration is
    written once. *)
Theorem delete_thesis_removes_one_entry (index : Z) (st : State)
  (Hin : (0 <= index < Z.of_nat (List.length (stored_theses st)))%Z) :
  let st' := snd (delete_thesis index st) in
  (exists removed,
     nth_error (stored_theses st) (Z.to_nat index) = Some removed /\
     fst (delete_thesis index st) = RemovedThesis (ticker removed)) /\
  List.length (stored_theses st') = (List.length (stored_theses st) - 1)%nat /\
  (forall j, (j < Z.to_nat index)%nat ->
             nth_error (stored_theses st') j = nth_error (stored_theses st) j)
  /\
  (forall j, (Z.to_nat index <= j)%nat ->
             nth_error (stored_theses st') j =
             nth_error (stored_theses st) (S j)) /\
  config_dumps st' = config_dumps st ++ [config st'].
Proof.
  cbn zeta. unfold delete_thesis, stored_theses in *.
  pose proof (proj2 (valid_index_true _ _) Hin) as Hv. rewrite Hv.
  destruct (valid_index_nth _ _ Hv) as [removed Hrem]. rewrite Hrem. cbn.
  assert (Hn : (Z.to_nat index
                < List.length (get (thesis_entries (config st)) []))%nat)
    by lia.
  split; [exists removed; split; reflexivity|].
  split; [now apply pop_at_length|].
  split; [intros j Hj; now apply nth_error_pop_at_before|].
  split; [intros j Hj; now apply nth_error_pop_at_after|reflexivity].
Qed.

Lemma delete_thesis_removes_one_entry_witness :
  (0 <= 0 < Z.of_nat (List.length (stored_theses sample_state)))%Z /\
  List.length (stored_theses (snd (delete_thesis 0 sample_state))) = 0%nat.
Proof.
  assert (Hin : (0 <= 0 < Z.of_nat (List.length (stored_theses sample_state)))%Z)
    by (cbn; lia).
  split; [exact Hin|].
  exact (proj1 (proj2 (delete_thesis_removes_one_entry 0 sample_state Hin))).
Defined.

Lemma Forall_pop_at {A : Type} (P : A -> Prop) (n : nat) (l : list A) :
  Forall P l -> Forall P (pop_at n l).
Proof.
  intros H. unfold pop_at. apply Forall_app.
  split; [now apply Forall_firstn|now apply Forall_skipn].
Qed.

Lemma strip_get_idem (field : option string) :
  strip (strip (get field "")) = strip (get field "").
Proof. apply strip_idem. Qed.

(** X17.  The three thesis handlers keep the stored entries normalized: when
    every stored entry has an upper-case, trimmed, non-empty ticker and
    trimmed texts, this is so after [add_thesis], [update_thesis] and
    [delete_thesis], whatever the form, the index and the outcome. *)
Theorem thesis_handlers_keep_entries_normalized (stamp : string) (index : Z)
  (form : ThesisForm) (st : State)
  (Hinv : Forall normalized_entry (stored_theses st)) :
  Forall normalized_entry (stored_theses (snd (add_thesis stamp form st))) /\
  Forall normalized_entry (stored_theses (snd (update_thesis index form st)))
  /\
  Forall normalized_entry (stored_theses (snd (delete_thesis index st))).
Proof.
  unfold stored_theses in *.
  assert (Hnew : forall created,
            truthy (upper (strip (get (form_ticker form) ""))) = true ->
            normalized_entry
              (mkThesisEntry (upper (strip (get (form_ticker form) "")))
                             (strip (get (form_thesis form) ""))
                             (strip (get (form_trigger form) "")) created)).
  { intros created Ht.
    destruct (normalized_ticker _ Ht) as [H1 [H2 H3]].
    unfold normalized_entry. cbn [ticker thesis trigger].
    split; [exact H1|]. split; [exact H2|]. split; [exact H3|].
    split; apply strip_get_idem. }
  split; [|split].
  - unfold add_thesis.
    destruct (truthy (upper (strip (get (form_ticker form) "")))) eqn:E;
      cbn; [|exact Hinv].
    apply Forall_app. split; [exact Hinv|]. constructor; [auto|constructor].
  - unfold update_thesis.
    destruct (truthy (upper (strip (get (form_ticker form) "")))) eqn:E;
      cbn; [|exact Hinv].
    destruct (valid_index index _); cbn; [|exact Hinv].
    apply Forall_update_at; [exact Hinv|]. intros e. now apply Hnew.
  - unfold delete_thesis.
    destruct (valid_index index _); cbn; [|exact Hinv].
    destruct (nth_error _ _); cbn; [|exact Hinv].
    now apply Forall_pop_at.
Qed.

Lemma thesis_handlers_keep_entries_normalized_witness :
  Forall normalized_entry (stored_theses sample_state) /\
  Forall normalized_entry
    (stored_theses (snd (update_thesis 0 sample_form sample_state))).
Proof.
  assert (Hinv : Forall normalized_entry (stored_theses sample_state)).
  { constructor; [|constructor].
    unfold normalized_entry. cbn. repeat split. discriminate. }
  split; [exact Hinv|].
  exact (proj1 (proj2 (thesis_handlers_keep_entries_normalized
                         "2024-03-02 09:00:00" 0 sample_form sample_state
                         Hinv))).
Defined.

(** X18.  The edit round trip: when [thesis_page] selects an entry for the
    index [edit] and the entry is normalized, submitting the form as the
    page filled it leaves the stored entries as they were. *)
Theorem unchanged_edit_form_changes_no_entry (index : Z) (entry : ThesisEntry)
  (st : State)
  (Hpage : snd (thesis_page (Some (IntOf index)) st) = Some (index, entry))
  (Hnorm : normalized_entry entry) :
  fst (update_thesis index (prefilled_form entry) st) = ThesisUpdated /\
  stored_theses (snd (update_thesis index (prefilled_form entry) st)) =
  stored_theses st.
Proof.
  unfold thesis_page in Hpage. cbn in Hpage.
  destruct (valid_index index _) eqn:Hv; [|discriminate].
  destruct (nth_error _ _) as [e|] eqn:He; [|discriminate].
  injection Hpage as <-.
  destruct Hnorm as [Hu [Hs [Hne [Hth Htr]]]].
  unfold update_thesis, prefilled_form, stored_theses. cbn [get form_ticker
    form_thesis form_trigger].
  rewrite Hs, Hu, Hth, Htr.
  destruct (ticker e) eqn:Ht; [congruence|]. cbn [truthy negb].
  rewrite Hv. cbn. split; [reflexivity|].
  apply (update_at_fixed _ _ _ e He).
  destruct e; cbn in *. now subst.
Qed.

Lemma unchanged_edit_form_changes_no_entry_witness :
  snd (thesis_page (Some (IntOf 0)) sample_state) = Some (0%Z, sample_entry) /\
  normalized_entry sample_entry /\
  stored_theses (snd (update_thesis 0 (prefilled_form sample_entry)
                                    sample_state)) =
  stored_theses sample_state.
Proof.
  assert (Hnorm : normalized_entry sample_entry).
  { unfold normalized_entry. cbn. repeat split. discriminate. }
  split; [reflexivity|]. split; [exact Hnorm|].
  exact (proj2 (unchanged_edit_form_changes_no_entry 0 sample_entry
                  sample_state eq_refl Hnorm)).
Defined.

(** ** The stock list *)

Lemma replace_char_free (a b : ascii) (s : string) :
  free_of a s = true -> replace_char a b s = s.
Proof.
  induction s as [|x t IH]; simpl; [reflexivity|].
  intros H. apply andb_prop in H. destruct H as [Hx Ht].
  destruct (Ascii.eqb x a); [discriminate|]. now rewrite IH.
Qed.

Lemma replace_char_removes (a b : ascii) (s : string) :
  Ascii.eqb b a = false -> free_of a (replace_char a b s) = true.
Proof.
  intros Hba. induction s as [|x t IH]; simpl; [reflexivity|].
  rewrite IH, andb_true_r.
  destruct (Ascii.eqb x a) eqn:E; [now rewrite Hba|now rewrite E].
Qed.

Lemma split_nonempty (sep : ascii) (s : string) : split sep s <> [].
Proof.
  induction s as [|x t IH]; simpl; [discriminate|].
  destruct (Ascii.eqb x sep); [discriminate|].
  destruct (split sep t); [congruence|discriminate].
Qed.

Lemma split_free (sep : ascii) (s : string) :
  free_of sep s = true -> split sep s = [s].
Proof.
  induction s as [|x t IH]; simpl; [reflexivity|].
  intros H. apply andb_prop in H. destruct H as [Hx Ht].
  destruct (Ascii.eqb x sep); [discriminate|]. now rewrite (IH Ht).
Qed.

Lemma split_append (sep : ascii) (s t : string) :
  free_of sep s = true ->
  split sep (s ++ String sep t) = s :: split sep t.
Proof.
  induction s as [|x s IH]; simpl.
  - intros _. now rewrite Ascii.eqb_refl.
  - intros H. apply andb_prop in H. destruct H as [Hx Hs].
    destruct (Ascii.eqb x sep); [discriminate|]. now rewrite (IH Hs).
Qed.

Lemma split_join_lines (l : list string) :
  l <> [] -> Forall (fun s => free_of newline s = true) l ->
  split newline (join_lines l) = l.
Proof.
  induction l as [|s l IH]; intros Hne Hall; [congruence|].
  inversion Hall as [|? ? Hs Hl]; subst.
  destruct l as [|s' l'].
  - simpl. now apply split_free.
  - cbn [join_lines]. rewrite split_append by exact Hs.
    f_equal. apply IH; [discriminate|exact Hl].
Qed.

Lemma free_of_append (c : ascii) (s t : string) :
  free_of c (s ++ t) = free_of c s && free_of c t.
Proof.
  induction s as [|x s IH]; simpl; [reflexivity|].
  now rewrite IH, andb_assoc.
Qed.

Lemma free_of_join_lines (c : ascii) (l : list string) :
  Ascii.eqb newline c = false ->
  Forall (fun s => free_of c s = true) l ->
  free_of c (join_lines l) = true.
Proof.
  intros Hc. induction 1 as [|s l Hs Hl IH]; [reflexivity|].
  destruct l as [|s' l']; [exact Hs|].
  cbn [join_lines]. rewrite free_of_append, Hs. cbn [free_of andb].
  rewrite Hc. exact IH.
Qed.

(** The pieces of a split hold no separator, and no character the text
    does not hold. *)
Lemma split_pieces_free_of_sep (sep : ascii) (s : string) :
  Forall (fun piece => free_of sep piece = true) (split sep s).
Proof.
  induction s as [|x t IH]; simpl; [repeat constructor|].
  destruct (Ascii.eqb x sep) eqn:E; [constructor; [reflexivity|exact IH]|].
  destruct (split sep t) as [|piece rest].
  - constructor; [simpl; now rewrite E|constructor].
  - inversion IH; subst. constructor; [simpl; rewrite E; assumption|assumption].
Qed.

Lemma split_pieces_free (c sep : ascii) (s : string) :
  free_of c s = true ->
  Forall (fun piece => free_of c piece = true) (split sep s).
Proof.
  induction s as [|x t IH]; simpl; [repeat constructor|].
  intros H. apply andb_prop in H. destruct H as [Hx Ht].
  specialize (IH Ht).
  destruct (Ascii.eqb x sep); [constructor; [reflexivity|exact IH]|].
  destruct (split sep t) as [|piece rest].
  - constructor; [simpl; now rewrite Hx|constructor].
  - inversion IH; subst.
    constructor; [simpl; rewrite Hx; assumption|assumption].
Qed.

Lemma free_of_lstrip (c : ascii) (s : string) :
  free_of c s = true -> free_of c (lstrip s) = true.
Proof.
  induction s as [|x t IH]; simpl; [auto|].
  intros H. destruct (is_space x); [|exact H].
  apply andb_prop in H. apply IH, H.
Qed.

Lemma free_of_rstrip (c : ascii) (s : string) :
  free_of c s = true -> free_of c (rstrip s) = true.
Proof.
  induction s as [|x t IH]; simpl; [auto|].
  intros H. apply andb_prop in H. destruct H as [Hx Ht]. specialize (IH Ht).
  destruct (rstrip t) as [|y t'].
  - destruct (is_space x); [reflexivity|]. simpl. now rewrite Hx.
  - change (negb (Ascii.eqb x c) && free_of c (String y t') = true).
    now rewrite Hx, IH.
Qed.

Lemma free_of_strip (c : ascii) (s : string) :
  free_of c s = true -> free_of c (strip s) = true.
Proof. intros H. unfold strip. now apply free_of_rstrip, free_of_lstrip. Qed.

Lemma upper_char_not_comma (x : ascii) :
  Ascii.eqb (upper_char x) comma = Ascii.eqb x comma.
Proof. destruct x as [[] [] [] [] [] [] [] []]; reflexivity. Qed.

Lemma upper_char_not_newline (x : ascii) :
  Ascii.eqb (upper_char x) newline = Ascii.eqb x newline.
Proof. destruct x as [[] [] [] [] [] [] [] []]; reflexivity. Qed.

Lemma free_of_upper_comma (s : string) :
  free_of comma (upper s) = free_of comma s.
Proof.
  induction s as [|x t IH]; simpl; [reflexivity|].
  now rewrite upper_char_not_comma, IH.
Qed.

Lemma free_of_upper_newline (s : string) :
  free_of newline (upper s) = free_of newline s.
Proof.
  induction s as [|x t IH]; simpl; [reflexivity|].
  now rewrite upper_char_not_newline, IH.
Qed.

Lemma parse_stocks_free_of_separators (stocks_text : string) :
  Forall (fun sym => free_of comma sym = true /\ free_of newline sym = true)
         (parse_stocks stocks_text).
Proof.
  unfold parse_stocks. apply Forall_forall. intros sym Hin.
  apply in_map_iff in Hin. destruct Hin as [piece [<- Hin]].
  apply filter_In in Hin. destruct Hin as [Hin _].
  pose proof (split_pieces_free_of_sep newline
                (replace_char comma newline stocks_text)) as Hnl.
  pose proof (split_pieces_free comma newline
                (replace_char comma newline stocks_text)
                (replace_char_removes comma newline stocks_text eq_refl))
    as Hco.
  rewrite Forall_forall in Hnl, Hco.
  rewrite free_of_upper_comma, free_of_upper_newline.
  split; apply free_of_strip; auto.
Qed.

(** A list of normalized symbols without separators is what the handler
    reads back from its rendering. *)
Lemma parse_stocks_join_lines (l : list string) :
  Forall (fun sym => upper sym = sym /\ strip sym = sym /\ sym <> "") l ->
  Forall (fun sym => free_of comma sym = true /\ free_of newline sym = true) l
  -> parse_stocks (join_lines l) = l.
Proof.
  intros Hnorm Hfree. unfold parse_stocks.
  destruct l as [|s0 l0] eqn:El; [reflexivity|]. rewrite <- El in *.
  assert (Hne : l <> []) by (rewrite El; discriminate). clear El.
  rewrite replace_char_free.
  2:{ apply free_of_join_lines; [reflexivity|].
      eapply Forall_impl; [|exact Hfree]. intros a [H _]. exact H. }
  rewrite split_join_lines; [|exact Hne|].
  2:{ eapply Forall_impl; [|exact Hfree]. intros a [_ H]. exact H. }
  clear Hfree Hne. induction Hnorm as [|s l [Hu [Hs Hn]] _ IH];
    [reflexivity|].
  cbn [filter]. rewrite Hs.
  destruct s as [|c s']; [congruence|]. cbn [truthy map].
  rewrite Hs, Hu. f_equal. exact IH.
Qed.

(** X19.  No stored symbol holds a comma or a line feed, the two characters
    at which [update_stocks] cuts the text.  (Another character inside a
    symbol is kept, a carriage return included.) *)
Theorem stored_symbols_hold_no_separator (form_stocks : option string)
  (st : State) :
  Forall (fun sym => free_of comma sym = true /\ free_of newline sym = true)
         (stored_stocks (snd (update_stocks form_stocks st))).
Proof. apply parse_stocks_free_of_separators. Qed.

(** A carriage return between two letters stays in the symbol. *)
Example carriage_return_is_kept :
  parse_stocks (String "a" (String (ascii_of_nat 13) "b")) =
  [String "A" (String (ascii_of_nat 13) "B")].
Proof. reflexivity. Qed.

(** X20.  The configuration page round trip: submitting the stock list as the
    page renders it (one stored symbol per line) stores the same list
    again. *)
Theorem resubmitting_rendered_stocks_is_identity (form_stocks : option string)
  (st : State) :
  let st1 := snd (update_stocks form_stocks st) in
  stored_stocks
    (snd (update_stocks (Some (join_lines (stored_stocks st1))) st1)) =
  stored_stocks st1.
Proof.
  cbn zeta.
  change (parse_stocks (join_lines (parse_stocks (get form_stocks ""))) =
          parse_stocks (get form_stocks "")).
  apply parse_stocks_join_lines.
  - apply parse_stocks_normalized.
  - apply parse_stocks_free_of_separators.
Qed.

(** ** The settings *)

Lemma round_half_even_near (y : Q) :
  inject_Z (round_half_even y) - y <= 1 # 2 /\
  y - inject_Z (round_half_even y) <= 1 # 2.
Proof.
  pose proof (Qfloor_le y) as Hlo. pose proof (Qlt_floor y) as Hhi.
  rewrite inject_Z_plus in Hhi.
  change (inject_Z 1) with 1 in Hhi.
  unfold round_half_even.
  destruct (Qcompare (y - inject_Z (Qfloor y)) (1 # 2)) eqn:C.
  - apply Qeq_alt in C. destruct (Z.even (Qfloor y)).
    + split; lra.
    + rewrite inject_Z_plus. change (inject_Z 1) with 1. split; lra.
  - apply Qlt_alt in C. split; lra.
  - apply Qgt_alt in C. rewrite inject_Z_plus. change (inject_Z 1) with 1.
    split; lra.
Qed.

(** The quantized value is a multiple of 0.0001 at most 0.00005 away. *)
Lemma quantize4_near (x : Q) :
  quantize4 x * 10000 == inject_Z (round_half_even (x * 10000)) /\
  quantize4 x - x <= 1 # 20000 /\
  x - quantize4 x <= 1 # 20000.
Proof.
  assert (E : quantize4 x * 10000 == inject_Z (round_half_even (x * 10000))).
  { unfold quantize4. field. }
  destruct (round_half_even_near (x * 10000)) as [H1 H2].
  rewrite <- E in H1, H2. split; [exact E|]. split; lra.
Qed.

Lemma asked_percent_get (form : SettingsForm) (p : Q) :
  get (field_alert_threshold form) (DecimalOf 5) = DecimalOf p ->
  asked_percent form = p.
Proof.
  unfold asked_percent.
  destruct (field_alert_threshold form) as [[|q]|]; cbn; intros H;
    try discriminate; now injection H as <-.
Qed.

(** Within the range of [plain_percent] the fraction is quantized without
    an exception. *)
Lemma plain_percent_quantizes (p : Q) :
  plain_percent p -> quantize_raises (p / 100) = false.
Proof.
  intros [_ Hp]. unfold quantize_raises. apply Z.leb_gt.
  destruct (round_half_even_near (p / 100 * 10000)) as [H1 H2].
  generalize dependent (round_half_even (p / 100 * 10000)). intros k H1 H2.
  assert (E : p / 100 * 10000 == p * 100) by field.
  rewrite E in H1, H2.
  apply Qabs_Qle_condition in Hp. destruct Hp as [Hlo Hhi].
  assert (Hk1 : inject_Z k < inject_Z 100000000001).
  { change (inject_Z 100000000001) with (100000000001 # 1). lra. }
  assert (Hk2 : inject_Z (-100000000001) < inject_Z k).
  { change (inject_Z (-100000000001)) with (-100000000001 # 1). lra. }
  rewrite <- Zlt_Qlt in Hk1, Hk2.
  change (10 ^ 28)%Z with 10000000000000000000000000000%Z. lia.
Qed.

(** X21.  When every numeric field converts and the percentage is in the
    range of [plain_percent], [update_settings] succeeds: the stored
    threshold is the asked percentage divided by 100 and rounded to four
    decimals (a multiple of 0.0001 at most 0.00005 away), the new
    configuration is written to the file, and the stock list and the
    thesis entries are untouched. *)
Theorem update_settings_stores_quantized_threshold (form : SettingsForm)
  (st : State) (Hwf : well_formed form)
  (Hplain : plain_percent (asked_percent form)) :
  let st' := snd (update_settings form st) in
  let t := quantize4 (asked_percent form / 100) in
  fst (update_settings form st) = SettingsUpdated /\
  alert_threshold (config st') = Some t /\
  (exists k : Z, t * 10000 == inject_Z k) /\
  t - asked_percent form / 100 <= 1 # 20000 /\
  asked_percent form / 100 - t <= 1 # 20000 /\
  config_dumps st' = config_dumps st ++ [config st'] /\
  stored_stocks st' = stored_stocks st /\
  stored_theses st' = stored_theses st.
Proof.
  destruct Hwf as [Ht [Hd [Hm Hp]]]. cbn zeta. unfold update_settings.
  destruct (get (field_alert_threshold form) (DecimalOf 5)) as [|p] eqn:Et.
  { destruct (field_alert_threshold form) as [[|q]|]; cbn in Et;
      congruence. }
  rewrite (asked_percent_get _ _ Et) in *.
  rewrite (plain_percent_quantizes _ Hplain).
  destruct (get (field_lookback_days form) (IntOf 30)) as [|d] eqn:Ed.
  { destruct (field_lookback_days form) as [[|q]|]; cbn in Ed; congruence. }
  destruct (get (field_scan_interval_minutes form) (IntOf 30)) as [|m] eqn:Em.
  { destruct (field_scan_interval_minutes form) as [[|q]|]; cbn in Em;
      congruence. }
  destruct (get (field_smtp_port form) (IntOf 587)) as [|port] eqn:Ep.
  { destruct (field_smtp_port form) as [[|q]|]; cbn in Ep; congruence. }
  destruct (quantize4_near (p / 100)) as [Hk [H1 H2]].
  cbn. split; [reflexivity|]. split; [reflexivity|].
  split; [eexists; exact Hk|]. repeat split; assumption.
Qed.

Lemma update_settings_stores_quantized_threshold_witness :
  well_formed sample_settings /\
  plain_percent (asked_percent sample_settings) /\
  alert_threshold
    (config (snd (update_settings sample_settings
                    (initial_state default_config)))) =
  Some (quantize4 (5.049 / 100)).
Proof.
  assert (Hwf : well_formed sample_settings).
  { unfold well_formed. cbn. repeat split; discriminate. }
  assert (Hplain : plain_percent (asked_percent sample_settings)).
  { split; [|discriminate].
    exists 5049%Z, (-3)%Z. split; [reflexivity|reflexivity]. }
  split; [exact Hwf|]. split; [exact Hplain|].
  exact (proj1 (proj2 (update_settings_stores_quantized_threshold
                         sample_settings (initial_state default_config)
                         Hwf Hplain))).
Defined.

(** X22.  When a numeric field does not convert, [update_settings] flashes an
    error and writes nothing to the config file; the stock list and the
    thesis entries are untouched. *)
Theorem update_settings_error_writes_nothing (form : SettingsForm)
  (st : State)
  (Hbad : field_alert_threshold form = Some NotADecimal \/
          field_lookback_days form = Some NotAnInt \/
          field_scan_interval_minutes form = Some NotAnInt \/
          field_smtp_port form = Some NotAnInt) :
  let st' := snd (update_settings form st) in
  fst (update_settings form st) = SettingsError /\
  config_dumps st' = config_dumps st /\
  stored_stocks st' = stored_stocks st /\
  stored_theses st' = stored_theses st.
Proof.
  cbn zeta. unfold update_settings.
  destruct (get (field_alert_threshold form) (DecimalOf 5)) as [|p] eqn:Et;
    [repeat split|].
  destruct (quantize_raises (p / 100)); [repeat split|].
  destruct (get (field_lookback_days form) (IntOf 30)) as [|d] eqn:Ed;
    [repeat split|].
  destruct (get (field_scan_interval_minutes form) (IntOf 30)) as [|m] eqn:Em;
    [repeat split|].
  destruct (get (field_smtp_port form) (IntOf 587)) as [|port] eqn:Ep.
  - cbn. destruct (email_settings (config st)); repeat split.
  - exfalso. destruct Hbad as [H|[H|[H|H]]];
      rewrite H in *; cbn in *; discriminate.
Qed.

Lemma update_settings_error_writes_nothing_witness :
  (field_alert_threshold
     (mkSettingsForm (Some NotADecimal) None None None None None None None
                     None None) = Some NotADecimal \/
   field_lookback_days
     (mkSettingsForm (Some NotADecimal) None None None None None None None
                     None None) = Some NotAnInt \/
   field_scan_interval_minutes
     (mkSettingsForm (Some NotADecimal) None None None None None None None
                     None None) = Some NotAnInt \/
   field_smtp_port
     (mkSettingsForm (Some NotADecimal) None None None None None None None
                     None None) = Some NotAnInt) /\
  fst (update_settings
         (mkSettingsForm (Some NotADecimal) None None None None None None None
                         None None) sample_state) = SettingsError.
Proof.
  assert (Hbad :
    field_alert_threshold
      (mkSettingsForm (Some NotADecimal) None None None None None None None
                      None None) = Some NotADecimal \/
    field_lookback_days
      (mkSettingsForm (Some NotADecimal) None None None None None None None
                      None None) = Some NotAnInt \/
    field_scan_interval_minutes
      (mkSettingsForm (Some NotADecimal) None None None None None None None
                      None None) = Some NotAnInt \/
    field_smtp_port
      (mkSettingsForm (Some NotADecimal) None None None None None None None
                      None None) = Some NotAnInt) by (left; reflexivity).
  split; [exact Hbad|].
  exact (proj1 (update_settings_error_writes_nothing _ sample_state Hbad)).
Defined.

(** X23.  The update is not atomic.  When the threshold (a percentage in the
    range of [plain_percent]), the lookback and the interval convert and
    the SMTP port does not, the handler fails after its assignments: the
    new threshold, lookback and interval are in the configuration in
    memory, and so are the new email keys when the configuration had
    email settings, while the config file is not written. *)
Theorem update_settings_fails_after_assignments (form : SettingsForm)
  (st : State) (p : Q) (d m : Z)
  (Ht : get (field_alert_threshold form) (DecimalOf 5) = DecimalOf p)
  (Hplain : plain_percent p)
  (Hd : get (field_lookback_days form) (IntOf 30) = IntOf d)
  (Hm : get (field_scan_interval_minutes form) (IntOf 30) = IntOf m)
  (Hport : field_smtp_port form = Some NotAnInt) :
  let st' := snd (update_settings form st) in
  fst (update_settings form st) = SettingsError /\
  alert_threshold (config st') = Some (quantize4 (p / 100)) /\
  lookback_days (config st') = Some d /\
  scan_interval_minutes (config st') = Some m /\
  email_settings (config st') =
    option_map (fill_email form) (email_settings (config st)) /\
  config_dumps st' = config_dumps st.
Proof.
  cbn zeta. unfold update_settings.
  rewrite Ht, (plain_percent_quantizes _ Hplain), Hd, Hm, Hport. cbn.
  destruct (email_settings (config st)) eqn:E; cbn; rewrite ?E;
    repeat split.
Qed.

Lemma update_settings_fails_after_assignments_witness :
  plain_percent 10 /\
  alert_threshold
    (config (snd (update_settings
                    (mkSettingsForm (Some (DecimalOf 10)) None None None
                                    (Some "on") None None None None
                                    (Some NotAnInt))
                    (initial_state default_config)))) =
  Some (quantize4 (10 / 100)) /\
  config_dumps
    (snd (update_settings
            (mkSettingsForm (Some (DecimalOf 10)) None None None
                            (Some "on") None None None None
                            (Some NotAnInt))
            (initial_state default_config))) = [].
Proof.
  assert (Hplain : plain_percent 10).
  { split; [|discriminate].
    exists 10%Z, 0%Z. split; [reflexivity|reflexivity]. }
  destruct (update_settings_fails_after_assignments
              (mkSettingsForm (Some (DecimalOf 10)) None None None
                              (Some "on") None None None None
                              (Some NotAnInt))
              (initial_state default_config) 10 30 30
              eq_refl Hplain eq_refl eq_refl eq_refl)
    as [_ [H1 [_ [_ [_ H2]]]]].
  split; [exact Hplain|]. split; [exact H1|exact H2].
Defined.

(** A percentage beyond the precision of [quantize] is refused before
    anything is assigned. *)
Example update_settings_refuses_1e26 :
  update_settings
    (mkSettingsForm
       (Some (DecimalOf 100000000000000000000000000)) None None None None
       None None None None None)
    sample_state
  = (SettingsError, sample_state).
Proof. reflexivity. Qed.

(** ** The price endpoint *)

Lemma dict_get_set_eq {V : Type} (key : string) (value : V)
  (d : list (string * V)) :
  dict_get key (dict_set key value d) = Some value.
Proof.
  induction d as [|[k v] rest IH]; simpl.
  - now rewrite String.eqb_refl.
  - destruct (String.eqb k key) eqn:E; simpl; rewrite E; auto.
Qed.

Lemma dict_get_set_neq {V : Type} (key other : string) (value : V)
  (d : list (string * V)) :
  other <> key -> dict_get other (dict_set key value d) = dict_get other d.
Proof.
  intros Hne. induction d as [|[k v] rest IH]; simpl.
  - destruct (String.eqb key other) eqn:E; [|reflexivity].
    apply String.eqb_eq in E. congruence.
  - destruct (String.eqb k key) eqn:E; simpl.
    + apply String.eqb_eq in E. subst k.
      destruct (String.eqb key other) eqn:E'; [|reflexivity].
      apply String.eqb_eq in E'. congruence.
    + now rewrite IH.
Qed.

Lemma dict_get_In {V : Type} (key : string) (d : list (string * V)) :
  dict_get key d <> None <-> In key (map fst d).
Proof.
  induction d as [|[k v] rest IH]; simpl; [tauto|].
  destruct (String.eqb k key) eqn:E.
  - apply String.eqb_eq in E. split; [auto|discriminate].
  - apply String.eqb_neq in E. rewrite IH. tauto.
Qed.

Lemma dict_set_keys {V : Type} (key : string) (value : V)
  (d : list (string * V)) :
  map fst (dict_set key value d) =
  match dict_get key d with
  | Some _ => map fst d
  | None => map fst d ++ [key]
  end.
Proof.
  induction d as [|[k v] rest IH]; simpl; [reflexivity|].
  destruct (String.eqb k key) eqn:E; simpl; [reflexivity|].
  rewrite IH. destruct (dict_get key rest); reflexivity.
Qed.

Lemma dict_set_NoDup {V : Type} (key : string) (value : V)
  (d : list (string * V)) :
  NoDup (map fst d) -> NoDup (map fst (dict_set key value d)).
Proof.
  intros H. rewrite dict_set_keys.
  destruct (dict_get key d) eqn:E; [exact H|].
  apply NoDup_app; [exact H|repeat constructor; simpl; tauto|].
  intros x Hx [<-|[]]. apply dict_get_In in Hx. congruence.
Qed.

(** The dict built by the loop, from any dict it starts with. *)
Lemma price_loop_spec (feeds : PriceFeeds) (symbols : list string) :
  forall d,
    NoDup (map fst d) ->
    let d' := fold_left (fun prices sym =>
                           dict_set sym (price_entry feeds sym) prices)
                        symbols d in
    NoDup (map fst d') /\
    (forall sym, In sym symbols ->
                 dict_get sym d' = Some (price_entry feeds sym)) /\
    (forall sym, ~ In sym symbols -> dict_get sym d' = dict_get sym d).
Proof.
  induction symbols as [|s rest IH]; intros d Hd; cbn zeta; simpl.
  - repeat split; [exact Hd|tauto].
  - destruct (IH (dict_set s (price_entry feeds s) d)
                (dict_set_NoDup _ _ _ Hd)) as [H1 [H2 H3]].
    cbn zeta in *. split; [exact H1|]. split.
    + intros sym [<-|Hin].
      * destruct (in_dec string_dec s rest) as [Hr|Hr]; [now apply H2|].
        rewrite (H3 _ Hr). apply dict_get_set_eq.
      * now apply H2.
    + intros sym Hnot. rewrite H3 by tauto.
      apply dict_get_set_neq. intros ->. tauto.
Qed.

(** X25.  With no configured symbol the endpoint answers with the error object.
    Otherwise it answers with one entry for each configured symbol and for
    no other key: a symbol that is configured twice has one entry, and
    the entry of a symbol is the one its own data gives, whatever happens
    with the other symbols. *)
Theorem api_stock_prices_covers_the_symbols (feeds : PriceFeeds) (st : State) :
  (stored_stocks st = [] -> api_stock_prices feeds st = NoStocksConfigured) /\
  (stored_stocks st <> [] ->
   exists prices,
     api_stock_prices feeds st = Prices prices /\
     NoDup (map fst prices) /\
     (forall sym, In sym (stored_stocks st) ->
                  dict_get sym prices = Some (price_entry feeds sym)) /\
     (forall sym, In sym (map fst prices) -> In sym (stored_stocks st))).
Proof.
  unfold api_stock_prices, stored_stocks.
  destruct (get (stocks (config st)) []) as [|s rest] eqn:E.
  - split; [reflexivity|congruence].
  - split; [discriminate|]. intros _.
    destruct (price_loop_spec feeds (s :: rest) [] (NoDup_nil _))
      as [H1 [H2 H3]]. cbn zeta in *.
    eexists. split; [reflexivity|]. split; [exact H1|]. split; [exact H2|].
    intros sym Hin. apply dict_get_In in Hin.
    destruct (in_dec string_dec sym (s :: rest)) as [Hs|Hs]; [exact Hs|].
    exfalso. apply Hin. rewrite (H3 _ Hs). reflexivity.
Qed.

Lemma iloc_second_last_some {A : Type} (l : list A) :
  (2 <= List.length l)%nat -> exists x, iloc_second_last l = Some x.
Proof.
  induction l as [|a l IH]; simpl; [lia|].
  destruct l as [|b l]; simpl; [lia|].
  destruct l as [|c l]; [eauto|]. intros _. apply IH. simpl. lia.
Qed.

Lemma change_pct_returns (current : Q) (daily : DataFrame) :
  exists change, change_pct current daily = Some change.
Proof.
  unfold change_pct.
  destruct (2 <=? List.length daily)%nat eqn:E; [|eauto].
  apply Nat.leb_le in E.
  destruct (iloc_second_last_some (map Close daily)) as [x Hx];
    [now rewrite length_map|].
  rewrite Hx. eauto.
Qed.

(** X26.  A symbol gets a quote exactly when both histories are returned and
    one of them has rows; it gets "No data available" exactly when both
    are returned empty, and the fetch error when one of them raises. *)
Theorem price_entry_cases (feeds : PriceFeeds) (sym : string) :
  ((exists price change rsi_val,
      price_entry feeds sym = Quote price change rsi_val) <->
   (exists intraday daily,
      intraday_history feeds sym = HistoryFrame intraday /\
      daily_history feeds sym = HistoryFrame daily /\
      (intraday <> [] \/ daily <> []))) /\
  (price_entry feeds sym = NoDataAvailable <->
   intraday_history feeds sym = HistoryFrame [] /\
   daily_history feeds sym = HistoryFrame []) /\
  (price_entry feeds sym = ErrorFetchingPrice <->
   intraday_history feeds sym = HistoryRaises \/
   daily_history feeds sym = HistoryRaises).
Proof.
  unfold price_entry.
  destruct (intraday_history feeds sym) as [|intraday].
  { repeat split; try discriminate; auto.
    - intros [p [c [r H]]]. discriminate.
    - intros [i [d [H _]]]. discriminate.
    - intros [H _]. discriminate. }
  destruct (daily_history feeds sym) as [|daily].
  { repeat split; try discriminate; auto.
    - intros [p [c [r H]]]. discriminate.
    - intros [i [d [_ [H _]]]]. discriminate.
    - intros [_ H]. discriminate. }
  destruct intraday as [|r0 i0], daily as [|r1 d1]; cbn [nonempty negb andb].
  - repeat split; try discriminate; auto.
    + intros [p [c [r H]]]. discriminate.
    + intros [i [d [Hi [Hd [H|H]]]]]; congruence.
    + intros [H|H]; discriminate.
  - destruct (iloc_last_nonempty (map Close (r1 :: d1))) as [cur Hc];
      [discriminate|]. rewrite Hc.
    destruct (change_pct_returns cur (r1 :: d1)) as [ch Hch]. rewrite Hch.
    repeat split; try discriminate; eauto.
    + intros _. exists [], (r1 :: d1). repeat split. right. discriminate.
    + intros [_ H]. discriminate.
    + intros [H|H]; discriminate.
  - destruct (iloc_last_nonempty (map Close (r0 :: i0))) as [cur Hc];
      [discriminate|]. rewrite Hc.
    destruct (change_pct_returns cur []) as [ch Hch]. rewrite Hch.
    repeat split; try discriminate; eauto.
    + intros _. exists (r0 :: i0), []. repeat split. left. discriminate.
    + intros [H _]. discriminate.
    + intros [H|H]; discriminate.
  - destruct (iloc_last_nonempty (map Close (r0 :: i0))) as [cur Hc];
      [discriminate|]. rewrite Hc.
    destruct (change_pct_returns cur (r1 :: d1)) as [ch Hch]. rewrite Hch.
    repeat split; try discriminate; eauto.
    + intros _. exists (r0 :: i0), (r1 :: d1). repeat split. left.
      discriminate.
    + intros [H _]. discriminate.
    + intros [H|H]; discriminate.
Qed.

(** ** The sign of the threshold, from the form to the alert *)

Lemma Qfloor_unique (y : Q) (k : Z) :
  inject_Z k <= y -> y < inject_Z (k + 1) -> Qfloor y = k.
Proof.
  intros Hlo Hhi.
  pose proof (Qfloor_resp_le _ _ Hlo) as H1. rewrite Qfloor_Z in H1.
  pose proof (Qfloor_le y) as H2.
  assert (H3 : inject_Z (Qfloor y) < inject_Z (k + 1)) by lra.
  rewrite <- Zlt_Qlt in H3. lia.
Qed.

Lemma round_half_even_opp (y : Q) :
  round_half_even (- y) = (- round_half_even y)%Z.
Proof.
  pose proof (Qfloor_le y) as Hlo. pose proof (Qlt_floor y) as Hhi.
  rewrite inject_Z_plus in Hhi. change (inject_Z 1) with 1 in Hhi.
  set (f := Qfloor y) in *.
  destruct (Qeq_dec y (inject_Z f)) as [Hint|Hfrac].
  - assert (Hf : Qfloor (- y) = (- f)%Z).
    { apply Qfloor_unique.
      - rewrite inject_Z_opp. lra.
      - rewrite inject_Z_plus, inject_Z_opp. change (inject_Z 1) with 1.
        lra. }
    unfold round_half_even. rewrite Hf. fold f.
    assert (C1 : Qcompare (- y - inject_Z (- f)) (1 # 2) = Lt).
    { apply (proj1 (Qlt_alt _ _)). rewrite inject_Z_opp. lra. }
    assert (C2 : Qcompare (y - inject_Z f) (1 # 2) = Lt).
    { apply (proj1 (Qlt_alt _ _)). lra. }
    now rewrite C1, C2.
  - assert (Hgt : inject_Z f < y).
    { destruct (proj1 (Qle_lteq _ _) Hlo) as [H|H]; [exact H|].
      exfalso. apply Hfrac. symmetry. exact H. }
    assert (Hf : Qfloor (- y) = (- f - 1)%Z).
    { apply Qfloor_unique.
      - unfold Z.sub. rewrite inject_Z_plus, !inject_Z_opp.
        change (inject_Z 1) with 1. lra.
      - replace (- f - 1 + 1)%Z with (- f)%Z by lia.
        rewrite inject_Z_opp. lra. }
    assert (Hev : Z.even (- f - 1) = negb (Z.even f)).
    { replace (- f - 1)%Z with (- Z.succ f)%Z by lia.
      now rewrite Z.even_opp, Z.even_succ, <- Z.negb_even. }
    assert (Einj : inject_Z (- f - 1) == - inject_Z f - 1).
    { unfold Z.sub. rewrite inject_Z_plus, !inject_Z_opp.
      change (inject_Z 1) with 1. ring. }
    unfold round_half_even. rewrite Hf, Hev. fold f.
    destruct (Qcompare (y - inject_Z f) (1 # 2)) eqn:C;
      destruct (Qcompare (- y - inject_Z (- f - 1)) (1 # 2)) eqn:C';
      first [apply Qeq_alt in C | apply Qlt_alt in C | apply Qgt_alt in C];
      first [apply Qeq_alt in C' | apply Qlt_alt in C' | apply Qgt_alt in C'];
      rewrite Einj in C';
      try (exfalso; lra);
      destruct (Z.even f); cbn [negb]; lia.
Qed.

Lemma round_half_even_wd (x y : Q) :
  x == y -> round_half_even x = round_half_even y.
Proof.
  intros H. unfold round_half_even.
  assert (Hf : Qfloor x = Qfloor y) by (now apply Qfloor_comp).
  rewrite Hf.
  assert (Hc : Qcompare (x - inject_Z (Qfloor y)) (1 # 2) =
               Qcompare (y - inject_Z (Qfloor y)) (1 # 2)).
  { apply Qcompare_comp; [now rewrite H|reflexivity]. }
  now rewrite Hc.
Qed.

Lemma quantize4_wd (x y : Q) : x == y -> quantize4 x = quantize4 y.
Proof.
  intros H. unfold quantize4. f_equal. f_equal.
  apply round_half_even_wd. now rewrite H.
Qed.

Lemma quantize4_opp (x : Q) : quantize4 (- x) == - quantize4 x.
Proof.
  unfold quantize4.
  assert (R : round_half_even (- x * 10000)
              = round_half_even (- (x * 10000))).
  { apply round_half_even_wd. ring. }
  rewrite R, round_half_even_opp, inject_Z_opp. field.
Qed.

(** The evaluation depends on the threshold through its absolute value
    only, and on the rest of the configuration through the lookback. *)
Lemma check_stock_alert_same_threshold cfg1 cfg2 env sym :
  lookback_days cfg1 = lookback_days cfg2 ->
  Qabs (get (alert_threshold cfg1) 0.05)
  == Qabs (get (alert_threshold cfg2) 0.05) ->
  check_stock_alert cfg1 env sym = check_stock_alert cfg2 env sym.
Proof.
  intros Hl Ht. unfold check_stock_alert, get_stock_data. rewrite Hl.
  destruct (history env sym _) as [|[|r0 d]]; try reflexivity.
  destruct (iloc_last (map Close (r0 :: d))) as [current|]; [|reflexivity].
  destruct (series_max (map High (r0 :: d))) as [high|]; [|reflexivity].
  destruct (iloc_last (rows_with_high high (r0 :: d))) as [row|];
    [|reflexivity].
  cbv zeta.
  assert (Hb : Qle_bool ((current - high) / high)
                        (- Qabs (get (alert_threshold cfg1) 0.05)) =
               Qle_bool ((current - high) / high)
                        (- Qabs (get (alert_threshold cfg2) 0.05))).
  { now rewrite Ht. }
  now rewrite Hb.
Qed.

(** X24.  A negative percentage in the settings form acts as its absolute
    value: after [update_settings] with [- p] every symbol is evaluated
    as after [update_settings] with [p]. *)
Theorem negative_percent_acts_as_positive (p : Q) (form : SettingsForm)
  (st : State) env sym
  (Hd : field_lookback_days form <> Some NotAnInt)
  (Hm : field_scan_interval_minutes form <> Some NotAnInt)
  (Hp : field_smtp_port form <> Some NotAnInt) :
  check_stock_alert
    (config (snd (update_settings (with_percent (- p) form) st))) env sym =
  check_stock_alert
    (config (snd (update_settings (with_percent p form) st))) env sym.
Proof.
  assert (E : - p / 100 == - (p / 100)) by (field).
  assert (Hq : quantize_raises (- p / 100) = quantize_raises (p / 100)).
  { unfold quantize_raises.
    assert (R : round_half_even (- p / 100 * 10000)
                = round_half_even (- (p / 100 * 10000))).
    { apply round_half_even_wd. field. }
    now rewrite R, round_half_even_opp, Z.abs_opp. }
  unfold update_settings, with_percent.
  cbn [get field_alert_threshold field_lookback_days
       field_scan_interval_minutes field_tradingview_url
       field_email_enabled field_sender_email field_sender_password
       field_recipient_email field_smtp_server field_smtp_port].
  rewrite Hq. destruct (quantize_raises (p / 100)); [reflexivity|].
  apply check_stock_alert_same_threshold;
    destruct (get (field_lookback_days form) (IntOf 30)) as [|d] eqn:Ed;
    try (destruct (field_lookback_days form) as [[|q]|]; cbn in Ed;
         congruence);
    destruct (get (field_scan_interval_minutes form) (IntOf 30))
      as [|m] eqn:Em;
    try (destruct (field_scan_interval_minutes form) as [[|q]|]; cbn in Em;
         congruence);
    destruct (get (field_smtp_port form) (IntOf 587)) as [|port] eqn:Ep;
    try (destruct (field_smtp_port form) as [[|q]|]; cbn in Ep; congruence);
    cbn; [reflexivity|].
  change (Qabs (quantize4 (- p / 100)) == Qabs (quantize4 (p / 100))).
  rewrite (quantize4_wd _ _ E), quantize4_opp. apply Qabs_opp.
Qed.

Lemma negative_percent_acts_as_positive_witness :
  field_lookback_days sample_settings <> Some NotAnInt /\
  field_scan_interval_minutes sample_settings <> Some NotAnInt /\
  field_smtp_port sample_settings <> Some NotAnInt /\
  check_stock_alert
    (config (snd (update_settings (with_percent (- (5)) sample_settings)
                                  (initial_state default_config))))
    sample_env "AAA" =
  check_stock_alert
    (config (snd (update_settings (with_percent 5 sample_settings)
                                  (initial_state default_config))))
    sample_env "AAA".
Proof.
  assert (Hd : field_lookback_days sample_settings <> Some NotAnInt)
    by discriminate.
  assert (Hm : field_scan_interval_minutes sample_settings <> Some NotAnInt)
    by discriminate.
  assert (Hp : field_smtp_port sample_settings <> Some NotAnInt)
    by discriminate.
  split; [exact Hd|]. split; [exact Hm|]. split; [exact Hp|].
  exact (negative_percent_acts_as_positive 5 sample_settings
           (initial_state default_config) sample_env "AAA" Hd Hm Hp).
Defined.

(** ** The scan on binary64 prices *)

(** X31.  The outcome of a scan on binary64 prices.  It raises
    [IndexError], with the monitor as it was, exactly when a configured
    symbol has a fetched frame without any high.  Otherwise it returns: the
    results are the entries of the configured symbols with fetched data,
    in the configured order, a symbol without fetched data contributes
    none, the alerts are the results with [is_alert], and the snapshot
    holds the results and the time of the scan. *)
Theorem binary64_scan_outcome (env : F64.Env) (st : F64.State) :
  let cfg := F64.config st in
  let symbols := get (F64.stocks cfg) [] in
  (existsb (F64.unpriced cfg env) symbols = true ->
   F64.scan_portfolio env st = (Raised IndexError, st)) /\
  (existsb (F64.unpriced cfg env) symbols = false ->
   exists alerts results st',
     F64.scan_portfolio env st = (Returned (alerts, results), st') /\
     results = flat_map (F64.evaluated cfg env) symbols /\
     map F64.symbol results =
       filter (fun sym => has_key (F64.get_stock_data cfg env sym)) symbols /\
     alerts = filter F64.is_alert results /\
     (forall sym, F64.get_stock_data cfg env sym = None ->
                  F64.evaluated cfg env sym = []) /\
     F64.last_scan_results st' = results /\
     F64.last_scan_time st' = Some (F64.now env) /\
     F64.config st' = F64.config st).
Proof.
  cbv zeta. unfold F64.scan_portfolio.
  destruct (binary64_scan_loop_outcome (F64.config st) env
              (get (F64.stocks (F64.config st)) []) [] []) as [H1 H2].
  split.
  - intros Hbad. now rewrite (H1 Hbad).
  - intros Hok. rewrite (H2 Hok). cbn [app].
    do 3 eexists. split; [reflexivity|].
    split; [reflexivity|].
    split; [now apply binary64_symbols_of_evaluated|].
    split; [reflexivity|]. split.
    { intros sym Hsym. unfold F64.evaluated.
      now rewrite (evaluated_unfetched _ _ _ Hsym). }
    destruct (nonempty _ && _); repeat split.
Qed.

(** X27.  The scan and the price endpoint round the same close differently.
    The close 16.055 is, as a binary64 number, below 16.055.  The scan
    rounds the [numpy.float64] (times 100, to the nearest integer, over
    100) and reports 16.06; the endpoint rounds the Python float to the
    nearest decimal and reports 16.05. *)
Theorem scan_and_endpoint_round_differently :
  exists r last_row,
    F64.check_stock_alert F64.default_config F64.sample_env "FFF"
      = Returned (Some r) /\
    iloc_last F64.half_cent_frame = Some last_row /\
    F64.current_price r = F64.np_round2 (F64.Close last_row) /\
    F64.current_price r = 16.06%float /\
    F64.py_round2 (F64.Close last_row) = 16.05%float /\
    (F64.current_price r =? F64.py_round2 (F64.Close last_row))%float = false.
Proof.
  eexists. eexists. split; [reflexivity|]. split; [reflexivity|].
  split; [reflexivity|]. now vm_compute.
Qed.

Example rint_is_half_even :
  F64.rint 0.5 = 0%float /\ F64.rint 1.5 = 2%float /\
  F64.rint 2.5 = 2%float /\ F64.rint (-0.3) = (-0)%float /\
  F64.rint 1605.5 = 1606%float /\ F64.rint infinity = infinity.
Proof. now vm_compute. Qed.

Example py_round2_is_decimal :
  F64.py_round2 0.125 = 0.12%float /\ F64.py_round2 2.675 = 2.67%float /\
  F64.py_round2 (-0.001) = (-0)%float /\
  F64.py_round2 1e300 = 1e300%float.
Proof. now vm_compute. Qed.

(** ** The loop threads across a stop and a start *)

Lemma active_loops_after_sleep (tid : nat) (wake : Z)
  (loops : list LoopThread) :
  map thread_id
      (map (fun u => if Nat.eqb (thread_id u) tid
                     then mkLoopThread tid wake else u) loops)
  = map thread_id loops.
Proof.
  induction loops as [|u l IH]; [reflexivity|].
  cbn [map]. rewrite IH. f_equal.
  destruct (Nat.eqb (thread_id u) tid) eqn:E; [|reflexivity].
  apply Nat.eqb_eq in E. now rewrite E.
Qed.

(** X32.  A loop thread that sleeps for more than a second survives a stop
    and the start that follows.  When [stop_monitoring] is called while
    the thread in [monitor_thread] is alive and its sleep ends more than
    one second later, the call returns [True] after one second with the
    thread alive, and the next [start_monitoring] returns [True] and adds
    a thread: both are alive under a set flag.  And a thread that wakes
    under a set flag scans and stays alive, whichever call has set the
    flag. *)
Theorem sleeping_loop_survives_stop_and_start (sleep_max : Z) (w : World)
  (t : LoopThread)
  (Hthread : monitor_thread (monitor w) = Some (thread_id t))
  (Hlive : find_loop (thread_id t) (live_loops w) = Some t)
  (Hsleep : (clock w + 1 < wakes_at t)%Z) :
  (exists w',
     happen sleep_max [CallStop; CallStart] w = Some ([true; true], w') /\
     monitoring (monitor w') = true /\
     clock w' = (clock w + 1)%Z /\
     live_loops w' =
       live_loops w
       ++ [mkLoopThread (threads_started (monitor w)) (clock w + 1)]) /\
  (forall w1 scan_raises,
     monitoring (monitor w1) = true ->
     find_loop (thread_id t) (live_loops w1) = Some t ->
     (wakes_at t <= clock w1)%Z ->
     exists w2,
       loop_turn sleep_max (thread_id t) scan_raises w1 = Some w2 /\
       active_loops w2 = active_loops w1 /\
       loop_scans w2 = loop_scans w1 ++ [(thread_id t, clock w1)]).
Proof.
  split.
  - cbn [happen]. unfold call_stop, stop_monitoring.
    cbn [monitor_thread]. rewrite Hthread, Hlive.
    assert (Hgt : (wakes_at t <=? clock w + 1)%Z = false)
      by (apply Z.leb_gt; exact Hsleep).
    rewrite Hgt. unfold call_start, start_monitoring.
    cbn [monitor monitoring clock live_loops loop_scans threads_started
         option_map fst snd].
    eexists. split; [reflexivity|]. repeat split.
  - intros w1 scan_raises Hflag Hfind Hdue. unfold loop_turn.
    rewrite Hfind.
    assert (Hle : (wakes_at t <=? clock w1)%Z = true)
      by (apply Z.leb_le; exact Hdue).
    rewrite Hle, Hflag. eexists. split; [reflexivity|].
    unfold active_loops. cbn [live_loops loop_scans].
    split; [apply active_loops_after_sleep|reflexivity].
Qed.

Lemma sleeping_loop_survives_stop_and_start_witness :
  let w := mkWorld (snd (start_monitoring (initial_state default_config)))
                   10 [mkLoopThread 0 1800] [(0%nat, 0%Z)] in
  let t := mkLoopThread 0 1800 in
  monitor_thread (monitor w) = Some (thread_id t) /\
  find_loop (thread_id t) (live_loops w) = Some t /\
  (clock w + 1 < wakes_at t)%Z /\
  exists w',
    happen sleep_max_64 [CallStop; CallStart] w = Some ([true; true], w') /\
    monitoring (monitor w') = true /\
    clock w' = (clock w + 1)%Z /\
    live_loops w' =
      live_loops w
      ++ [mkLoopThread (threads_started (monitor w)) (clock w + 1)].
Proof.
  cbv zeta.
  split; [reflexivity|]. split; [reflexivity|]. split; [reflexivity|].
  exact (proj1 (sleeping_loop_survives_stop_and_start sleep_max_64
                  (mkWorld
                     (snd (start_monitoring (initial_state default_config)))
                     10 [mkLoopThread 0 1800] [(0%nat, 0%Z)])
                  (mkLoopThread 0 1800) eq_refl eq_refl eq_refl)).
Defined.
